(** * Checkpointed expansion of findings: a shallow embedding of
      [post_process_findings.py]

    The development follows the script top to bottom: Python values and
    exceptions, the text helpers the script calls ([str.strip], [re.split],
    [re.search], [json.loads], [json.dumps], [str.encode], [hashlib.md5]),
    then [get_finding_hash], [load_checkpoint], [save_checkpoint],
    [get_coordinates], [split_species], [extract_areas_with_llm] and the
    module-level loop.  Calls to the two remote services are answered by an
    abstract world; every effect of the loop is recorded as an event, and the
    files on disk are obtained by replaying events.  The text of the two
    JSONL files is modelled as well: the loop that reads the findings, the
    lines the script appends, and the record [build_database.py] writes for
    a finding. *)

From Stdlib Require Import ZArith NArith Ascii String DecimalString Lia.
From Stdlib Require DecimalFacts DecimalPos.
From stdpp Require Import base option list sorting gmap.

Set Warnings "-register-all".
Local Open Scope N_scope.

(** ** Python strings

    A [str] is a sequence of code points.  Python compares strings code point
    by code point, and [str.strip] decides on code points as well. *)

Definition pystr := list N.

Definition ch (a : ascii) : N := N_of_ascii a.

(** Text of an ASCII literal. *)
Definition u (s : string) : pystr := map ch (list_ascii_of_string s).

Definition dquote : N := 34.
Definition backslash : N := 92.

(** [str.isspace] for one code point (CPython's [_PyUnicode_IsWhitespace]). *)
Definition is_whitespace (c : N) : bool :=
  ((9 <=? c) && (c <=? 13)) || ((28 <=? c) && (c <=? 32))
  || (c =? 133) || (c =? 160) || (c =? 5760)
  || ((8192 <=? c) && (c <=? 8202))
  || (c =? 8232) || (c =? 8233) || (c =? 8239) || (c =? 8287) || (c =? 12288).

Fixpoint lstrip (s : pystr) : pystr :=
  match s with
  | c :: r => if is_whitespace c then lstrip r else s
  | [] => []
  end.

Definition rstrip (s : pystr) : pystr := rev (lstrip (rev s)).

(** [s.strip()] *)
Definition strip (s : pystr) : pystr := rstrip (lstrip s).

(** [re.split(r'[,/]', text)]: the text is cut at every comma and slash; a
    text with n separators gives n+1 pieces, empty ones included. *)
Definition is_separator (c : N) : bool := (c =? ch ",") || (c =? ch "/").

Fixpoint re_split (s : pystr) : list pystr :=
  match s with
  | [] => [[]]
  | c :: r =>
      if is_separator c then [] :: re_split r
      else match re_split r with
           | p :: ps => (c :: p) :: ps
           | [] => [[c]]
           end
  end.

Fixpoint drop_until (p : N -> bool) (s : pystr) : pystr :=
  match s with
  | c :: r => if p c then s else drop_until p r
  | [] => []
  end.

(** [re.search(r'\[.*\]', content, re.DOTALL)]: the leftmost match starts at
    the first opening bracket, and the greedy [.*] (which crosses newlines
    under DOTALL) runs to the last closing bracket of the text.  [None] when
    no closing bracket follows the first opening one. *)
Definition re_search_array (content : pystr) : option pystr :=
  match drop_until (N.eqb (ch "[")) content with
  | [] => None
  | open :: t =>
      match rev (drop_until (N.eqb (ch "]")) (rev t)) with
      | [] => None
      | m => Some (open :: m)
      end
  end.

(** Python orders strings lexicographically by code point; a proper prefix
    comes first. *)
Fixpoint pystr_leb (a b : pystr) : bool :=
  match a, b with
  | [], _ => true
  | _ :: _, [] => false
  | x :: a', y :: b' =>
      if x <? y then true else if y <? x then false else pystr_leb a' b'
  end.

(** ** [str.encode()]: UTF-8

    Python refuses to encode a lone surrogate (U+D800..U+DFFF), which
    [json.loads] can produce from an unpaired escape: [None] stands for the
    [UnicodeEncodeError]. *)
Definition utf8_char (c : N) : option (list N) :=
  if c <? 128 then Some [c]
  else if c <? 2048 then
    Some [N.lor 192 (N.shiftr c 6); N.lor 128 (N.land c 63)]
  else if c <? 65536 then
    if (55296 <=? c) && (c <=? 57343) then None
    else Some [N.lor 224 (N.shiftr c 12);
               N.lor 128 (N.land (N.shiftr c 6) 63);
               N.lor 128 (N.land c 63)]
  else if c <? 1114112 then
    Some [N.lor 240 (N.shiftr c 18);
          N.lor 128 (N.land (N.shiftr c 12) 63);
          N.lor 128 (N.land (N.shiftr c 6) 63);
          N.lor 128 (N.land c 63)]
  else None.

Fixpoint utf8_encode (s : pystr) : option (list N) :=
  match s with
  | [] => Some []
  | c :: r =>
      match utf8_char c, utf8_encode r with
      | Some b, Some bs => Some (b ++ bs)
      | _, _ => None
      end
  end.

(** ** [hashlib.md5(...).hexdigest()] (RFC 1321), on 32-bit words *)
Module MD5.

Definition mask32 : N := 4294967295.
Definition add32 (a b : N) : N := N.land (a + b) mask32.
Definition not32 (a : N) : N := N.lxor a mask32.
Definition rotl32 (x c : N) : N :=
  N.lor (N.land (N.shiftl x c) mask32) (N.shiftr x (32 - c)).

Definition shift_amounts : list N :=
  [7; 12; 17; 22; 7; 12; 17; 22; 7; 12; 17; 22; 7; 12; 17; 22;
   5; 9; 14; 20; 5; 9; 14; 20; 5; 9; 14; 20; 5; 9; 14; 20;
   4; 11; 16; 23; 4; 11; 16; 23; 4; 11; 16; 23; 4; 11; 16; 23;
   6; 10; 15; 21; 6; 10; 15; 21; 6; 10; 15; 21; 6; 10; 15; 21].

(** floor(2^32 * |sin(i+1)|) for i = 0..63 *)
Definition sine_table : list N :=
  [3614090360; 3905402710; 606105819; 3250441966; 4118548399; 1200080426; 2821735955; 4249261313;
   1770035416; 2336552879; 4294925233; 2304563134; 1804603682; 4254626195; 2792965006; 1236535329;
   4129170786; 3225465664; 643717713; 3921069994; 3593408605; 38016083; 3634488961; 3889429448;
   568446438; 3275163606; 4107603335; 1163531501; 2850285829; 4243563512; 1735328473; 2368359562;
   4294588738; 2272392833; 1839030562; 4259657740; 2763975236; 1272893353; 4139469664; 3200236656;
   681279174; 3936430074; 3572445317; 76029189; 3654602809; 3873151461; 530742520; 3299628645;
   4096336452; 1126891415; 2878612391; 4237533241; 1700485571; 2399980690; 4293915773; 2240044497;
   1873313359; 4264355552; 2734768916; 1309151649; 4149444226; 3174756917; 718787259; 3951481745].

Definition at_index (l : list N) (i : N) : N := default 0 (l !! N.to_nat i).

(** [n] bytes of [x], least significant first. *)
Fixpoint le_bytes (n : nat) (x : N) : list N :=
  match n with
  | O => []
  | S n' => N.land x 255 :: le_bytes n' (N.shiftr x 8)
  end.

Fixpoint le_word (bytes : list N) : N :=
  match bytes with
  | [] => 0
  | b :: r => N.lor b (N.shiftl (le_word r) 8)
  end.

Definition pad (msg : list N) : list N :=
  let len := N.of_nat (length msg) in
  let zeros := (119 - len mod 64) mod 64 in
  msg ++ [128] ++ repeat 0 (N.to_nat zeros) ++ le_bytes 8 (8 * len).

Fixpoint groups (fuel size : nat) (l : list N) : list (list N) :=
  match fuel, l with
  | S f, _ :: _ => take size l :: groups f size (drop size l)
  | _, _ => []
  end.

Definition words (block : list N) : list N := map le_word (groups 16 4 block).

Definition round (m : list N) (st : N * N * N * N) (i : N) : N * N * N * N :=
  let '(a, b, c, d) := st in
  let '(f, g) :=
    if i <? 16 then (N.lor (N.land b c) (N.land (not32 b) d), i)
    else if i <? 32 then (N.lor (N.land d b) (N.land (not32 d) c), (5 * i + 1) mod 16)
    else if i <? 48 then (N.lxor b (N.lxor c d), (3 * i + 5) mod 16)
    else (N.lxor c (N.lor b (not32 d)), (7 * i) mod 16) in
  let f' := add32 (add32 (add32 f a) (at_index sine_table i)) (at_index m g) in
  (d, add32 b (rotl32 f' (at_index shift_amounts i)), b, c).

Definition compress (st : N * N * N * N) (block : list N) : N * N * N * N :=
  let '(a0, b0, c0, d0) := st in
  let '(a, b, c, d) := fold_left (round (words block)) (map N.of_nat (seq 0 64)) st in
  (add32 a0 a, add32 b0 b, add32 c0 c, add32 d0 d).

Definition digest (msg : list N) : list N :=
  let padded := pad msg in
  let '(a, b, c, d) :=
    fold_left compress (groups (length padded) 64 padded)
              (1732584193, 4023233417, 2562383102, 271733878) in
  le_bytes 4 a ++ le_bytes 4 b ++ le_bytes 4 c ++ le_bytes 4 d.

Definition hex_digit (n : N) : N := if n <? 10 then 48 + n else 87 + n.

Definition hexdigest (msg : list N) : pystr :=
  flat_map (fun b => [hex_digit (N.shiftr b 4); hex_digit (N.land b 15)]) (digest msg).

End MD5.

(** ** Floats

    Binary floating point is not modelled.  The script only converts to
    float, tests a float for truth and prints it, so those operations are an
    interface. *)
Class PyFloat := {
  pyfloat : Type;
  (** [float(text)] for a JSON number literal with a fraction or exponent,
      and for [NaN], [Infinity], [-Infinity] *)
  float_of_literal : pystr -> pyfloat;
  (** [float(s)] for an arbitrary [str]; [None] is [ValueError] *)
  float_of_str : pystr -> option pyfloat;
  (** [float(n)] for an [int]; [None] is [OverflowError] *)
  float_of_int : Z -> option pyfloat;
  (** the text [json.dumps] prints for a float *)
  float_repr : pyfloat -> pystr;
  (** [bool(x)] *)
  float_truthy : pyfloat -> bool
}.

(** ** Exceptions *)

Inductive subscript :=
| SubStr (k : pystr)
| SubInt (i : Z).

Inductive exn :=
| KeyError (k : subscript)
| IndexError
| TypeError
| ValueError
| OverflowError
| UnicodeEncodeError
| JSONDecodeError
| AttributeError
| RequestException      (* connection error or timeout raised by requests.get *)
| HTTPError             (* raise_for_status on a non-2xx reply *)
| APIError.             (* anything the chat-completion client raises *)

Inductive result (A : Type) :=
| Ok (a : A)
| Raise (e : exn).
Arguments Ok {A} a.
Arguments Raise {A} e.

#[global] Instance result_ret : MRet result := fun A a => Ok a.

#[global] Instance result_bind : MBind result := fun A B k r =>
  match r with
  | Ok a => k a
  | Raise e => Raise e
  end.

(** [try: body except Exception: handler]: every exception of the model is an
    [Exception]. *)
Definition try_except {A} (body : result A) (handler : exn -> result A) : result A :=
  match body with
  | Ok a => Ok a
  | Raise e => handler e
  end.

Section Values.
Context `{PyFloat}.

(** ** JSON values, as [json.loads] builds them

    A [dict] keeps its insertion order, so an object is an association list;
    its keys are strings and pairwise distinct. *)
Inductive json :=
| JNull
| JBool (b : bool)
| JInt (n : Z)
| JFloat (x : pyfloat)
| JStr (s : pystr)
| JArr (items : list json)
| JObj (fields : list (pystr * json)).

(** [bool(v)], as tested by [if v:] and [not v]. *)
Definition truthy (v : json) : bool :=
  match v with
  | JNull => false
  | JBool b => b
  | JInt n => negb (n =? 0)%Z
  | JFloat x => float_truthy x
  | JStr s => negb (bool_decide (s = []))
  | JArr l => match l with [] => false | _ => true end
  | JObj kvs => match kvs with [] => false | _ => true end
  end.

Fixpoint dict_get (kvs : list (pystr * json)) (k : pystr) : option json :=
  match kvs with
  | [] => None
  | (k', v) :: r => if bool_decide (k' = k) then Some v else dict_get r k
  end.

(** [seq[i]] for a Python sequence: negative indices count from the end. *)
Definition seq_index {A} (l : list A) (i : Z) : result A :=
  let n := Z.of_nat (length l) in
  let j := (if i <? 0 then n + i else i)%Z in
  if ((0 <=? j) && (j <? n))%Z
  then match l !! Z.to_nat j with Some a => Ok a | None => Raise IndexError end
  else Raise IndexError.

(** [v[s]] *)
Definition getitem (v : json) (s : subscript) : result json :=
  match v, s with
  | JObj kvs, SubStr k =>
      match dict_get kvs k with Some x => Ok x | None => Raise (KeyError s) end
  | JObj _, SubInt _ => Raise (KeyError s)
  | JArr l, SubInt i => seq_index l i
  | JStr t, SubInt i => c ← seq_index t i; Ok (JStr [c])
  | _, _ => Raise TypeError
  end.

(** [for x in v]: the items the loop visits. *)
Definition iterate (v : json) : result (list json) :=
  match v with
  | JArr l => Ok l
  | JStr s => Ok (map (fun c => JStr [c]) s)
  | JObj kvs => Ok (map (fun kv => JStr kv.1) kvs)
  | _ => Raise TypeError
  end.

(** [len(v)] *)
Definition py_len (v : json) : result nat :=
  match v with
  | JArr l => Ok (length l)
  | JStr s => Ok (length s)
  | JObj kvs => Ok (length kvs)
  | _ => Raise TypeError
  end.

(** ** [json.loads] (CPython's scanner, strict mode)

    The interpreter's recursion limit is not modelled: arbitrarily deep
    nesting parses. *)

Inductive parsed (A : Type) :=
| Parsed (a : A) (rest : pystr)
| Malformed
| OutOfFuel.
Arguments Parsed {A} a rest.
Arguments Malformed {A}.
Arguments OutOfFuel {A}.

Definition is_json_space (c : N) : bool :=
  (c =? 32) || (c =? 9) || (c =? 10) || (c =? 13).

Fixpoint skip_ws (s : pystr) : pystr :=
  match s with
  | c :: r => if is_json_space c then skip_ws r else s
  | [] => []
  end.

(** [Some rest] when [s] is [prefix ++ rest]. *)
Fixpoint strip_prefix (prefix s : pystr) : option pystr :=
  match prefix, s with
  | [], _ => Some s
  | p :: prefix', c :: s' => if p =? c then strip_prefix prefix' s' else None
  | _ :: _, [] => None
  end.

Definition is_digit (c : N) : bool := (48 <=? c) && (c <=? 57).

Fixpoint span_digits (s : pystr) : pystr * pystr :=
  match s with
  | c :: r =>
      if is_digit c then let '(ds, rest) := span_digits r in (c :: ds, rest)
      else ([], s)
  | [] => ([], [])
  end.

Definition hex_value (c : N) : option N :=
  if is_digit c then Some (c - 48)
  else if (97 <=? c) && (c <=? 102) then Some (c - 87)
  else if (65 <=? c) && (c <=? 70) then Some (c - 55)
  else None.

Definition hex4 (a b c d : N) : option N :=
  match hex_value a, hex_value b, hex_value c, hex_value d with
  | Some x, Some y, Some z, Some w => Some (((x * 16 + y) * 16 + z) * 16 + w)
  | _, _, _, _ => None
  end.

Definition is_high_surrogate (c : N) : bool := (55296 <=? c) && (c <=? 56319).
Definition is_low_surrogate (c : N) : bool := (56320 <=? c) && (c <=? 57343).
Definition join_surrogates (hi lo : N) : N :=
  65536 + N.lor (N.shiftl (N.land hi 1023) 10) (N.land lo 1023).

Definition unescape (c : N) : option N :=
  if c =? dquote then Some dquote
  else if c =? backslash then Some backslash
  else if c =? ch "/" then Some (ch "/")
  else if c =? ch "b" then Some 8
  else if c =? ch "f" then Some 12
  else if c =? ch "n" then Some 10
  else if c =? ch "r" then Some 13
  else if c =? ch "t" then Some 9
  else None.

(** [scanstring], entered after the opening quote; [acc] holds the decoded
    characters, last first. *)
Fixpoint scan_string (s : pystr) (acc : pystr) {struct s} : parsed pystr :=
  match s with
  | [] => Malformed
  | c :: r =>
      if c =? dquote then Parsed (rev acc) r
      else if c =? backslash then
        match r with
        | [] => Malformed
        | e :: r1 =>
            if e =? ch "u" then
              match r1 with
              | h1 :: h2 :: h3 :: h4 :: r2 =>
                  match hex4 h1 h2 h3 h4 with
                  | None => Malformed
                  | Some c1 =>
                      if is_high_surrogate c1 then
                        match r2 with
                        | b :: e2 :: g1 :: g2 :: g3 :: g4 :: r3 =>
                            if (b =? backslash) && (e2 =? ch "u") then
                              match hex4 g1 g2 g3 g4 with
                              | None => Malformed
                              | Some c2 =>
                                  if is_low_surrogate c2
                                  then scan_string r3 (join_surrogates c1 c2 :: acc)
                                  else scan_string r2 (c1 :: acc)
                              end
                            else scan_string r2 (c1 :: acc)
                        | _ => scan_string r2 (c1 :: acc)
                        end
                      else scan_string r2 (c1 :: acc)
                  end
              | _ => Malformed
              end
            else
              match unescape e with
              | Some x => scan_string r1 (x :: acc)
              | None => Malformed
              end
        end
      else if c <? 32 then Malformed
      else scan_string r (c :: acc)
  end.

Definition digits_value (ds : pystr) : Z :=
  fold_left (fun acc d => (acc * 10 + Z.of_N (d - 48))%Z) ds 0%Z.

(** [_match_number]: an integer part without a leading zero, then a fraction
    and an exponent, each taken only when complete. *)
Definition match_number (s : pystr) : parsed json :=
  let '(sign, s1) :=
    match s with
    | c :: r => if c =? ch "-" then ([c], r) else ([], s)
    | [] => ([], s)
    end in
  match s1 with
  | [] => Malformed
  | d :: r =>
      if negb (is_digit d) then Malformed
      else
        let '(int_digits, s2) :=
          if d =? 48 then ([d], r)
          else let '(ds, rest) := span_digits r in (d :: ds, rest) in
        let '(frac, s3) :=
          match s2 with
          | dot :: f :: r' =>
              if (dot =? ch ".") && is_digit f
              then let '(ds, rest) := span_digits r' in (dot :: f :: ds, rest)
              else ([], s2)
          | _ => ([], s2)
          end in
        let '(expo, s4) :=
          match s3 with
          | e :: r' =>
              if (e =? ch "e") || (e =? ch "E") then
                let '(esign, r'') :=
                  match r' with
                  | sg :: t => if (sg =? ch "-") || (sg =? ch "+") then ([sg], t) else ([], r')
                  | [] => ([], r')
                  end in
                match span_digits r'' with
                | ([], _) => ([], s3)
                | (ds, rest) => (e :: esign ++ ds, rest)
                end
              else ([], s3)
          | [] => ([], s3)
          end in
        match frac, expo with
        | [], [] =>
            let n := digits_value int_digits in
            Parsed (JInt (match sign with [] => n | _ => - n end)%Z) s4
        | _, _ => Parsed (JFloat (float_of_literal (sign ++ int_digits ++ frac ++ expo))) s4
        end
  end.

(** [PyDict_SetItem]: a repeated key keeps its place and takes the new value. *)
Fixpoint dict_set (kvs : list (pystr * json)) (k : pystr) (v : json) : list (pystr * json) :=
  match kvs with
  | [] => [(k, v)]
  | (k', v') :: r =>
      if bool_decide (k' = k) then (k', v) :: r else (k', v') :: dict_set r k v
  end.

Definition parsed_map {A B} (f : A -> B) (p : parsed A) : parsed B :=
  match p with
  | Parsed a rest => Parsed (f a) rest
  | Malformed => Malformed
  | OutOfFuel => OutOfFuel
  end.

(** [scan_once], with [_parse_array] and [_parse_object] entered at the
    first term of a non-empty container. *)
Fixpoint scan_once (fuel : nat) (s : pystr) {struct fuel} : parsed json :=
  match fuel with
  | O => OutOfFuel
  | S f =>
      match s with
      | [] => Malformed
      | c :: r =>
          if c =? dquote then parsed_map JStr (scan_string r [])
          else if c =? ch "{" then
            match skip_ws r with
            | c' :: r' =>
                if c' =? ch "}" then Parsed (JObj []) r'
                else parse_object f [] (c' :: r')
            | [] => Malformed
            end
          else if c =? ch "[" then
            match skip_ws r with
            | c' :: r' =>
                if c' =? ch "]" then Parsed (JArr []) r'
                else parse_array f [] (c' :: r')
            | [] => Malformed
            end
          else
            match strip_prefix (u "null") s, strip_prefix (u "true") s,
                  strip_prefix (u "false") s, strip_prefix (u "NaN") s,
                  strip_prefix (u "Infinity") s, strip_prefix (u "-Infinity") s with
            | Some rest, _, _, _, _, _ => Parsed JNull rest
            | _, Some rest, _, _, _, _ => Parsed (JBool true) rest
            | _, _, Some rest, _, _, _ => Parsed (JBool false) rest
            | _, _, _, Some rest, _, _ => Parsed (JFloat (float_of_literal (u "NaN"))) rest
            | _, _, _, _, Some rest, _ => Parsed (JFloat (float_of_literal (u "Infinity"))) rest
            | _, _, _, _, _, Some rest => Parsed (JFloat (float_of_literal (u "-Infinity"))) rest
            | _, _, _, _, _, _ => match_number s
            end
      end
  end
with parse_array (fuel : nat) (acc : list json) (s : pystr) {struct fuel} : parsed json :=
  match fuel with
  | O => OutOfFuel
  | S f =>
      match scan_once f s with
      | Parsed v rest =>
          match skip_ws rest with
          | c :: r =>
              if c =? ch "]" then Parsed (JArr (rev (v :: acc))) r
              else if c =? ch "," then parse_array f (v :: acc) (skip_ws r)
              else Malformed
          | [] => Malformed
          end
      | Malformed => Malformed
      | OutOfFuel => OutOfFuel
      end
  end
with parse_object (fuel : nat) (acc : list (pystr * json)) (s : pystr) {struct fuel} : parsed json :=
  match fuel with
  | O => OutOfFuel
  | S f =>
      match s with
      | q :: r =>
          if q =? dquote then
            match scan_string r [] with
            | Parsed key rest =>
                match skip_ws rest with
                | colon :: r1 =>
                    if colon =? ch ":" then
                      match scan_once f (skip_ws r1) with
                      | Parsed v rest' =>
                          match skip_ws rest' with
                          | c :: r2 =>
                              if c =? ch "}" then Parsed (JObj (dict_set acc key v)) r2
                              else if c =? ch "," then parse_object f (dict_set acc key v) (skip_ws r2)
                              else Malformed
                          | [] => Malformed
                          end
                      | Malformed => Malformed
                      | OutOfFuel => OutOfFuel
                      end
                    else Malformed
                | [] => Malformed
                end
            | Malformed => Malformed
            | OutOfFuel => OutOfFuel
            end
          else Malformed
      | [] => Malformed
      end
  end.

(** [json.loads(s)]: one value, white space around it, nothing else.  Each
    term needs at most two units of fuel per character. *)
Definition json_loads (s : pystr) : result json :=
  match s with
  | 65279 :: _ => Raise JSONDecodeError        (* a byte order mark is refused *)
  | _ =>
      match scan_once (2 * length s + 1) (skip_ws s) with
      | Parsed v rest =>
          match skip_ws rest with
          | [] => Ok v
          | _ :: _ => Raise JSONDecodeError    (* extra data *)
          end
      | _ => Raise JSONDecodeError
      end
  end.

(** ** [split_species] *)

(** [[s.strip() for s in species_list if s.strip()]] *)
Definition stripped_atoms (pieces : list pystr) : list json :=
  map (fun s => JStr (strip s))
      (filter (fun s => truthy (JStr (strip s)) = true) pieces).

Definition split_species (species_text : json) : result (list json) :=
  if negb (truthy species_text) then Ok []
  else match species_text with
       | JStr s => Ok (stripped_atoms (re_split s))
       | _ => Raise TypeError     (* re.split wants a string *)
       end.


(** ** [json.dumps(finding, sort_keys=True, ensure_ascii=False)] *)

(** [encode_basestring]: quote, backslash and control characters are escaped,
    everything else is copied. *)
Definition escape_char (c : N) : pystr :=
  if c =? dquote then [backslash; dquote]
  else if c =? backslash then [backslash; backslash]
  else if c =? 10 then u "\n"
  else if c =? 13 then u "\r"
  else if c =? 9 then u "\t"
  else if c =? 8 then u "\b"
  else if c =? 12 then u "\f"
  else if c <? 32 then u "\u00" ++ [MD5.hex_digit (N.shiftr c 4); MD5.hex_digit (N.land c 15)]
  else [c].

Definition encode_basestring (s : pystr) : pystr :=
  [dquote] ++ flat_map escape_char s ++ [dquote].

(** [int.__repr__] *)
Definition int_repr (n : Z) : pystr := u (NilZero.string_of_int (Z.to_int n)).

Fixpoint join (sep : pystr) (parts : list pystr) : pystr :=
  match parts with
  | [] => []
  | [p] => p
  | p :: r => p ++ sep ++ join sep r
  end.

(** [sorted(dct.items())]: the keys of a dict are distinct, so the order of
    the items is the order of their keys. *)
Definition item_le (x y : pystr * pystr) : Prop := pystr_leb x.1 y.1.

#[global] Instance item_le_dec x y : Decision (item_le x y).
Proof. unfold item_le. apply _. Defined.

Definition sort_items (items : list (pystr * pystr)) : list (pystr * pystr) :=
  merge_sort item_le items.

Definition dump_item (item : pystr * pystr) : pystr :=
  encode_basestring item.1 ++ u ": " ++ item.2.

Fixpoint json_dumps (v : json) : pystr :=
  match v with
  | JNull => u "null"
  | JBool true => u "true"
  | JBool false => u "false"
  | JInt n => int_repr n
  | JFloat x => float_repr x
  | JStr s => encode_basestring s
  | JArr l => u "[" ++ join (u ", ") (map json_dumps l) ++ u "]"
  | JObj kvs =>
      u "{"
      ++ join (u ", ")
           (map dump_item
              (sort_items (map (fun kv => let '(k, x) := kv in (k, json_dumps x)) kvs)))
      ++ u "}"
  end.

(** ** [get_finding_hash] *)
Definition get_finding_hash (finding : json) : result pystr :=
  let key_str := json_dumps finding in
  match utf8_encode key_str with
  | Some bytes => Ok (MD5.hexdigest bytes)
  | None => Raise UnicodeEncodeError
  end.

End Values.

(** ** The two remote services

    What a request returns is up to the world outside the script; a world
    answers a request and moves on.  The text of the request is built from
    the two values passed, which identify it. *)

(** [client.chat.completions.create(...)] followed by
    [response.choices[0].message.content] *)
Inductive llm_reply :=
| LlmRaises                           (* the call raises, or the reply holds no choice *)
| LlmContent (content : option pystr). (* the message content; [None] when it is absent *)

Section Replies.
Context `{PyFloat}.

(** [requests.get(url, params, headers, timeout=10)] *)
Inductive http_reply :=
| GetRaises                                  (* connection error or timeout *)
| Response (ok : bool) (body : option json). (* status is 2xx or not; the body as JSON, if it is JSON *)

Class Services := {
  World : Type;
  chat_completions_create : World -> json -> json -> llm_reply * World;
  requests_get : World -> json -> json -> http_reply * World
}.

End Replies.

Section Pipeline.
Context `{PF : PyFloat} `{SV : !Services}.

(** ** Files and effects *)

(** A file of [log/processed_findings/]: its content parsed as JSON, or a
    file [json.load] fails on. *)
Inductive file :=
| FileJson (v : json)
| Unreadable.

(** What the script does to the outside, in the order it does it. *)
Inductive event :=
| EvDecompose (country area : json)
| EvGeocode (area country : json)
| EvSave (finding_hash : pystr) (checkpoint_data : json)
| EvAppend (entry : json).

Record state := State {
  world : World;
  checkpoint_dir : gmap pystr file;   (* [CHECKPOINT_DIR], by file stem *)
  output_file : list json;            (* the lines of the JSONL output *)
  log : list event
}.

(** A statement: it changes the state and returns or raises.  Writing to the
    two files and printing the progress lines are taken to succeed: a text
    that holds a lone surrogate cannot be encoded, and on it [json.dump],
    [f.write] and [print] raise [UnicodeEncodeError], which [save_checkpoint],
    [append_entry] and [combine] do not model.  The theorems that conclude
    that an expansion is saved and written out therefore ask that the
    fragments it is made of can be encoded. *)
Definition M (A : Type) : Type := state -> state * result A.

#[global] Instance M_ret : MRet M := fun A a st => (st, Ok a).

#[global] Instance M_bind : MBind M := fun A B k c st =>
  match c st with
  | (st', Ok a) => k a st'
  | (st', Raise e) => (st', Raise e)
  end.

Definition lift {A} (r : result A) : M A := fun st => (st, r).

Definition try_exceptM {A} (body : M A) (handler : exn -> M A) : M A := fun st =>
  match body st with
  | (st', Ok a) => (st', Ok a)
  | (st', Raise e) => handler e st'
  end.

Definition emit (e : event) (st : state) : state :=
  State (world st) (checkpoint_dir st) (output_file st) (log st ++ [e]).

(** ** [load_checkpoint] and [save_checkpoint] *)

(** [None] is returned when the file is missing or cannot be loaded; it is
    the same value as a file holding [null]. *)
Definition load_checkpoint (finding_hash : pystr) : M json := fun st =>
  match checkpoint_dir st !! finding_hash with
  | Some (FileJson v) => (st, Ok v)
  | Some Unreadable => (st, Ok JNull)
  | None => (st, Ok JNull)
  end.

Definition save_checkpoint (finding_hash : pystr) (original_finding : json)
    (processed_results : list json) : M unit := fun st =>
  let checkpoint_data :=
    JObj [(u "original", original_finding); (u "processed", JArr processed_results)] in
  (State (world st) (<[finding_hash := FileJson checkpoint_data]> (checkpoint_dir st))
         (output_file st) (log st ++ [EvSave finding_hash checkpoint_data]),
   Ok ()).

(** ** [get_coordinates] *)

Definition requests_get_json (area country : json) : M json := fun st =>
  let '(reply, w) := requests_get (world st) area country in
  let st' := State w (checkpoint_dir st) (output_file st) (log st ++ [EvGeocode area country]) in
  match reply with
  | GetRaises => (st', Raise RequestException)
  | Response false _ => (st', Raise HTTPError)          (* raise_for_status *)
  | Response true None => (st', Raise JSONDecodeError)  (* response.json() *)
  | Response true (Some results) => (st', Ok results)
  end.

(** [float(v)] *)
Definition py_float (v : json) : result pyfloat :=
  match v with
  | JFloat x => Ok x
  | JInt n => match float_of_int n with Some x => Ok x | None => Raise OverflowError end
  | JBool b => match float_of_int (if b then 1 else 0) with Some x => Ok x | None => Raise OverflowError end
  | JStr s => match float_of_str s with Some x => Ok x | None => Raise ValueError end
  | _ => Raise TypeError
  end.

Definition null_coordinates : json :=
  JObj [(u "latitude", JNull); (u "longitude", JNull)].

Definition get_coordinates (area country : json) : M json :=
  try_exceptM
    (results ← requests_get_json area country;
     if truthy results then
       first ← lift (getitem results (SubInt 0));
       lat ← lift (getitem first (SubStr (u "lat")));
       latitude ← lift (py_float lat);
       first' ← lift (getitem results (SubInt 0));
       lon ← lift (getitem first' (SubStr (u "lon")));
       longitude ← lift (py_float lon);
       mret (JObj [(u "latitude", JFloat latitude); (u "longitude", JFloat longitude)])
     else mret null_coordinates)
    (fun _ => mret null_coordinates).

(** ** [extract_areas_with_llm] *)

Definition chat_content (country area : json) : M pystr := fun st =>
  let '(reply, w) := chat_completions_create (world st) country area in
  let st' := State w (checkpoint_dir st) (output_file st) (log st ++ [EvDecompose country area]) in
  match reply with
  | LlmRaises => (st', Raise APIError)
  | LlmContent None => (st', Raise AttributeError)     (* None has no strip *)
  | LlmContent (Some content) => (st', Ok (strip content))
  end.

Definition original_area (country area : json) : json :=
  JArr [JObj [(u "country", country); (u "area", area)]].

Definition extract_areas_with_llm (country area : json) : M json :=
  try_exceptM
    (content ← chat_content country area;
     match re_search_array content with
     | Some json_match =>
         areas_data ← lift (json_loads json_match);
         _ ← lift (py_len areas_data);      (* printed in the progress line *)
         mret areas_data
     | None => mret (original_area country area)
     end)
    (fun _ => mret (original_area country area)).

(** ** The loop over the findings *)

Definition append_entry (entry : json) : M unit := fun st =>
  (State (world st) (checkpoint_dir st) (output_file st ++ [entry]) (log st ++ [EvAppend entry]),
   Ok ()).

(** [for x in items: acc = body acc x] *)
Fixpoint for_each {A B} (items : list A) (body : B -> A -> M B) (acc : B) : M B :=
  match items with
  | [] => mret acc
  | x :: rest => acc' ← body acc x; for_each rest body acc'
  end.

Definition processed_finding (document_id parasite_species host area_country area_name
    coords_latitude coords_longitude confidence_score : json) : json :=
  JObj [(u "document_id", document_id);
        (u "parasite_species", parasite_species);
        (u "host_species", host);
        (u "country", area_country);
        (u "area", area_name);
        (u "latitude", coords_latitude);
        (u "longitude", coords_longitude);
        (u "confidence_score", confidence_score)].

(** Body of the inner loop, lines 203 to 220; the progress line of line 221
    is taken to be printed. *)
Definition combine (document_id parasite_species confidence_score host : json)
    (new_processed : list json) (area_data : json) : M (list json) :=
  area_country ← lift (getitem area_data (SubStr (u "country")));
  area_name ← lift (getitem area_data (SubStr (u "area")));
  coords ← get_coordinates area_name area_country;
  latitude ← lift (getitem coords (SubStr (u "latitude")));
  longitude ← lift (getitem coords (SubStr (u "longitude")));
  mret (new_processed ++
        [processed_finding document_id parasite_species host area_country area_name
           latitude longitude confidence_score]).

(** Lines 192 to 194: the hosts the outer loop runs over. *)
Definition atomic_hosts (host_species : json) : result (list json) :=
  host_species_list ← split_species host_species;
  match host_species_list with
  | [] => Ok [host_species]
  | _ :: _ => Ok host_species_list
  end.

(** The cache-miss branch up to the checkpoint, lines 184 to 220. *)
Definition expand_records (finding : json) : M (list json) :=
  document_id ← lift (getitem finding (SubStr (u "document_id")));
  parasite_species ← lift (getitem finding (SubStr (u "parasite_species")));
  host_species ← lift (getitem finding (SubStr (u "host_species")));
  country ← lift (getitem finding (SubStr (u "country")));
  area ← lift (getitem finding (SubStr (u "area")));
  confidence_score ← lift (getitem finding (SubStr (u "confidence_score")));
  host_species_list ← lift (atomic_hosts host_species);
  areas_data ← extract_areas_with_llm country area;
  for_each host_species_list
    (fun new_processed host =>
       areas ← lift (iterate areas_data);
       for_each areas (combine document_id parasite_species confidence_score host)
         new_processed)
    [].

(** The cache-miss branch, lines 184 to 224. *)
Definition expand (finding_hash : pystr) (finding : json) : M json :=
  new_processed ← expand_records finding;
  _ ← save_checkpoint finding_hash finding new_processed;
  mret (JArr new_processed).

(** One turn of the loop, lines 169 to 229. *)
Definition process_finding (finding : json) : M unit :=
  finding_hash ← lift (get_finding_hash finding);
  cached_results ← load_checkpoint finding_hash;
  new_processed ←
    (if truthy cached_results
     then lift (getitem cached_results (SubStr (u "processed")))
     else expand finding_hash finding);
  entries ← lift (iterate new_processed);
  for_each entries (fun _ entry => append_entry entry) ().

(** The whole loop: an exception leaves it, and the findings after the one
    that raised are not visited. *)
Definition run (findings : list json) : M unit :=
  for_each findings (fun _ finding => process_finding finding) ().

(** ** What the script makes of a reply

    The functions below read off, from the reply a service gave, the value
    the corresponding function of the script returns; the lemmas
    [get_coordinates_eq] and [extract_areas_with_llm_eq] prove that they do. *)

(** The [try] body of [get_coordinates] after the request. *)
Definition read_coordinates (results : json) : result json :=
  if truthy results then
    first ← getitem results (SubInt 0);
    lat ← getitem first (SubStr (u "lat"));
    latitude ← py_float lat;
    first' ← getitem results (SubInt 0);
    lon ← getitem first' (SubStr (u "lon"));
    longitude ← py_float lon;
    Ok (JObj [(u "latitude", JFloat latitude); (u "longitude", JFloat longitude)])
  else Ok null_coordinates.

Definition coordinates_of (reply : http_reply) : json :=
  match reply with
  | Response true (Some results) =>
      match read_coordinates results with
      | Ok coords => coords
      | Raise _ => null_coordinates
      end
  | _ => null_coordinates
  end.

(** The replies under which [get_coordinates] finds no coordinates: the
    request raises (network error, timeout), the status is not 2xx, the body
    is not JSON, the result set is empty, or the first candidate cannot be
    read. *)
Definition geocoding_failed (reply : http_reply) : Prop :=
  match reply with
  | GetRaises => True
  | Response false _ => True
  | Response true None => True
  | Response true (Some results) =>
      truthy results = false \/ exists e, read_coordinates results = Raise e
  end.

Definition areas_of (country area : json) (reply : llm_reply) : json :=
  match reply with
  | LlmContent (Some content) =>
      match re_search_array (strip content) with
      | Some json_match =>
          match json_loads json_match with
          | Ok areas_data =>
              match py_len areas_data with
              | Ok _ => areas_data
              | Raise _ => original_area country area
              end
          | Raise _ => original_area country area
          end
      | None => original_area country area
      end
  | _ => original_area country area
  end.

(** The replies the world gives to a sequence of geocoding requests. *)
Fixpoint geocode_all (w : World) (queries : list (json * json)) : list http_reply * World :=
  match queries with
  | [] => ([], w)
  | (area, country) :: rest =>
      let '(reply, w1) := requests_get w area country in
      let '(replies, w2) := geocode_all w1 rest in
      (reply :: replies, w2)
  end.

(** What [load_checkpoint] returns for a directory. *)
Definition cached (dir : gmap pystr file) (finding_hash : pystr) : json :=
  match dir !! finding_hash with
  | Some (FileJson v) => v
  | _ => JNull
  end.

Definition checkpoint_of (original_finding : json) (processed_results : list json) : file :=
  FileJson (JObj [(u "original", original_finding); (u "processed", JArr processed_results)]).

(** Field of an object, [null] when it cannot be read. *)
Definition field (k : string) (v : json) : json :=
  match getitem v (SubStr (u k)) with
  | Ok x => x
  | Raise _ => JNull
  end.

(** An area fragment: both subscripts of the inner loop succeed on it. *)
Definition is_fragment (area_data : json) : bool :=
  match getitem area_data (SubStr (u "country")), getitem area_data (SubStr (u "area")) with
  | Ok _, Ok _ => true
  | _, _ => false
  end.

Definition query_of (area_data : json) : json * json :=
  (field "area" area_data, field "country" area_data).

(** The record assembled for one host, one fragment and the coordinates
    found for it. *)
Definition assemble (document_id parasite_species confidence_score : json)
    (pair : json * json) (coords : json) : json :=
  processed_finding document_id parasite_species pair.1
    (field "country" pair.2) (field "area" pair.2)
    (field "latitude" coords) (field "longitude" coords) confidence_score.

Definition enriched (finding : json) (pair : json * json) (reply : http_reply) : json :=
  assemble (field "document_id" finding) (field "parasite_species" finding)
    (field "confidence_score" finding) pair (coordinates_of reply).

Definition geocode_event (q : json * json) : event := EvGeocode q.1 q.2.

Definition pair_queries (pairs : list (json * json)) : list (json * json) :=
  map (fun pair => query_of pair.2) pairs.

Definition has_field (k : pystr) (v : json) : bool :=
  match getitem v (SubStr k) with
  | Ok _ => true
  | Raise _ => false
  end.

Definition required_fields : list pystr :=
  [u "document_id"; u "parasite_species"; u "host_species"; u "country"; u "area";
   u "confidence_score"].

Definition has_required_fields (finding : json) : bool :=
  forallb (fun k => has_field k finding) required_fields.

(** A cache miss: [if cached_results:] takes the [else] branch. *)
Definition cache_miss (st : state) (finding_hash : pystr) : Prop :=
  truthy (cached (checkpoint_dir st) finding_hash) = false.

(** The replies to the geocoding requests of one expansion, which come after
    its decomposition request. *)
Definition expansion_replies (st : state) (finding : json) (pairs : list (json * json))
    : list http_reply * World :=
  geocode_all
    (chat_completions_create (world st) (field "country" finding) (field "area" finding)).2
    (pair_queries pairs).

Definition is_call (e : event) : bool :=
  match e with
  | EvDecompose _ _ | EvGeocode _ _ => true
  | EvSave _ _ | EvAppend _ => false
  end.

Definition is_decomposition (e : event) : bool :=
  match e with EvDecompose _ _ => true | _ => false end.

Definition is_geocode (e : event) : bool :=
  match e with EvGeocode _ _ => true | _ => false end.

Definition is_save (e : event) : bool :=
  match e with EvSave _ _ => true | _ => false end.

(** Number of decomposition requests, and of checkpoints saved, in a trace. *)
Definition decompositions (evs : list event) : nat :=
  length (List.filter is_decomposition evs).

Definition saves (evs : list event) : nat :=
  length (List.filter is_save evs).

(** The entries a trace appends to the output file. *)
Definition appended (evs : list event) : list json :=
  flat_map (fun e => match e with EvAppend entry => [entry] | _ => [] end) evs.



(** Services whose reply depends on the request alone. *)
Definition stateless : Prop :=
  forall (w w' : World) (x y : json),
    (chat_completions_create w x y).1 = (chat_completions_create w' x y).1 /\
    (requests_get w x y).1 = (requests_get w' x y).1.

(** The state of the two files after the events [evs]. *)
Definition replay_event (disk : gmap pystr file * list json) (e : event)
    : gmap pystr file * list json :=
  match e with
  | EvSave finding_hash checkpoint_data =>
      (<[finding_hash := FileJson checkpoint_data]> disk.1, disk.2)
  | EvAppend entry => (disk.1, disk.2 ++ [entry])
  | _ => disk
  end.

Definition replay (evs : list event) (disk : gmap pystr file * list json)
    : gmap pystr file * list json :=
  fold_left replay_event evs disk.

Definition disk (st : state) : gmap pystr file * list json :=
  (checkpoint_dir st, output_file st).

(** ** Vocabulary of the proofs *)

(** [st'] differs from [st] by requests to the services only. *)
Definition calls_only (st st' : state) : Prop :=
  checkpoint_dir st' = checkpoint_dir st /\ output_file st' = output_file st /\
  exists calls, log st' = log st ++ calls /\ forallb is_call calls = true.

Definition quiet {A} (c : M A) : Prop := forall st, calls_only st (c st).1.









(** ** Vocabulary of the further properties *)

Definition geocodings (evs : list event) : nat :=
  length (List.filter is_geocode evs).

(** Every object of the value, at any depth, has pairwise distinct keys: the
    invariant of a Python [dict]. *)
Fixpoint distinct_keys (v : json) : bool :=
  match v with
  | JArr l => forallb distinct_keys l
  | JObj kvs =>
      bool_decide (NoDup (map fst kvs))
      && forallb (fun kv => let '(_, x) := kv in distinct_keys x) kvs
  | _ => true
  end.

(** [w] is [v] with the fields of some of its objects, at any depth, put in
    another order. *)
Inductive reordered : json -> json -> Prop :=
| reordered_same (v : json) : reordered v v
| reordered_array (l l' : list json) :
    reordered_items l l' -> reordered (JArr l) (JArr l')
| reordered_object (kvs mid kvs' : list (pystr * json)) :
    reordered_fields kvs mid -> mid ≡ₚ kvs' -> reordered (JObj kvs) (JObj kvs')
with reordered_items : list json -> list json -> Prop :=
| reordered_items_nil : reordered_items [] []
| reordered_items_cons (v w : json) (l l' : list json) :
    reordered v w -> reordered_items l l' -> reordered_items (v :: l) (w :: l')
with reordered_fields : list (pystr * json) -> list (pystr * json) -> Prop :=
| reordered_fields_nil : reordered_fields [] []
| reordered_fields_cons (k : pystr) (v w : json) (l l' : list (pystr * json)) :
    reordered v w -> reordered_fields l l' -> reordered_fields ((k, v) :: l) ((k, w) :: l').

Scheme reordered_min := Minimality for reordered Sort Prop
  with reordered_items_min := Minimality for reordered_items Sort Prop
  with reordered_fields_min := Minimality for reordered_fields Sort Prop.

Combined Scheme reordered_mutual
  from reordered_min, reordered_items_min, reordered_fields_min.

(** A character [str.encode()] accepts. *)
Definition encodable_char (c : N) : bool :=
  match utf8_char c with Some _ => true | None => false end.

(** Every string of the value, key or not, and the text of every float can
    be encoded. *)
Fixpoint encodable (v : json) : bool :=
  match v with
  | JFloat x => forallb encodable_char (float_repr x)
  | JStr s => forallb encodable_char s
  | JArr l => forallb encodable l
  | JObj kvs =>
      forallb (fun kv => let '(k, x) := kv in forallb encodable_char k && encodable x) kvs
  | _ => true
  end.

(** ** The text of the output file

    [json.dumps(entry, ensure_ascii=False)], line 229: as [json_dumps], but
    the items of a dict are written in insertion order. *)
Fixpoint json_dumps_plain (v : json) : pystr :=
  match v with
  | JNull => u "null"
  | JBool true => u "true"
  | JBool false => u "false"
  | JInt n => int_repr n
  | JFloat x => float_repr x
  | JStr s => encode_basestring s
  | JArr l => u "[" ++ join (u ", ") (map json_dumps_plain l) ++ u "]"
  | JObj kvs =>
      u "{"
      ++ join (u ", ")
           (map dump_item (map (fun kv => let '(k, x) := kv in (k, json_dumps_plain x)) kvs))
      ++ u "}"
  end.

(** What [f.write(json.dumps(entry, ensure_ascii=False) + "\n")] writes for
    the entries of the output file, one after the other. *)
Definition output_text (entries : list json) : pystr :=
  flat_map (fun entry => json_dumps_plain entry ++ [10]) entries.

(** ** The text of a checkpoint file

    [json.dump(checkpoint_data, f, indent=2, ensure_ascii=False)]: every item
    of a list or dict that is not empty starts a line of its own, indented by
    two spaces for each level of nesting; the items are separated by a comma
    and the closing bracket comes on a line of its own. *)

(** The line break and the indentation that precede an item at [level]. *)
Definition newline_indent (level : nat) : pystr := 10 :: repeat 32 (2 * level).

Fixpoint json_dumps_indent (level : nat) (v : json) : pystr :=
  match v with
  | JNull => u "null"
  | JBool true => u "true"
  | JBool false => u "false"
  | JInt n => int_repr n
  | JFloat x => float_repr x
  | JStr s => encode_basestring s
  | JArr [] => u "[]"
  | JArr l =>
      u "[" ++ newline_indent (S level)
      ++ join (u "," ++ newline_indent (S level)) (map (json_dumps_indent (S level)) l)
      ++ newline_indent level ++ u "]"
  | JObj [] => u "{}"
  | JObj kvs =>
      u "{" ++ newline_indent (S level)
      ++ join (u "," ++ newline_indent (S level))
           (map dump_item
              (map (fun kv => let '(k, x) := kv in (k, json_dumps_indent (S level) x)) kvs))
      ++ newline_indent level ++ u "}"
  end.

(** ** Reading a file of findings

    [for line in f], for a file opened in text mode: a line ends at a line
    feed, a carriage return or the two in a row, each handed over as a line
    feed; the last line may lack its end. *)
Fixpoint lines (s : pystr) : list pystr :=
  match s with
  | [] => []
  | c :: r =>
      if c =? 10 then [10] :: lines r
      else if c =? 13 then
        [10] :: match r with
                | d :: r' => if d =? 10 then lines r' else lines r
                | [] => []
                end
      else match lines r with
           | l :: ls => (c :: l) :: ls
           | [] => [[c]]
           end
  end.

Fixpoint loads_all (ls : list pystr) : result (list json) :=
  match ls with
  | [] => Ok []
  | l :: r => v ← json_loads l; vs ← loads_all r; Ok (v :: vs)
  end.

(** Lines 156 to 159: [findings.append(json.loads(line))] for every line. *)
Definition read_findings (text : pystr) : result (list json) :=
  loads_all (lines text).

(** ** The writer of the findings file

    [d.get(key, default)]: only a dict has the method. *)
Definition dict_get_default (d : json) (key : pystr) (default : json) : result json :=
  match d with
  | JObj kvs => Ok (match dict_get kvs key with Some x => x | None => default end)
  | _ => Raise AttributeError
  end.

(** [build_database.py], lines 57 to 64: the record written to
    [database/findings.jsonl] for one finding of a document. *)
Definition finding_record (doc_id : Z) (finding : json) : result json :=
  parasite_species ← dict_get_default finding (u "parasite_species") (JStr []);
  host_species ← dict_get_default finding (u "host_species") (JStr []);
  country ← dict_get_default finding (u "country") (JStr []);
  area ← dict_get_default finding (u "area") (JStr []);
  confidence_score ← dict_get_default finding (u "confidence_score") (JStr []);
  Ok (JObj [(u "document_id", JInt doc_id);
            (u "parasite_species", parasite_species);
            (u "host_species", host_species);
            (u "country", country);
            (u "area", area);
            (u "confidence_score", confidence_score)]).

(** The floats of a value. *)
Fixpoint floats_of (v : json) : list pyfloat :=
  match v with
  | JFloat x => [x]
  | JArr l => flat_map floats_of l
  | JObj kvs => flat_map (fun kv => floats_of kv.2) kvs
  | _ => []
  end.

(** [json.loads] reads the text that [json.dumps] prints for [x] as [x]. *)
Definition float_reloads (x : pyfloat) : Prop :=
  scan_once 1 (float_repr x) = Parsed _ (JFloat x) [].

(** A character of a digest. *)
Definition is_hex (c : N) : Prop := (48 <= c <= 57) \/ (97 <= c <= 102).

(** ** The stages of [match_number] *)

Definition number_sign (s : pystr) : pystr * pystr :=
  match s with
  | c :: r => if c =? ch "-" then ([c], r) else ([], s)
  | [] => ([], s)
  end.

Definition number_int (d : N) (r : pystr) : pystr * pystr :=
  if d =? 48 then ([d], r)
  else let '(ds, rest) := span_digits r in (d :: ds, rest).

Definition number_frac (s2 : pystr) : pystr * pystr :=
  match s2 with
  | dot :: f :: r' =>
      if (dot =? ch ".") && is_digit f
      then let '(ds, rest) := span_digits r' in (dot :: f :: ds, rest)
      else ([], s2)
  | _ => ([], s2)
  end.

Definition number_expo (s3 : pystr) : pystr * pystr :=
  match s3 with
  | e :: r' =>
      if (e =? ch "e") || (e =? ch "E") then
        let '(esign, r'') :=
          match r' with
          | sg :: t => if (sg =? ch "-") || (sg =? ch "+") then ([sg], t) else ([], r')
          | [] => ([], r')
          end in
        match span_digits r'' with
        | ([], _) => ([], s3)
        | (ds, rest) => (e :: esign ++ ds, rest)
        end
      else ([], s3)
  | [] => ([], s3)
  end.

Definition number_value (sign int_digits frac expo : pystr) : json :=
  match frac, expo with
  | [], [] =>
      let n := digits_value int_digits in
      JInt (match sign with [] => n | _ => - n end)%Z
  | _, _ => JFloat (float_of_literal (sign ++ int_digits ++ frac ++ expo))
  end.

Definition number_result (sign int_digits frac expo rest : pystr) : parsed json :=
  match frac, expo with
  | [], [] =>
      let n := digits_value int_digits in
      Parsed _ (JInt (match sign with [] => n | _ => - n end)%Z) rest
  | _, _ => Parsed _ (JFloat (float_of_literal (sign ++ int_digits ++ frac ++ expo))) rest
  end.

(** A character of a number. *)
Definition number_char (c : N) : bool :=
  is_digit c || (c =? ch "-") || (c =? ch "+") || (c =? ch ".")
  || (c =? ch "e") || (c =? ch "E").

(** A text that begins with a digit, or with a minus sign and a digit. *)
Definition number_start (s : pystr) : bool :=
  match s with
  | c :: r =>
      is_digit c
      || ((c =? ch "-") && match r with d :: _ => is_digit d | [] => false end)
  | [] => false
  end.

(** What follows a term in a text written by [json.dumps]: nothing, a comma,
    a closing bracket or white space. *)
Definition delimited (rest : pystr) : bool :=
  match rest with
  | [] => true
  | c :: _ => (c =? ch ",") || (c =? ch "]") || (c =? ch "}") || is_json_space c
  end.

(** The first character of a term, as [json.dumps] writes it: no white
    space, no closing bracket, no byte order mark. *)
Definition term_start (s : pystr) : bool :=
  match s with
  | c :: _ =>
      negb (is_json_space c) && negb (c =? ch "]") && negb (c =? ch "}")
      && negb (c =? 65279)
  | [] => false
  end.

(** The digits of a decimal number, as text. *)
Definition uint_chars (d : Decimal.uint) : pystr := u (NilEmpty.string_of_uint d).

Definition digit_step (acc : Z) (d : N) : Z := (acc * 10 + Z.of_N (d - 48))%Z.

(** [dir'] keeps every file of [dir], and every usable checkpoint of [dir]
    with its content. *)
Definition preserves_checkpoints (dir dir' : gmap pystr file) : Prop :=
  forall h,
    (is_Some (dir !! h) -> is_Some (dir' !! h)) /\
    (truthy (cached dir h) = true -> dir' !! h = dir !! h).

End Pipeline.

(** ** Concrete instances, to run the script on examples *)
Module Demo.

(** Floats stood for by their decimal text. *)
Definition plain_decimal (s : pystr) : bool :=
  let body := match s with
              | c :: r => if (c =? ch "-") || (c =? ch "+") then r else s
              | [] => s
              end in
  let '(int_digits, rest) := span_digits body in
  match int_digits, rest with
  | _ :: _, [] => true
  | _ :: _, dot :: frac =>
      (dot =? ch ".") && bool_decide ((span_digits frac).2 = [])
  | [], _ => false
  end.

#[export] Instance text_float : PyFloat := {|
  pyfloat := pystr;
  float_of_literal := id;
  float_of_str := fun s => if plain_decimal (strip s) then Some (strip s) else None;
  float_of_int := fun n => Some (int_repr n ++ u ".0");
  float_repr := id;
  float_truthy := fun s => negb (forallb (fun c => negb (is_digit c) || (c =? 48)) s)
|}.

(** A world that answers from two scripts, one per service, and fails once a
    script is used up. *)
Definition scripted : Services := {|
  World := list llm_reply * list http_reply;
  chat_completions_create := fun w _ _ =>
    match w.1 with
    | r :: rs => (r, (rs, w.2))
    | [] => (LlmRaises, w)
    end;
  requests_get := fun w _ _ =>
    match w.2 with
    | r :: rs => (r, (w.1, rs))
    | [] => (GetRaises, w)
    end
|}.

(** A world whose answers depend on the request alone. *)
Definition oracle (chat : json -> json -> llm_reply) (get : json -> json -> http_reply)
    : Services := {|
  World := unit;
  chat_completions_create := fun w country area => (chat country area, w);
  requests_get := fun w area country => (get area country, w)
|}.

Definition str (s : string) : json := JStr (u s).

(** [[{"lat": lat, "lon": lon}]], the one candidate of a successful search *)
Definition found (lat lon : string) : http_reply :=
  Response true (Some (JArr [JObj [(u "lat", str lat); (u "lon", str lon)]])).

Definition quoted (s : pystr) : pystr := [dquote] ++ s ++ [dquote].

(** [{"country": country, "area": area}] as text *)
Definition fragment_text (country area : pystr) : pystr :=
  u "{" ++ quoted (u "country") ++ u ": " ++ quoted country
  ++ u ", " ++ quoted (u "area") ++ u ": " ++ quoted area ++ u "}".

Definition two_fragments (c1 a1 c2 a2 : pystr) : pystr :=
  u "[" ++ fragment_text c1 a1 ++ u ", " ++ fragment_text c2 a2 ++ u "]".

Definition raw_finding (document_id : Z) (parasite host country : string) (area : pystr)
    (confidence : string) : json :=
  JObj [(u "document_id", JInt document_id);
        (u "parasite_species", str parasite);
        (u "host_species", str host);
        (u "country", str country);
        (u "area", JStr area);
        (u "confidence_score", str confidence)].

Definition start (SV : Services) (w : World) : state := State w ∅ [] [].

(** The scenario of the specification: finding 7, two areas joined by "and". *)
Definition oleron : pystr := u "Marennes-Ol" ++ [233] ++ u "ron".

Definition bonamia_fields : list (pystr * json) :=
  [(u "document_id", JInt 7);
   (u "parasite_species", str "Bonamia ostreae");
   (u "host_species", str "Crassostrea gigas");
   (u "country", str "France");
   (u "area", JStr (u "Arcachon Bay and " ++ oleron));
   (u "confidence_score", str "High")].

Definition bonamia : json := JObj bonamia_fields.

Definition bonamia_digest : pystr := u "b34dce2c8959bcbdf1f4164f319a9950".

Definition bonamia_reply : llm_reply :=
  LlmContent (Some (u "Here is the array: "
                    ++ two_fragments (u "France") (u "Arcachon Bay") (u "France") oleron)).

Definition bonamia_state : state :=
  start scripted ([bonamia_reply], [found "44.66" "-1.17"; found "45.9" "-1.2"]).

(** A finding with two hosts and two areas; the second and the fourth
    geocoding request fail. *)
Definition perkinsus : json :=
  raw_finding 3 "Perkinsus marinus" "A, B" "USA" (u "Chesapeake Bay; Delaware Bay") "Medium".

Definition perkinsus_digest : pystr := u "66a612fddc78db3fca46cb7b599d7f59".

Definition perkinsus_fragments : list json :=
  [JObj [(u "country", str "USA"); (u "area", str "Chesapeake Bay")];
   JObj [(u "country", str "USA"); (u "area", str "Delaware Bay")]].

Definition perkinsus_state : state :=
  start scripted
    ([LlmContent (Some (two_fragments (u "USA") (u "Chesapeake Bay") (u "USA") (u "Delaware Bay")))],
     [found "37.5" "-76.1"; GetRaises; found "37.5" "-76.1"; Response false None]).

(** A finding without its [area] field. *)
Definition no_area : list (pystr * json) :=
  [(u "document_id", JInt 9);
   (u "parasite_species", str "Haplosporidium nelsoni");
   (u "host_species", str "Crassostrea virginica");
   (u "country", str "USA");
   (u "confidence_score", str "Low")].

Definition no_area_digest : pystr := u "5cb342db75ec2d0019341cfebebf3709".

(** The service answers with an empty array. *)
Definition empty_array_state : state :=
  start scripted ([LlmContent (Some (u "[]"))], []).

(** The service answers [[{"area": "Arcachon Bay"}]]: no country. *)
Definition keyless_text : pystr :=
  u "[{" ++ quoted (u "area") ++ u ": " ++ quoted (u "Arcachon Bay") ++ u "}]".

Definition keyless_state : state :=
  start scripted ([LlmContent (Some keyless_text)], []).

(** Stateless services: the composite area of the scenario is decomposed,
    every other decomposition fails, every search finds the same place. *)
Definition chat_by_area (country area : json) : llm_reply :=
  match area with
  | JStr s => if bool_decide (s = u "Arcachon Bay and " ++ oleron) then bonamia_reply else LlmRaises
  | _ => LlmRaises
  end.

Definition same_place : Services := oracle chat_by_area (fun _ _ => found "44.66" "-1.17").

Definition restart_findings : list json := [bonamia; perkinsus].

Definition restart_start : state := start same_place ().

(** The uninterrupted run, and a run terminated after the six events of the
    first finding: one checkpoint saved, two entries written. *)
Definition restart_full : state := (run (SV := same_place) restart_findings restart_start).1.

Definition restart_crash : state :=
  let d := replay (take 6 (log restart_full)) (disk restart_start) in
  State (SV := same_place) () d.1 d.2 [].

Definition restart_fresh : state := (run (SV := same_place) restart_findings restart_crash).1.

(** Checkpoint files that are no checkpoint of the finding: one that cannot
    be loaded, one saved for another finding, one without its entries. *)
Definition unreadable_state : state :=
  State (SV := scripted) ([bonamia_reply], [found "44.66" "-1.17"; found "45.9" "-1.2"])
    (<[bonamia_digest := Unreadable]> ∅) [] [].


Definition headless_state : state :=
  State (SV := scripted) ([], [])
    (<[bonamia_digest := FileJson (JObj [(u "original", bonamia)])]> ∅) [] [].

(** A finding whose host is a number. *)
Definition numbered_host : json :=
  JObj [(u "document_id", JInt 4);
        (u "parasite_species", str "Marteilia refringens");
        (u "host_species", JInt 5);
        (u "country", str "Spain");
        (u "area", str "Ria de Vigo");
        (u "confidence_score", str "High")].

Definition numbered_host_digest : pystr := u "277d0ca239bdad6fb0809d9ebf623ef3".

(** Two spellings of one finding: the fields of the object and of the object
    inside it come in another order. *)
Definition nested_finding : json :=
  JObj [(u "place", JObj [(u "country", str "France"); (u "area", str "Arcachon Bay")]);
        (u "document_id", JInt 7)].

Definition nested_finding_reordered : json :=
  JObj [(u "document_id", JInt 7);
        (u "place", JObj [(u "area", str "Arcachon Bay"); (u "country", str "France")])].

(** [{"area": "Arcachon Bay", "area": "Thau"}] *)
Definition repeated_key_text : pystr :=
  u "{" ++ quoted (u "area") ++ u ": " ++ quoted (u "Arcachon Bay") ++ u ", "
  ++ quoted (u "area") ++ u ": " ++ quoted (u "Thau") ++ u "}".

(** The two rows of the scenario. *)
Definition scenario_rows : list json :=
  [processed_finding (JInt 7) (str "Bonamia ostreae") (str "Crassostrea gigas")
     (str "France") (str "Arcachon Bay") (JFloat (u "44.66")) (JFloat (u "-1.17")) (str "High");
   processed_finding (JInt 7) (str "Bonamia ostreae") (str "Crassostrea gigas")
     (str "France") (JStr oleron) (JFloat (u "45.9")) (JFloat (u "-1.2")) (str "High")].

End Demo.

(** * Properties of the script *)

Section Properties.
Context `{PF : PyFloat} `{SV : !Services}.

Lemma pystr_leb_total (a b : pystr) : pystr_leb a b = true \/ pystr_leb b a = true.
Proof.
  revert b. induction a as [|x a IH]; intros [|y b]; simpl; auto.
  destruct (N.ltb_spec x y), (N.ltb_spec y x); auto; try lia.
Qed.

Lemma pystr_leb_trans (a b c : pystr) :
  pystr_leb a b = true -> pystr_leb b c = true -> pystr_leb a c = true.
Proof.
  revert b c. induction a as [|x a IH]; intros [|y b] [|z c]; simpl; auto; try discriminate.
  destruct (N.ltb_spec x y), (N.ltb_spec y x), (N.ltb_spec y z), (N.ltb_spec z y),
    (N.ltb_spec x z), (N.ltb_spec z x); try discriminate; try lia; eauto.
Qed.

Lemma pystr_leb_antisym (a b : pystr) :
  pystr_leb a b = true -> pystr_leb b a = true -> a = b.
Proof.
  revert b. induction a as [|x a IH]; intros [|y b]; simpl; auto; try discriminate.
  destruct (N.ltb_spec x y), (N.ltb_spec y x); try discriminate; try lia.
  intros. f_equal; [lia | auto].
Qed.

#[local] Instance item_le_total : Total item_le.
Proof.
  intros x y. unfold item_le.
  destruct (pystr_leb_total x.1 y.1) as [E|E]; rewrite E; simpl; auto.
Qed.

#[local] Instance item_le_trans : Transitive item_le.
Proof.
  intros x y z. unfold item_le. intros Hxy Hyz.
  apply Is_true_true in Hxy, Hyz. apply Is_true_true. eauto using pystr_leb_trans.
Qed.

Lemma sort_items_permutation (l1 l2 : list (pystr * pystr)) :
  NoDup (map fst l1) -> l1 ≡ₚ l2 -> sort_items l1 = sort_items l2.
Proof.
  intros Hnd Hp. unfold sort_items.
  apply (Sorted_unique_strong item_le).
  - intros x1 x2 Hx1 Hx2 H12 H21.
    rewrite merge_sort_Permutation in Hx1. rewrite merge_sort_Permutation, <- Hp in Hx2.
    assert (x1.1 = x2.1) as Hk.
    { apply pystr_leb_antisym; apply Is_true_true; assumption. }
    clear H12 H21 Hp. induction l1 as [|y l IH]; [inversion Hx1|].
    simpl in Hnd. apply NoDup_cons in Hnd as [Hy Hnd].
    apply elem_of_cons in Hx1 as [->|Hx1], Hx2 as [->|Hx2]; auto;
      exfalso; apply Hy; [rewrite Hk | rewrite <- Hk];
      apply list_elem_of_In, in_map, list_elem_of_In; assumption.
  - apply Sorted_merge_sort, _.
  - apply Sorted_merge_sort, _.
  - rewrite !merge_sort_Permutation. exact Hp.
Qed.

(** C2.  Two findings with the same fields in a different insertion order get
    the same digest (or both fail to encode): the digest is computed from the
    key-sorted serialisation, a function of the field values alone, with no
    state read. *)
Theorem get_finding_hash_order_independent (fields1 fields2 : list (pystr * json)) :
  NoDup (map fst fields1) -> fields1 ≡ₚ fields2 ->
  get_finding_hash (JObj fields1) = get_finding_hash (JObj fields2).
Proof.
  intros Hnd Hp. unfold get_finding_hash. 
  assert (json_dumps (JObj fields1) = json_dumps (JObj fields2)) as ->; [|reflexivity].
  simpl. do 4 f_equal.
  apply sort_items_permutation.
  - rewrite map_map. erewrite map_ext; [exact Hnd|]. intros [k v]. reflexivity.
  - apply Permutation_map, Hp.
Qed.

(** C5.  For a finding whose [host_species] is a string, the hosts the
    expansion loops over are never empty: when the string is empty or its
    pieces all strip to nothing, the original string is the one host;
    otherwise the hosts are the stripped non-empty pieces. *)
Theorem atomic_hosts_nonempty (s : pystr) :
  exists hosts, atomic_hosts (JStr s) = Ok hosts /\ hosts <> [] /\
    (s = [] \/ stripped_atoms (re_split s) = [] -> hosts = [JStr s]) /\
    (stripped_atoms (re_split s) <> [] -> hosts = stripped_atoms (re_split s)).
Proof.
  unfold atomic_hosts, split_species. destruct s as [|c s].
  - eexists; split; [reflexivity|]. repeat split; auto; try discriminate.
    intros Hne. exfalso. apply Hne. reflexivity.
  - change (truthy (JStr (c :: s))) with true. cbn [negb]. unfold mbind, result_bind.
    destruct (stripped_atoms (re_split (c :: s))) as [|a l] eqn:E;
      eexists; (split; [reflexivity|]); repeat split; auto; try discriminate.
    + intros Hne; exfalso; auto.
    + intros [?|?]; discriminate.
Qed.


(** *** The statements of the script, one by one *)

Lemma state_eta (st : state) :
  State (world st) (checkpoint_dir st) (output_file st) (log st) = st.
Proof. destruct st; reflexivity. Qed.

Lemma bind_lift {A B} (r : result A) (k : A -> M B) (st : state) :
  (lift r ≫= k) st = match r with Ok a => k a st | Raise e => (st, Raise e) end.
Proof. destruct r; reflexivity. Qed.

Lemma load_checkpoint_eq (h : pystr) (st : state) :
  load_checkpoint h st = (st, Ok (cached (checkpoint_dir st) h)).
Proof.
  unfold load_checkpoint, cached.
  destruct (checkpoint_dir st !! h) as [[v|]|]; reflexivity.
Qed.

Lemma append_entries_eq (entries : list json) (st : state) :
  for_each entries (fun _ entry => append_entry entry) () st
  = (State (world st) (checkpoint_dir st) (output_file st ++ entries)
           (log st ++ map EvAppend entries), Ok ()).
Proof.
  revert st. induction entries as [|e l IH]; intros st; simpl.
  - rewrite !app_nil_r, state_eta. reflexivity.
  - unfold mbind, M_bind, append_entry at 1. rewrite IH. simpl.
    rewrite <- !app_assoc. reflexivity.
Qed.

Lemma get_coordinates_eq (area country : json) (st : state) :
  get_coordinates area country st
  = (State (requests_get (world st) area country).2 (checkpoint_dir st) (output_file st)
           (log st ++ [EvGeocode area country]),
     Ok (coordinates_of (requests_get (world st) area country).1)).
Proof.
  unfold get_coordinates, try_exceptM, mbind, M_bind, requests_get_json.
  destruct (requests_get (world st) area country) as [reply w].
  destruct reply as [|[|] [results|]]; try reflexivity.
  simpl. unfold read_coordinates.
  destruct (truthy results); [|reflexivity].
  unfold lift, mbind, result_bind.
  destruct (getitem results (SubInt 0)) as [first|]; [|reflexivity].
  destruct (getitem first (SubStr (u "lat"))) as [lat|]; [|reflexivity].
  destruct (py_float lat); [|reflexivity].
  destruct (getitem first (SubStr (u "lon"))) as [lon|]; [|reflexivity].
  destruct (py_float lon); reflexivity.
Qed.

Lemma coordinates_of_shape (reply : http_reply) :
  exists lat lon, coordinates_of reply = JObj [(u "latitude", lat); (u "longitude", lon)].
Proof.
  unfold coordinates_of, null_coordinates.
  destruct reply as [|[|] [results|]]; eauto.
  unfold read_coordinates, null_coordinates.
  destruct (truthy results); eauto.
  unfold mbind, result_bind.
  destruct (getitem results (SubInt 0)) as [first|]; eauto.
  destruct (getitem first (SubStr (u "lat"))) as [lat|]; eauto.
  destruct (py_float lat); eauto.
  destruct (getitem first (SubStr (u "lon"))) as [lon|]; eauto.
  destruct (py_float lon); eauto.
Qed.

Lemma extract_areas_with_llm_eq (country area : json) (st : state) :
  extract_areas_with_llm country area st
  = (State (chat_completions_create (world st) country area).2 (checkpoint_dir st)
           (output_file st) (log st ++ [EvDecompose country area]),
     Ok (areas_of country area (chat_completions_create (world st) country area).1)).
Proof.
  unfold extract_areas_with_llm, try_exceptM, mbind, M_bind, chat_content, areas_of.
  destruct (chat_completions_create (world st) country area) as [reply w].
  destruct reply as [|[content|]]; try reflexivity.
  simpl. destruct (re_search_array (strip content)) as [m|]; [|reflexivity].
  unfold lift. destruct (json_loads m) as [v|]; [|reflexivity].
  destruct (py_len v); reflexivity.
Qed.


Lemma geocode_all_cons (w : World) (q : json * json) (qs : list (json * json)) :
  geocode_all w (q :: qs)
  = ((requests_get w q.1 q.2).1 :: (geocode_all (requests_get w q.1 q.2).2 qs).1,
     (geocode_all (requests_get w q.1 q.2).2 qs).2).
Proof.
  destruct q as [a c]. simpl. destruct (requests_get w a c) as [reply w1]. simpl.
  destruct (geocode_all w1 qs); reflexivity.
Qed.

Lemma geocode_all_app (w : World) (qs1 qs2 : list (json * json)) :
  geocode_all w (qs1 ++ qs2)
  = ((geocode_all w qs1).1 ++ (geocode_all (geocode_all w qs1).2 qs2).1,
     (geocode_all (geocode_all w qs1).2 qs2).2).
Proof.
  revert w. induction qs1 as [|[a c] qs IH]; intros w; simpl.
  - destruct (geocode_all w qs2); reflexivity.
  - destruct (requests_get w a c) as [reply w1]. rewrite IH.
    destruct (geocode_all w1 qs) as [rs w2]. simpl. reflexivity.
Qed.

Lemma geocode_all_length (w : World) (qs : list (json * json)) :
  length (geocode_all w qs).1 = length qs.
Proof.
  revert w. induction qs as [|[a c] qs IH]; intros w; simpl; [reflexivity|].
  destruct (requests_get w a c) as [reply w1]. specialize (IH w1).
  destruct (geocode_all w1 qs). simpl in *. congruence.
Qed.

Lemma getitem_latitude (lat lon : json) :
  getitem (JObj [(u "latitude", lat); (u "longitude", lon)]) (SubStr (u "latitude")) = Ok lat.
Proof. reflexivity. Qed.

Lemma getitem_longitude (lat lon : json) :
  getitem (JObj [(u "latitude", lat); (u "longitude", lon)]) (SubStr (u "longitude")) = Ok lon.
Proof. reflexivity. Qed.

Lemma combine_fragment (doc par conf host : json) (acc : list json) (fr : json) (st : state) :
  is_fragment fr = true ->
  combine doc par conf host acc fr st
  = (State (requests_get (world st) (field "area" fr) (field "country" fr)).2
           (checkpoint_dir st) (output_file st) (log st ++ [geocode_event (query_of fr)]),
     Ok (acc ++ [assemble doc par conf (host, fr)
                   (coordinates_of (requests_get (world st) (field "area" fr) (field "country" fr)).1)])).
Proof.
  unfold is_fragment, combine, assemble, query_of, geocode_event, field. cbn [fst snd].
  intros Hfr.
  destruct (getitem fr (SubStr (u "country"))) as [c|]; [|discriminate].
  destruct (getitem fr (SubStr (u "area"))) as [a|]; [|discriminate].
  rewrite !bind_lift. unfold mbind at 1, M_bind at 1. rewrite get_coordinates_eq.
  destruct (coordinates_of_shape (requests_get (world st) a c).1) as (lat & lon & ->).
  rewrite !bind_lift, getitem_latitude, bind_lift, getitem_longitude. reflexivity.
Qed.

Lemma combine_not_fragment (doc par conf host : json) (acc : list json) (fr : json) (st : state) :
  is_fragment fr = false ->
  exists e, combine doc par conf host acc fr st = (st, Raise e) /\
    (getitem fr (SubStr (u "country")) = Raise e \/
     (exists c, getitem fr (SubStr (u "country")) = Ok c) /\ getitem fr (SubStr (u "area")) = Raise e).
Proof.
  unfold is_fragment, combine. intros Hfr. rewrite bind_lift.
  destruct (getitem fr (SubStr (u "country"))) as [c|e]; [|eauto].
  rewrite bind_lift.
  destruct (getitem fr (SubStr (u "area"))) as [a|e]; [discriminate|eauto 6].
Qed.

Lemma inner_loop (doc par conf host : json) (frags : list json) (acc : list json) (st : state) :
  forallb is_fragment frags = true ->
  for_each frags (combine doc par conf host) acc st
  = (State (geocode_all (world st) (map query_of frags)).2 (checkpoint_dir st) (output_file st)
           (log st ++ map geocode_event (map query_of frags)),
     Ok (acc ++ zip_with (fun fr reply => assemble doc par conf (host, fr) (coordinates_of reply))
                  frags (geocode_all (world st) (map query_of frags)).1)).
Proof.
  revert acc st. induction frags as [|fr frags IH]; intros acc st Hall.
  - simpl. rewrite !app_nil_r, state_eta. reflexivity.
  - simpl in Hall. apply andb_prop in Hall as [Hfr Hall].
    cbn [for_each map]. unfold mbind, M_bind.
    rewrite (combine_fragment _ _ _ _ _ _ _ Hfr), (IH _ _ Hall), geocode_all_cons.
    cbn [world checkpoint_dir output_file log fst snd zip_with query_of].
    rewrite <- !app_assoc. reflexivity.
Qed.

Lemma pair_queries_host (host : json) (frags : list json) :
  pair_queries (map (fun fr => (host, fr)) frags) = map query_of frags.
Proof. unfold pair_queries. rewrite map_map. reflexivity. Qed.

Lemma pair_queries_app (ps1 ps2 : list (json * json)) :
  pair_queries (ps1 ++ ps2) = pair_queries ps1 ++ pair_queries ps2.
Proof. apply map_app. Qed.

Lemma outer_loop (doc par conf : json) (hosts frags : list json) (acc : list json) (st : state) :
  forallb is_fragment frags = true ->
  for_each hosts
    (fun new_processed host =>
       areas ← lift (iterate (JArr frags));
       for_each areas (combine doc par conf host) new_processed) acc st
  = (State (geocode_all (world st) (pair_queries (list_prod hosts frags))).2
           (checkpoint_dir st) (output_file st)
           (log st ++ map geocode_event (pair_queries (list_prod hosts frags))),
     Ok (acc ++ zip_with (fun pair reply => assemble doc par conf pair (coordinates_of reply))
                  (list_prod hosts frags)
                  (geocode_all (world st) (pair_queries (list_prod hosts frags))).1)).
Proof.
  intros Hall. revert acc st. induction hosts as [|host hosts IH]; intros acc st; simpl.
  - rewrite !app_nil_r, state_eta. reflexivity.
  - cbn [for_each list_prod]. unfold mbind at 1, M_bind at 1. rewrite bind_lift.
    cbn [iterate]. rewrite (inner_loop _ _ _ _ _ _ _ Hall), IH.
    cbn [world checkpoint_dir output_file log].
    rewrite pair_queries_app, pair_queries_host, geocode_all_app, map_app.
    cbn [fst snd]. rewrite zip_with_app.
    2:{ rewrite geocode_all_length, !length_map. reflexivity. }
    rewrite zip_with_fmap_l, <- !app_assoc. reflexivity.
Qed.


(** *** One turn of the loop *)

Lemma process_finding_hit (finding : json) (h : pystr) (st : state) :
  get_finding_hash finding = Ok h ->
  truthy (cached (checkpoint_dir st) h) = true ->
  process_finding finding st
  = match getitem (cached (checkpoint_dir st) h) (SubStr (u "processed")) ≫= iterate with
    | Ok entries =>
        (State (world st) (checkpoint_dir st) (output_file st ++ entries)
               (log st ++ map EvAppend entries), Ok ())
    | Raise e => (st, Raise e)
    end.
Proof.
  intros Hh Hc. unfold process_finding. rewrite Hh, bind_lift.
  unfold mbind at 1, M_bind at 1. rewrite load_checkpoint_eq, Hc.
  unfold mbind at 1, M_bind at 1. unfold lift at 1.
  destruct (getitem _ _) as [v|e]; [|reflexivity].
  cbn [mbind result_bind]. rewrite bind_lift.
  destruct (iterate v) as [entries|e]; [|reflexivity].
  apply append_entries_eq.
Qed.

Lemma process_finding_miss (finding : json) (h : pystr) (st : state) :
  get_finding_hash finding = Ok h ->
  cache_miss st h ->
  process_finding finding st
  = match expand_records finding st with
    | (st1, Ok records) =>
        (State (world st1) (<[h := checkpoint_of finding records]> (checkpoint_dir st1))
               (output_file st1 ++ records)
               (log st1 ++ EvSave h (JObj [(u "original", finding); (u "processed", JArr records)])
                  :: map EvAppend records), Ok ())
    | (st1, Raise e) => (st1, Raise e)
    end.
Proof.
  intros Hh Hc. unfold process_finding. rewrite Hh, bind_lift.
  unfold mbind at 1, M_bind at 1. rewrite load_checkpoint_eq, Hc.
  unfold mbind at 1, M_bind at 1. unfold expand.
  unfold mbind at 1, M_bind at 1.
  destruct (expand_records finding st) as [st1 [records|e]]; [|reflexivity].
  unfold mbind at 1, M_bind at 1. unfold save_checkpoint at 1.
  unfold mret at 1, M_ret at 1. rewrite bind_lift. cbn [iterate].
  rewrite append_entries_eq. cbn [world checkpoint_dir output_file log].
  rewrite <- app_assoc. reflexivity.
Qed.

(** *** Statements that only talk to the services *)

Lemma calls_only_refl (st : state) : calls_only st st.
Proof. repeat split. exists []. rewrite app_nil_r. auto. Qed.

Lemma calls_only_trans (st1 st2 st3 : state) :
  calls_only st1 st2 -> calls_only st2 st3 -> calls_only st1 st3.
Proof.
  intros (Hc & Ho & l1 & Hl1 & Hf1) (Hc' & Ho' & l2 & Hl2 & Hf2).
  repeat split; try congruence.
  exists (l1 ++ l2). rewrite Hl2, Hl1, app_assoc, forallb_app, Hf1, Hf2. auto.
Qed.

Lemma quiet_lift {A} (r : result A) : quiet (lift r).
Proof. intros st. apply calls_only_refl. Qed.

Lemma quiet_ret {A} (a : A) : quiet (mret a : M A).
Proof. intros st. apply calls_only_refl. Qed.

Lemma quiet_bind {A B} (c : M A) (k : A -> M B) :
  quiet c -> (forall a, quiet (k a)) -> quiet (c ≫= k).
Proof.
  intros Hc Hk st. unfold mbind, M_bind. specialize (Hc st).
  destruct (c st) as [st1 [a|e]]; [|exact Hc].
  eapply calls_only_trans; [exact Hc | apply Hk].
Qed.

Lemma quiet_for_each {A B} (items : list A) (body : B -> A -> M B) (acc : B) :
  (forall b a, quiet (body b a)) -> quiet (for_each items body acc).
Proof.
  intros Hbody. revert acc. induction items as [|x items IH]; intros acc; simpl.
  - apply quiet_ret.
  - apply quiet_bind; auto.
Qed.

Lemma quiet_get_coordinates (area country : json) : quiet (get_coordinates area country).
Proof.
  intros st. rewrite get_coordinates_eq. repeat split. exists [EvGeocode area country]. auto.
Qed.

Lemma quiet_extract_areas (country area : json) : quiet (extract_areas_with_llm country area).
Proof.
  intros st. rewrite extract_areas_with_llm_eq. repeat split.
  exists [EvDecompose country area]. auto.
Qed.

Lemma quiet_combine (doc par conf host : json) (acc : list json) (fr : json) :
  quiet (combine doc par conf host acc fr).
Proof.
  unfold combine.
  repeat (apply quiet_bind; [first [apply quiet_lift | apply quiet_get_coordinates]|intros ?]).
  apply quiet_ret.
Qed.

Lemma quiet_expand_records (finding : json) : quiet (expand_records finding).
Proof.
  unfold expand_records.
  repeat (apply quiet_bind; [first [apply quiet_lift | apply quiet_extract_areas]|intros ?]).
  apply quiet_for_each. intros ? ?.
  apply quiet_bind; [apply quiet_lift|intros ?].
  apply quiet_for_each. intros. apply quiet_combine.
Qed.


(** *** Expansion of a well-formed finding *)

Lemma has_field_getitem (k : string) (v : json) :
  has_field (u k) v = true -> getitem v (SubStr (u k)) = Ok (field k v).
Proof.
  unfold has_field, field. destruct (getitem v (SubStr (u k))); [reflexivity|discriminate].
Qed.

Lemma has_required_fields_getitem (finding : json) :
  has_required_fields finding = true ->
  getitem finding (SubStr (u "document_id")) = Ok (field "document_id" finding) /\
  getitem finding (SubStr (u "parasite_species")) = Ok (field "parasite_species" finding) /\
  getitem finding (SubStr (u "host_species")) = Ok (field "host_species" finding) /\
  getitem finding (SubStr (u "country")) = Ok (field "country" finding) /\
  getitem finding (SubStr (u "area")) = Ok (field "area" finding) /\
  getitem finding (SubStr (u "confidence_score")) = Ok (field "confidence_score" finding).
Proof.
  unfold has_required_fields, required_fields. cbn [forallb].
  intros H. repeat (apply andb_prop in H as [?%has_field_getitem H]). auto 10.
Qed.

Lemma expand_records_ok (finding : json) (st : state) (hosts frags : list json) :
  has_required_fields finding = true ->
  atomic_hosts (field "host_species" finding) = Ok hosts ->
  areas_of (field "country" finding) (field "area" finding)
    (chat_completions_create (world st) (field "country" finding) (field "area" finding)).1
  = JArr frags ->
  forallb is_fragment frags = true ->
  expand_records finding st
  = (State (expansion_replies st finding (list_prod hosts frags)).2
           (checkpoint_dir st) (output_file st)
           (log st ++ EvDecompose (field "country" finding) (field "area" finding)
              :: map geocode_event (pair_queries (list_prod hosts frags))),
     Ok (zip_with (enriched finding) (list_prod hosts frags)
           (expansion_replies st finding (list_prod hosts frags)).1)).
Proof.
  intros Hf Hhosts Hareas Hfrags.
  destruct (has_required_fields_getitem _ Hf) as (H1 & H2 & H3 & H4 & H5 & H6).
  unfold expand_records.
  rewrite H1, bind_lift, H2, bind_lift, H3, bind_lift, H4, bind_lift, H5, bind_lift,
    H6, bind_lift, Hhosts, bind_lift.
  unfold mbind at 1, M_bind at 1. rewrite extract_areas_with_llm_eq, Hareas.
  rewrite (outer_loop _ _ _ _ _ _ _ Hfrags).
  cbn [world checkpoint_dir output_file log]. unfold expansion_replies.
  rewrite <- app_assoc. reflexivity.
Qed.

Lemma process_finding_expands (finding : json) (h : pystr) (st : state)
    (hosts frags : list json) :
  get_finding_hash finding = Ok h ->
  cache_miss st h ->
  has_required_fields finding = true ->
  atomic_hosts (field "host_species" finding) = Ok hosts ->
  areas_of (field "country" finding) (field "area" finding)
    (chat_completions_create (world st) (field "country" finding) (field "area" finding)).1
  = JArr frags ->
  forallb is_fragment frags = true ->
  let pairs := list_prod hosts frags in
  let records := zip_with (enriched finding) pairs (expansion_replies st finding pairs).1 in
  process_finding finding st
  = (State (expansion_replies st finding pairs).2
           (<[h := checkpoint_of finding records]> (checkpoint_dir st))
           (output_file st ++ records)
           (log st ++ EvDecompose (field "country" finding) (field "area" finding)
              :: map geocode_event (pair_queries pairs)
              ++ EvSave h (JObj [(u "original", finding); (u "processed", JArr records)])
              :: map EvAppend records),
     Ok ()).
Proof.
  intros Hh Hmiss Hf Hhosts Hareas Hfrags pairs records.
  rewrite (process_finding_miss _ _ _ Hh Hmiss).
  rewrite (expand_records_ok _ _ _ _ Hf Hhosts Hareas Hfrags).
  cbn [world checkpoint_dir output_file log]. rewrite <- app_assoc. reflexivity.
Qed.

Lemma expansion_replies_length (st : state) (finding : json) (pairs : list (json * json)) :
  length (expansion_replies st finding pairs).1 = length pairs.
Proof. unfold expansion_replies, pair_queries. rewrite geocode_all_length, length_map. reflexivity. Qed.

Lemma records_length (finding : json) (pairs : list (json * json)) (replies : list http_reply) :
  length replies = length pairs ->
  length (zip_with (enriched finding) pairs replies) = length pairs.
Proof. intros H. rewrite length_zip_with. lia. Qed.


(** *** Replaying events *)

Lemma replay_app (evs1 evs2 : list event) (d : gmap pystr file * list json) :
  replay (evs1 ++ evs2) d = replay evs2 (replay evs1 d).
Proof. apply fold_left_app. Qed.

Lemma replay_calls (calls : list event) (d : gmap pystr file * list json) :
  forallb is_call calls = true -> replay calls d = d.
Proof.
  revert d. induction calls as [|e calls IH]; intros d H; [reflexivity|].
  simpl in H. apply andb_prop in H as [He H].
  unfold replay. simpl. fold (replay calls (replay_event d e)).
  rewrite IH by assumption. destruct e; try discriminate; reflexivity.
Qed.

Lemma replay_appends (entries : list json) (d : gmap pystr file * list json) :
  replay (map EvAppend entries) d = (d.1, d.2 ++ entries).
Proof.
  revert d. induction entries as [|e l IH]; intros [dir out]; simpl.
  - rewrite app_nil_r. reflexivity.
  - unfold replay. simpl. fold (replay (map EvAppend l) (dir, out ++ [e])).
    rewrite IH. simpl. rewrite <- app_assoc. reflexivity.
Qed.

Lemma cached_insert (dir : gmap pystr file) (h : pystr) (finding : json) (records : list json) :
  cached (<[h := checkpoint_of finding records]> dir) h
  = JObj [(u "original", finding); (u "processed", JArr records)].
Proof. unfold cached. rewrite lookup_insert_eq. reflexivity. Qed.

(** C1.  When a finding has been processed once, processing it again appends
    exactly the entries the first pass appended, read back from the
    checkpoint; the second pass leaves the world and the checkpoint directory
    as they are and its trace holds no request to either service. *)
Theorem second_pass_replays_checkpoint (finding : json) (st st1 : state) :
  process_finding finding st = (st1, Ok ()) ->
  exists entries,
    output_file st1 = output_file st ++ entries /\
    process_finding finding st1
    = (State (world st1) (checkpoint_dir st1) (output_file st1 ++ entries)
             (log st1 ++ map EvAppend entries), Ok ()) /\
    Forall (fun e => is_call e = false) (map EvAppend entries).
Proof.
  intros Hrun.
  assert (forall entries : list json, Forall (fun e => is_call e = false) (map EvAppend entries))
    as Hquiet.
  { intros entries. induction entries; constructor; auto. }
  destruct (get_finding_hash finding) as [h|e] eqn:Hh.
  2:{ unfold process_finding in Hrun. rewrite Hh, bind_lift in Hrun. discriminate. }
  destruct (truthy (cached (checkpoint_dir st) h)) eqn:Hc.
  - (* replayed from a checkpoint that was already there *)
    rewrite (process_finding_hit _ _ _ Hh Hc) in Hrun.
    destruct (getitem _ _ ≫= iterate) as [entries|e] eqn:He; [|discriminate].
    injection Hrun as <-. exists entries. cbn [output_file]. split; [reflexivity|].
    split; [|apply Hquiet].
    rewrite (process_finding_hit _ h); cbn [checkpoint_dir]; [|assumption..].
    rewrite He. reflexivity.
  - (* expanded, saved, then replayed *)
    rewrite (process_finding_miss _ _ _ Hh Hc) in Hrun.
    pose proof (quiet_expand_records finding st) as (_ & Hout & _).
    destruct (expand_records finding st) as [st' [records|e]]; [|discriminate].
    injection Hrun as <-. exists records. cbn [output_file fst] in *.
    split; [congruence|]. split; [|apply Hquiet].
    rewrite (process_finding_hit _ h); cbn [checkpoint_dir world output_file log];
      [|assumption|rewrite cached_insert; reflexivity].
    rewrite cached_insert. reflexivity.
Qed.


Lemma enriched_fields (finding : json) (pair : json * json) (reply : http_reply) :
  field "document_id" (enriched finding pair reply) = field "document_id" finding /\
  field "parasite_species" (enriched finding pair reply) = field "parasite_species" finding /\
  field "host_species" (enriched finding pair reply) = pair.1 /\
  field "country" (enriched finding pair reply) = field "country" pair.2 /\
  field "area" (enriched finding pair reply) = field "area" pair.2 /\
  field "latitude" (enriched finding pair reply) = field "latitude" (coordinates_of reply) /\
  field "longitude" (enriched finding pair reply) = field "longitude" (coordinates_of reply) /\
  field "confidence_score" (enriched finding pair reply) = field "confidence_score" finding.
Proof. repeat split; reflexivity. Qed.

Lemma lookup_records (finding : json) (pairs : list (json * json)) (replies : list http_reply)
    (i : nat) (pair : json * json) :
  length replies = length pairs ->
  pairs !! i = Some pair ->
  exists reply, replies !! i = Some reply /\
    zip_with (enriched finding) pairs replies !! i = Some (enriched finding pair reply).
Proof.
  intros Hlen Hi.
  destruct (replies !! i) as [reply|] eqn:Hr.
  - exists reply. split; [reflexivity|]. rewrite lookup_zip_with, Hi. simpl. rewrite Hr. reflexivity.
  - apply lookup_ge_None in Hr. apply lookup_lt_Some in Hi. lia.
Qed.

(** C3.  An uncached finding with its six fields, expanded over its hosts and
    over the fragments the decomposition returned, appends one record per
    (host, fragment) pair of the cross product, in order: [|hosts| * |frags|]
    records, each with that host, that fragment's own country and area, and
    the finding's document, parasite and confidence.  The fragments hold no
    character that cannot be encoded (a lone surrogate), on which the
    progress line, the checkpoint and the output lines could not be
    written. *)
Theorem cross_product_complete (finding : json) (h : pystr) (st : state)
    (hosts frags : list json) :
  get_finding_hash finding = Ok h ->
  cache_miss st h ->
  has_required_fields finding = true ->
  atomic_hosts (field "host_species" finding) = Ok hosts ->
  areas_of (field "country" finding) (field "area" finding)
    (chat_completions_create (world st) (field "country" finding) (field "area" finding)).1
  = JArr frags ->
  forallb is_fragment frags = true ->
  forallb encodable frags = true ->
  exists st' records,
    process_finding finding st = (st', Ok ()) /\
    output_file st' = output_file st ++ records /\
    length records = (length hosts * length frags)%nat /\
    forall i host fr,
      list_prod hosts frags !! i = Some (host, fr) ->
      exists record,
        records !! i = Some record /\
        field "host_species" record = host /\
        field "country" record = field "country" fr /\
        field "area" record = field "area" fr /\
        field "document_id" record = field "document_id" finding /\
        field "parasite_species" record = field "parasite_species" finding /\
        field "confidence_score" record = field "confidence_score" finding.
Proof.
  intros Hh Hmiss Hf Hhosts Hareas Hfrags _.
  pose proof (process_finding_expands _ _ _ _ _ Hh Hmiss Hf Hhosts Hareas Hfrags) as Hrun.
  cbv zeta in Hrun. eexists _, _. split; [exact Hrun|]. cbn [output_file].
  split; [reflexivity|].
  pose proof (expansion_replies_length st finding (list_prod hosts frags)) as Hlen.
  split.
  - rewrite records_length, length_prod by assumption. reflexivity.
  - intros i host fr Hi.
    destruct (lookup_records finding _ _ _ _ Hlen Hi) as (reply & _ & Hrec).
    eexists. split; [exact Hrec|].
    destruct (enriched_fields finding (host, fr) reply) as (? & ? & ? & ? & ? & _ & _ & ?).
    auto 10.
Qed.

Lemma geocoding_failed_null (reply : http_reply) :
  geocoding_failed reply -> coordinates_of reply = null_coordinates.
Proof.
  unfold geocoding_failed, coordinates_of.
  destruct reply as [|[|] [results|]]; try reflexivity.
  intros [Hfalsy|[e He]].
  - unfold read_coordinates. rewrite Hfalsy. reflexivity.
  - rewrite He. reflexivity.
Qed.

(** C6.  [get_coordinates] always returns: it gives the null coordinates
    whenever the request raises, the status is not 2xx, the body is not JSON,
    the result set is empty or the candidate cannot be read.  In an
    expansion, the i-th record is built from the i-th reply alone, so a
    failed reply nulls the coordinates of its own record and of no other;
    the fragments of the expansion hold no character that cannot be encoded,
    on which the records could not be written. *)
Theorem geocoding_failure_is_isolated :
  (forall (area country : json) (st : state),
     let reply := (requests_get (world st) area country).1 in
     exists st', get_coordinates area country st = (st', Ok (coordinates_of reply)) /\
       (geocoding_failed reply -> coordinates_of reply = null_coordinates)) /\
  (forall (finding : json) (h : pystr) (st : state) (hosts frags : list json),
     get_finding_hash finding = Ok h ->
     cache_miss st h ->
     has_required_fields finding = true ->
     atomic_hosts (field "host_species" finding) = Ok hosts ->
     areas_of (field "country" finding) (field "area" finding)
       (chat_completions_create (world st) (field "country" finding) (field "area" finding)).1
     = JArr frags ->
     forallb is_fragment frags = true ->
     forallb encodable frags = true ->
     let pairs := list_prod hosts frags in
     let replies := (expansion_replies st finding pairs).1 in
     exists st',
       process_finding finding st = (st', Ok ()) /\
       forall i pair,
         pairs !! i = Some pair ->
         exists reply,
           replies !! i = Some reply /\
           output_file st' !! (length (output_file st) + i)%nat = Some (enriched finding pair reply) /\
           (geocoding_failed reply ->
            field "latitude" (enriched finding pair reply) = JNull /\
            field "longitude" (enriched finding pair reply) = JNull)).
Proof.
  split.
  - intros area country st reply. rewrite get_coordinates_eq. eexists. split; [reflexivity|].
    apply geocoding_failed_null.
  - intros finding h st hosts frags Hh Hmiss Hf Hhosts Hareas Hfrags _ pairs replies.
    pose proof (process_finding_expands _ _ _ _ _ Hh Hmiss Hf Hhosts Hareas Hfrags) as Hrun.
    cbv zeta in Hrun. eexists. split; [exact Hrun|]. cbn [output_file].
    intros i pair Hi.
    pose proof (expansion_replies_length st finding (list_prod hosts frags)) as Hlen.
    destruct (lookup_records finding _ _ _ _ Hlen Hi) as (reply & Hreply & Hrec).
    exists reply. split; [exact Hreply|]. split.
    + rewrite lookup_app_r by lia.
      replace (length (output_file st) + i - length (output_file st))%nat with i by lia.
      exact Hrec.
    + intros Hfail.
      destruct (enriched_fields finding pair reply) as (_ & _ & _ & _ & _ & -> & -> & _).
      rewrite (geocoding_failed_null _ Hfail). split; reflexivity.
Qed.

(** *** The whole loop *)

Lemma run_cons (finding : json) (rest : list json) (st : state) :
  run (finding :: rest) st
  = match process_finding finding st with
    | (st', Ok _) => run rest st'
    | (st', Raise e) => (st', Raise e)
    end.
Proof.
  unfold run. cbn [for_each]. unfold mbind at 1, M_bind at 1.
  destruct (process_finding finding st) as [st' [[]|e]]; reflexivity.
Qed.

Lemma run_app (before after : list json) (st : state) :
  run (before ++ after) st
  = match run before st with
    | (st', Ok _) => run after st'
    | (st', Raise e) => (st', Raise e)
    end.
Proof.
  revert st. induction before as [|f before IH]; intros st.
  - reflexivity.
  - cbn [app]. rewrite !run_cons.
    destruct (process_finding f st) as [st' [[]|e]]; [apply IH|reflexivity].
Qed.


Lemma bind_getitem_obj {B} (fields : list (pystr * json)) (key : pystr) (k : json -> M B)
    (st : state) :
  (lift (getitem (JObj fields) (SubStr key)) ≫= k) st
  = match dict_get fields key with
    | Some x => k x st
    | None => (st, Raise (KeyError (SubStr key)))
    end.
Proof. rewrite bind_lift. cbn [getitem]. destruct (dict_get fields key); reflexivity. Qed.

Lemma expand_records_missing (fields : list (pystr * json)) (st : state) (k : pystr) :
  In k required_fields ->
  dict_get fields k = None ->
  exists k', In k' required_fields /\ dict_get fields k' = None /\
    expand_records (JObj fields) st = (st, Raise (KeyError (SubStr k'))).
Proof.
  intros Hk Hnone. unfold expand_records.
  repeat (rewrite bind_getitem_obj;
          match goal with
          | |- context [dict_get fields ?key] =>
              destruct (dict_get fields key) eqn:?;
              [|exists key; split; [simpl; tauto|split; [assumption|reflexivity]]]
          end).
  exfalso. unfold required_fields in Hk. simpl in Hk.
  repeat (destruct Hk as [<-|Hk]; [congruence|]). exact Hk.
Qed.

(** C7.  A finding that lacks a required field and has no checkpoint raises
    [KeyError] before any request or write; the run stops there, in the state
    the earlier findings left, and the findings after it are not visited. *)
Theorem missing_field_halts_run (fields : list (pystr * json)) (h k : pystr)
    (before rest : list json) (st st_mid : state) :
  run before st = (st_mid, Ok ()) ->
  get_finding_hash (JObj fields) = Ok h ->
  cache_miss st_mid h ->
  In k required_fields ->
  dict_get fields k = None ->
  exists k', In k' required_fields /\ dict_get fields k' = None /\
    process_finding (JObj fields) st_mid = (st_mid, Raise (KeyError (SubStr k'))) /\
    run (before ++ JObj fields :: rest) st = (st_mid, Raise (KeyError (SubStr k'))).
Proof.
  intros Hbefore Hh Hmiss Hk Hnone.
  destruct (expand_records_missing fields st_mid k Hk Hnone) as (k' & Hk' & Hnone' & Hexp).
  exists k'. split; [assumption|]. split; [assumption|].
  assert (process_finding (JObj fields) st_mid = (st_mid, Raise (KeyError (SubStr k')))) as Hp.
  { rewrite (process_finding_miss _ _ _ Hh Hmiss), Hexp. reflexivity. }
  split; [exact Hp|].
  rewrite run_app, Hbefore, run_cons, Hp. reflexivity.
Qed.

Lemma forallb_take {A} (p : A -> bool) (l : list A) (n : nat) :
  forallb p l = true -> forallb p (take n l) = true.
Proof.
  revert n. induction l as [|x l IH]; intros [|n] H; simpl in *; auto.
  apply andb_prop in H as [-> H]. simpl. auto.
Qed.

Lemma replay_cons (e : event) (evs : list event) (d : gmap pystr file * list json) :
  replay (e :: evs) d = replay evs (replay_event d e).
Proof. reflexivity. Qed.

(** C8.  On a cache miss the checkpoint is written before the first entry is
    appended: the trace is requests, then the save, then the appends, and at
    whatever point the trace is cut, an output file that has grown comes with
    the checkpoint in place. *)
Theorem checkpoint_saved_before_output (finding : json) (h : pystr) (st st1 : state)
    (r : result ()) :
  get_finding_hash finding = Ok h ->
  cache_miss st h ->
  process_finding finding st = (st1, r) ->
  exists evs,
    log st1 = log st ++ evs /\
    disk st1 = replay evs (disk st) /\
    (forall e, r = Raise e -> forallb is_call evs = true) /\
    (r = Ok () -> exists calls records,
        forallb is_call calls = true /\
        evs = calls ++ EvSave h (JObj [(u "original", finding); (u "processed", JArr records)])
                :: map EvAppend records) /\
    (forall n,
       (replay (take n evs) (disk st)).2 <> output_file st ->
       exists records k,
         (replay (take n evs) (disk st)).1 !! h = Some (checkpoint_of finding records) /\
         (replay (take n evs) (disk st)).2 = output_file st ++ take k records).
Proof.
  intros Hh Hmiss Hrun. rewrite (process_finding_miss _ _ _ Hh Hmiss) in Hrun.
  pose proof (quiet_expand_records finding st) as (Hdir & Hout & calls & Hlog & Hcalls).
  destruct (expand_records finding st) as [st' [records|e]]; cbn [fst] in *;
    injection Hrun as <- <-.
  - exists (calls ++ EvSave h (JObj [(u "original", finding); (u "processed", JArr records)])
              :: map EvAppend records).
    cbn [log]. split; [rewrite Hlog, <- app_assoc; reflexivity|].
    split; [|split; [discriminate|split; [eauto|]]].
    + unfold disk. cbn [checkpoint_dir output_file].
      rewrite replay_app, (replay_calls calls), replay_cons, replay_appends by assumption.
      simpl. rewrite Hdir, Hout. reflexivity.
    + intros n. rewrite take_app. rewrite replay_app.
      rewrite (replay_calls (take n calls)) by (apply forallb_take; assumption).
      destruct (n - length calls)%nat as [|m]; [intros Hne; exfalso; apply Hne; reflexivity|].
      intros _. rewrite firstn_cons, replay_cons, firstn_map, replay_appends.
      simpl. exists records, m. split; [apply lookup_insert_eq|reflexivity].
  - exists calls. split; [assumption|].
    split; [|split; [auto|split; [discriminate|]]].
    + unfold disk. rewrite replay_calls, Hdir, Hout by assumption. reflexivity.
    + intros n Hne. exfalso. apply Hne.
      rewrite replay_calls by (apply forallb_take; assumption). reflexivity.
Qed.

Lemma atomic_hosts_cons (host_species : json) (hosts : list json) :
  atomic_hosts host_species = Ok hosts -> exists host others, hosts = host :: others.
Proof.
  unfold atomic_hosts. destruct (split_species host_species) as [[|a l]|e]; simpl;
    intros [= <-]; eauto.
Qed.

(** C10.  When the reply of the decomposition service holds a JSON array
    whose first element is an object without ["country"] or without
    ["area"], [extract_areas_with_llm] returns that array as it is and the
    run ends with an unhandled [KeyError]: nothing is saved, nothing is
    appended and the remaining findings are not visited. *)
Theorem keyless_fragment_aborts_run (finding : json) (h : pystr) (st : state)
    (hosts : list json) (content json_match : pystr)
    (fragment : list (pystr * json)) (others rest : list json) :
  get_finding_hash finding = Ok h ->
  cache_miss st h ->
  has_required_fields finding = true ->
  atomic_hosts (field "host_species" finding) = Ok hosts ->
  (chat_completions_create (world st) (field "country" finding) (field "area" finding)).1
  = LlmContent (Some content) ->
  re_search_array (strip content) = Some json_match ->
  json_loads json_match = Ok (JArr (JObj fragment :: others)) ->
  dict_get fragment (u "country") = None \/ dict_get fragment (u "area") = None ->
  exists st' k,
    extract_areas_with_llm (field "country" finding) (field "area" finding) st
    = (st', Ok (JArr (JObj fragment :: others))) /\
    (k = u "country" \/ k = u "area") /\ dict_get fragment k = None /\
    run (finding :: rest) st = (st', Raise (KeyError (SubStr k))) /\
    checkpoint_dir st' = checkpoint_dir st /\
    output_file st' = output_file st.
Proof.
  intros Hh Hmiss Hf Hhosts Hreply Hsearch Hloads Hkey.
  destruct (atomic_hosts_cons _ _ Hhosts) as (host & more & ->).
  destruct (has_required_fields_getitem _ Hf) as (H1 & H2 & H3 & H4 & H5 & H6).
  pose proof (extract_areas_with_llm_eq (field "country" finding) (field "area" finding) st)
    as Hext.
  unfold areas_of in Hext. rewrite Hreply, Hsearch, Hloads in Hext. cbn [py_len] in Hext.
  assert (is_fragment (JObj fragment) = false) as Hnot.
  { unfold is_fragment. cbn [getitem].
    destruct Hkey as [-> | ->]; [reflexivity|].
    destruct (dict_get fragment (u "country")); reflexivity. }
  eexists _, (match dict_get fragment (u "country") with Some _ => u "area" | None => u "country" end).
  split; [exact Hext|].
  split; [destruct (dict_get fragment (u "country")); auto|].
  split; [destruct (dict_get fragment (u "country")) eqn:E; [destruct Hkey; congruence|exact E]|].
  split; [|split; reflexivity].
  rewrite run_cons, (process_finding_miss _ _ _ Hh Hmiss). unfold expand_records.
  rewrite H1, bind_lift, H2, bind_lift, H3, bind_lift, H4, bind_lift, H5, bind_lift,
    H6, bind_lift, Hhosts, bind_lift.
  unfold mbind at 1, M_bind at 1. rewrite Hext. cbn [for_each].
  unfold mbind at 1, M_bind at 1. rewrite bind_lift. cbn [iterate for_each].
  unfold mbind at 1, M_bind at 1.
  unfold combine. rewrite bind_lift. cbn [getitem].
  destruct (dict_get fragment (u "country")) as [c|] eqn:Ec; [|reflexivity].
  rewrite bind_lift. cbn [getitem].
  destruct Hkey as [Hkey|Hkey]; [discriminate|]. rewrite Hkey. reflexivity.
Qed.


(** *** Stateless services: what a statement does is the same in every state *)








Section Stateless.
Hypothesis Hstateless : stateless.
Variable w0 : World.









End Stateless.


(** *** A run, finding by finding *)

Lemma decompositions_app (evs1 evs2 : list event) :
  decompositions (evs1 ++ evs2) = (decompositions evs1 + decompositions evs2)%nat.
Proof. unfold decompositions. rewrite List.filter_app, length_app. reflexivity. Qed.

Lemma decompositions_appends (entries : list json) :
  decompositions (map EvAppend entries) = 0%nat.
Proof. unfold decompositions. induction entries; simpl; auto. Qed.

Lemma saves_app (evs1 evs2 : list event) :
  saves (evs1 ++ evs2) = (saves evs1 + saves evs2)%nat.
Proof. unfold saves. rewrite List.filter_app, length_app. reflexivity. Qed.

Lemma saves_appends (entries : list json) : saves (map EvAppend entries) = 0%nat.
Proof. unfold saves. induction entries; simpl; auto. Qed.


Lemma appended_app (evs1 evs2 : list event) :
  appended (evs1 ++ evs2) = appended evs1 ++ appended evs2.
Proof. unfold appended. apply flat_map_app. Qed.

Lemma appended_calls (calls : list event) :
  forallb is_call calls = true -> appended calls = [].
Proof.
  induction calls as [|e calls IH]; simpl; [reflexivity|].
  intros H. apply andb_prop in H as [He H]. destruct e; try discriminate; simpl; auto.
Qed.

Lemma appended_appends (entries : list json) : appended (map EvAppend entries) = entries.
Proof. induction entries as [|e l IH]; simpl; [reflexivity|]. f_equal. exact IH. Qed.


Lemma cached_lookup (dir dir' : gmap pystr file) (h : pystr) :
  dir' !! h = dir !! h -> cached dir' h = cached dir h.
Proof. unfold cached. intros ->. reflexivity. Qed.







(** *** The files a terminated run leaves behind *)


















Section Restart.
Hypothesis Hstateless : stateless.



End Restart.

End Properties.

(** * Further properties of the script *)

Section Further.
Context `{PF : PyFloat} `{SV : !Services}.

(** *** [str.strip], [re.split], [re.search] *)

Lemma lstrip_cut (s : pystr) :
  exists spaces, s = spaces ++ lstrip s /\ forallb is_whitespace spaces = true.
Proof.
  induction s as [|c s IH]; simpl.
  - exists []. auto.
  - destruct (is_whitespace c) eqn:Hc.
    + destruct IH as (spaces & Hs & Hall). exists (c :: spaces). simpl.
      rewrite Hc, Hall. split; [f_equal; exact Hs|reflexivity].
    + exists []. auto.
Qed.

Lemma lstrip_head (s : pystr) (c : N) (r : pystr) :
  lstrip s = c :: r -> is_whitespace c = false.
Proof.
  induction s as [|x s IH]; simpl; [discriminate|].
  destruct (is_whitespace x) eqn:Hx; [exact IH|]. intros [= <- _]. exact Hx.
Qed.

Lemma lstrip_fixed (s : pystr) :
  match s with c :: _ => is_whitespace c = false | [] => True end -> lstrip s = s.
Proof. destruct s as [|c s]; simpl; [reflexivity|]. intros ->. reflexivity. Qed.

Lemma lstrip_lstrip (s : pystr) : lstrip (lstrip s) = lstrip s.
Proof.
  apply lstrip_fixed. destruct (lstrip s) as [|c r] eqn:E; [exact I|].
  apply (lstrip_head s c r E).
Qed.

(** [strip s] is [lstrip s] without its trailing white space. *)
Lemma strip_cut (s : pystr) :
  exists spaces, lstrip s = strip s ++ spaces /\ forallb is_whitespace spaces = true.
Proof.
  unfold strip, rstrip.
  destruct (lstrip_cut (rev (lstrip s))) as (spaces & Hs & Hall).
  exists (rev spaces). split.
  - rewrite <- rev_app_distr, <- Hs, rev_involutive. reflexivity.
  - rewrite forallb_forall in *. intros x Hx. apply Hall, in_rev. exact Hx.
Qed.

Lemma strip_head (s : pystr) (c : N) (r : pystr) :
  strip s = c :: r -> is_whitespace c = false.
Proof.
  intros E. destruct (strip_cut s) as (spaces & Hs & _). rewrite E in Hs.
  apply (lstrip_head s c (r ++ spaces)). exact Hs.
Qed.

Lemma strip_last (s : pystr) (c : N) (r : pystr) :
  strip s = r ++ [c] -> is_whitespace c = false.
Proof.
  unfold strip, rstrip. intros E.
  apply (f_equal (@rev N)) in E. rewrite rev_involutive, rev_app_distr in E. simpl in E.
  exact (lstrip_head _ _ _ E).
Qed.

Lemma strip_strip (s : pystr) : strip (strip s) = strip s.
Proof.
  assert (lstrip (strip s) = strip s) as Hl.
  { apply lstrip_fixed. destruct (strip s) as [|c r] eqn:E; [exact I|].
    apply (strip_head s c r E). }
  unfold strip at 1. rewrite Hl. unfold strip, rstrip.
  rewrite rev_involutive, lstrip_lstrip. reflexivity.
Qed.

Lemma strip_keeps (P : N -> Prop) (s : pystr) : Forall P s -> Forall P (strip s).
Proof.
  intros H. destruct (lstrip_cut s) as (sp1 & H1 & _). destruct (strip_cut s) as (sp2 & H2 & _).
  rewrite H1, H2 in H. apply Forall_app in H as [_ H]. apply Forall_app in H as [H _]. exact H.
Qed.

Lemma re_split_pieces (s : pystr) :
  Forall (Forall (fun c => is_separator c = false)) (re_split s).
Proof.
  induction s as [|c s IH]; simpl.
  - repeat constructor.
  - destruct (is_separator c) eqn:Hc.
    + constructor; [constructor|exact IH].
    + destruct (re_split s) as [|p ps]; [repeat constructor; exact Hc|].
      inversion IH; subst. constructor; [constructor; assumption|assumption].
Qed.

(** X1.  Every host [split_species] returns is a non-empty string, free of
    commas and slashes, with no white space at either end. *)
Theorem split_species_atoms (species_text : json) (atoms : list json) (a : json) :
  split_species species_text = Ok atoms ->
  In a atoms ->
  exists s,
    a = JStr s /\ s <> [] /\ strip s = s /\
    Forall (fun c => is_separator c = false) s /\
    (forall c r, s = c :: r -> is_whitespace c = false) /\
    (forall c r, s = r ++ [c] -> is_whitespace c = false).
Proof.
  unfold split_species. destruct (negb (truthy species_text)); [intros [= <-] []|].
  destruct species_text as [| | | |text| |]; try discriminate. intros [= <-].
  unfold stripped_atoms. intros Hin. apply in_map_iff in Hin as (piece & <- & Hin).
  apply list_elem_of_In, list_elem_of_filter in Hin as [Hkeep Hin].
  exists (strip piece). split; [reflexivity|].
  split; [intros E; rewrite E in Hkeep; discriminate|].
  split; [apply strip_strip|]. split.
  - apply strip_keeps. pose proof (re_split_pieces text) as Hall.
    rewrite List.Forall_forall in Hall. apply Hall, list_elem_of_In, Hin.
  - split; intros c r E; [exact (strip_head _ _ _ E)|exact (strip_last _ _ _ E)].
Qed.

Lemma drop_until_found (p : N -> bool) (s : pystr) (c : N) (t : pystr) :
  drop_until p s = c :: t ->
  exists before, s = before ++ c :: t /\ forallb (fun x => negb (p x)) before = true /\ p c = true.
Proof.
  induction s as [|x s IH]; simpl; [discriminate|].
  destruct (p x) eqn:Hx.
  - intros [= <- <-]. exists []. auto.
  - intros E. destruct (IH E) as (before & -> & Hall & Hc).
    exists (x :: before). simpl. rewrite Hx, Hall. auto.
Qed.

Lemma drop_until_nothing (p : N -> bool) (s : pystr) :
  drop_until p s = [] -> forallb (fun x => negb (p x)) s = true.
Proof.
  induction s as [|x s IH]; simpl; [reflexivity|].
  destruct (p x) eqn:Hx; [discriminate|]. intros E. rewrite (IH E). reflexivity.
Qed.

(** X2.  The match of [re.search(r'\[.*\]', ...)] runs from the first opening
    bracket of the text to its last closing bracket; there is no match
    exactly when no closing bracket follows the first opening one. *)
Theorem re_search_array_spec (content : pystr) :
  match re_search_array content with
  | Some json_match =>
      exists before inside after,
        content = before ++ json_match ++ after /\
        json_match = ch "[" :: inside ++ [ch "]"] /\
        forallb (fun c => negb (c =? ch "[")) before = true /\
        forallb (fun c => negb (c =? ch "]")) after = true
  | None =>
      forall before after,
        content = before ++ ch "[" :: after ->
        forallb (fun c => negb (c =? ch "[")) before = true ->
        forallb (fun c => negb (c =? ch "]")) after = true
  end.
Proof.
  unfold re_search_array.
  destruct (drop_until (N.eqb (ch "[")) content) as [|open t] eqn:Hopen.
  - intros before after -> Hbefore. apply drop_until_nothing in Hopen.
    rewrite forallb_app in Hopen. apply andb_prop in Hopen as [_ Hopen]. simpl in Hopen.
    try rewrite N.eqb_refl in Hopen. discriminate.
  - destruct (drop_until_found _ _ _ _ Hopen) as (before & -> & Hbefore & Hc).
    apply N.eqb_eq in Hc. subst open.
    assert (forall b a, before ++ ch "[" :: t = b ++ ch "[" :: a ->
                        forallb (fun c => negb (c =? ch "[")) b = true -> a = t) as Hfirst.
    { clear Hopen. intros b a. revert b. induction before as [|x before IH]; intros [|y b]; simpl.
      - intros [= <-]. reflexivity.
      - intros [= <- _]. try rewrite N.eqb_refl. discriminate.
      - intros [= -> _]. simpl in Hbefore. try rewrite N.eqb_refl in Hbefore. discriminate.
      - intros [= <- E] H. apply andb_prop in Hbefore as [_ Hbefore].
        apply andb_prop in H as [_ H]. exact (IH Hbefore b E H). }
    assert (forallb (fun c => negb (ch "[" =? c)) before
            = forallb (fun c => negb (c =? ch "[")) before) as Hsym.
    { clear. induction before as [|x l IH]; cbn [forallb]; [reflexivity|].
      rewrite N.eqb_sym, IH. reflexivity. }
    rewrite Hsym in Hbefore.
    destruct (drop_until (N.eqb (ch "]")) (rev t)) as [|close r] eqn:Hclose.
    + simpl. intros b a E Hb. rewrite (Hfirst b a E Hb).
      apply drop_until_nothing in Hclose.
      rewrite forallb_forall in *. intros c Hin. rewrite N.eqb_sym.
      apply Hclose, in_rev. rewrite rev_involutive. exact Hin.
    + cbn [rev]. destruct (rev r ++ [close]) as [|m0 m] eqn:Hm;
        [destruct (rev r); discriminate|]. rewrite <- Hm. clear Hm m0 m.
      destruct (drop_until_found _ _ _ _ Hclose) as (after & Ht & Hafter & Hc).
      apply N.eqb_eq in Hc. subst close.
      apply (f_equal (@rev N)) in Ht. rewrite rev_involutive, rev_app_distr in Ht.
      cbn [rev] in Ht.
      exists before, (rev r), (rev after). rewrite Ht.
      split; [simpl; rewrite <- !app_assoc; reflexivity|]. split; [reflexivity|].
      split; [exact Hbefore|].
      rewrite forallb_forall in *. intros c Hin. rewrite N.eqb_sym.
      apply Hafter, in_rev, Hin.
Qed.


Lemma re_search_array_brackets (content json_match : pystr) :
  re_search_array content = Some json_match ->
  exists inside, json_match = ch "[" :: inside ++ [ch "]"].
Proof.
  unfold re_search_array.
  destruct (drop_until (N.eqb (ch "[")) content) as [|open t] eqn:Hopen; [discriminate|].
  destruct (drop_until_found _ _ _ _ Hopen) as (before & _ & _ & Hc).
  apply N.eqb_eq in Hc. subst open.
  destruct (drop_until (N.eqb (ch "]")) (rev t)) as [|close r] eqn:Hclose; [discriminate|].
  cbn [rev]. destruct (rev r ++ [close]) as [|m0 m] eqn:Hm; [destruct (rev r); discriminate|].
  rewrite <- Hm. intros [= <-].
  destruct (drop_until_found _ _ _ _ Hclose) as (after & _ & _ & Hc).
  apply N.eqb_eq in Hc. subst close. exists (rev r). reflexivity.
Qed.

(** *** [json.loads] on the text the search matched *)

Lemma parse_array_S (f : nat) (acc : list json) (s : pystr) :
  parse_array (S f) acc s
  = match scan_once f s with
    | Parsed _ v rest =>
        match skip_ws rest with
        | c :: r =>
            if c =? ch "]" then Parsed _ (JArr (rev (v :: acc))) r
            else if c =? ch "," then parse_array f (v :: acc) (skip_ws r)
            else Malformed _
        | [] => Malformed _
        end
    | Malformed _ => Malformed _
    | OutOfFuel _ => OutOfFuel _
    end.
Proof. reflexivity. Qed.

Lemma parse_array_is_array (fuel : nat) (acc : list json) (s : pystr) (v : json) (rest : pystr) :
  parse_array fuel acc s = Parsed _ v rest -> exists items, v = JArr items.
Proof.
  revert acc s. induction fuel as [|f IH]; intros acc s; [discriminate|].
  rewrite parse_array_S. destruct (scan_once f s) as [x r| |]; try discriminate.
  destruct (skip_ws r) as [|c r']; [discriminate|].
  destruct (c =? ch "]"); [intros [= <- _]; eauto|].
  destruct (c =? ch ","); [apply IH|discriminate].
Qed.

Lemma json_loads_bracket (inside : pystr) (v : json) :
  json_loads (ch "[" :: inside) = Ok v -> exists items, v = JArr items.
Proof.
  unfold json_loads. change (ch "[") with 91. cbn [skip_ws is_json_space N.eqb Pos.eqb orb].
  destruct (2 * length (91%N :: inside) + 1)%nat as [|f] eqn:Hf; [discriminate|].
  change (scan_once (S f) (91 :: inside))
    with (match skip_ws inside with
          | c' :: r' =>
              if c' =? ch "]" then Parsed _ (JArr []) r' else parse_array f [] (c' :: r')
          | [] => Malformed _
          end).
  destruct (skip_ws inside) as [|c' r']; [discriminate|].
  destruct (c' =? ch "]").
  - destruct (skip_ws r'); [intros [= <-]; eauto|discriminate].
  - destruct (parse_array f [] (c' :: r')) as [x rest| |] eqn:E; try discriminate.
    destruct (skip_ws rest); [|discriminate]. intros [= <-].
    exact (parse_array_is_array _ _ _ _ _ E).
Qed.

(** *** [extract_areas_with_llm] *)

(** X3.  The decomposer makes one request, writes no file and always returns
    a JSON array, so the loop over [areas_data] cannot fail to iterate. *)
Theorem extract_areas_returns_array (country area : json) (st : state) :
  exists w items,
    extract_areas_with_llm country area st
    = (State w (checkpoint_dir st) (output_file st) (log st ++ [EvDecompose country area]),
       Ok (JArr items)).
Proof.
  rewrite extract_areas_with_llm_eq.
  assert (exists items,
            areas_of country area (chat_completions_create (world st) country area).1
            = JArr items) as (items & ->); [|eauto].
  unfold areas_of, original_area.
  destruct (chat_completions_create (world st) country area).1 as [|[content|]]; eauto.
  destruct (re_search_array (strip content)) as [m|] eqn:Hm; eauto.
  destruct (re_search_array_brackets _ _ Hm) as (inside & ->).
  destruct (json_loads _) as [v|] eqn:Hv; eauto.
  destruct (json_loads_bracket _ _ Hv) as (items & ->). cbn [py_len]. eauto.
Qed.

(** X4.  When the request raises, the reply has no content, the content holds
    no bracketed text or the bracketed text is not JSON, the decomposer
    returns the one fragment [{country, area}] it was given. *)
Theorem extract_areas_fallback (country area : json) (st : state) :
  let reply := (chat_completions_create (world st) country area).1 in
  reply = LlmRaises \/ reply = LlmContent None \/
  (exists content,
     reply = LlmContent (Some content) /\
     (re_search_array (strip content) = None \/
      exists json_match e,
        re_search_array (strip content) = Some json_match /\ json_loads json_match = Raise e)) ->
  (extract_areas_with_llm country area st).2
  = Ok (JArr [JObj [(u "country", country); (u "area", area)]]).
Proof.
  intros reply Hreply. rewrite extract_areas_with_llm_eq. cbn [snd]. f_equal.
  unfold areas_of. fold reply.
  destruct Hreply as [-> | [-> | (content & -> & [-> | (m & e & -> & ->)])]]; reflexivity.
Qed.

(** *** [get_coordinates] *)

(** X5.  Of the candidates the search returns only the first is read: when it
    is an object whose [lat] and [lon] convert to float, these are the
    coordinates, whatever the other candidates are; and coordinates other
    than the null pair are only returned for such a reply. *)
Theorem get_coordinates_reads_first_candidate (area country : json) (st : state) :
  let reply := (requests_get (world st) area country).1 in
  (forall candidate others lat lon latitude longitude,
     reply = Response true (Some (JArr (JObj candidate :: others))) ->
     dict_get candidate (u "lat") = Some lat ->
     dict_get candidate (u "lon") = Some lon ->
     py_float lat = Ok latitude ->
     py_float lon = Ok longitude ->
     (get_coordinates area country st).2
     = Ok (JObj [(u "latitude", JFloat latitude); (u "longitude", JFloat longitude)])) /\
  (forall coords,
     (get_coordinates area country st).2 = Ok coords ->
     coords <> null_coordinates ->
     exists results first lat lon latitude longitude,
       reply = Response true (Some results) /\
       getitem results (SubInt 0) = Ok first /\
       getitem first (SubStr (u "lat")) = Ok lat /\
       getitem first (SubStr (u "lon")) = Ok lon /\
       py_float lat = Ok latitude /\ py_float lon = Ok longitude /\
       coords = JObj [(u "latitude", JFloat latitude); (u "longitude", JFloat longitude)]).
Proof.
  intros reply. rewrite get_coordinates_eq. cbn [snd]. fold reply. split.
  - intros candidate others lat lon latitude longitude -> Hlat Hlon Hx Hy.
    assert (getitem (JArr (JObj candidate :: others)) (SubInt 0) = Ok (JObj candidate))
      as H0 by reflexivity.
    assert (getitem (JObj candidate) (SubStr (u "lat")) = Ok lat)
      as H1 by (cbn [getitem]; rewrite Hlat; reflexivity).
    assert (getitem (JObj candidate) (SubStr (u "lon")) = Ok lon)
      as H2 by (cbn [getitem]; rewrite Hlon; reflexivity).
    unfold coordinates_of, read_coordinates.
    change (truthy (JArr (JObj candidate :: others))) with true.
    unfold mbind, result_bind. rewrite H0, H1, Hx, H2, Hy. reflexivity.
  - intros coords [= <-] Hnot. unfold coordinates_of in *.
    destruct reply as [|[|] [results|]]; try (exfalso; apply Hnot; reflexivity).
    unfold read_coordinates in *.
    destruct (truthy results); [|exfalso; apply Hnot; reflexivity].
    unfold mbind, result_bind in *.
    destruct (getitem results (SubInt 0)) as [first|] eqn:E0;
      [|exfalso; apply Hnot; reflexivity].
    destruct (getitem first (SubStr (u "lat"))) as [lat|] eqn:E1;
      [|exfalso; apply Hnot; reflexivity].
    destruct (py_float lat) as [x|] eqn:E2; [|exfalso; apply Hnot; reflexivity].
    destruct (getitem first (SubStr (u "lon"))) as [lon|] eqn:E3;
      [|exfalso; apply Hnot; reflexivity].
    destruct (py_float lon) as [y|] eqn:E4; [|exfalso; apply Hnot; reflexivity].
    exists results, first, lat, lon, x, y. repeat split; assumption || reflexivity.
Qed.


(** *** The checkpoint directory and the output file *)

Lemma preserves_checkpoints_refl (dir : gmap pystr file) : preserves_checkpoints dir dir.
Proof. intros h. auto. Qed.

Lemma preserves_checkpoints_trans (dir1 dir2 dir3 : gmap pystr file) :
  preserves_checkpoints dir1 dir2 -> preserves_checkpoints dir2 dir3 ->
  preserves_checkpoints dir1 dir3.
Proof.
  intros H12 H23 h. destruct (H12 h) as [Hs12 Hc12], (H23 h) as [Hs23 Hc23].
  split; [auto|]. intros Hc. rewrite <- (Hc12 Hc). apply Hc23.
  rewrite (cached_lookup dir1) by (apply Hc12, Hc). exact Hc.
Qed.

Lemma process_finding_files (finding : json) (st : state) :
  preserves_checkpoints (checkpoint_dir st) (checkpoint_dir (process_finding finding st).1) /\
  exists entries, output_file (process_finding finding st).1 = output_file st ++ entries.
Proof.
  assert (preserves_checkpoints (checkpoint_dir st) (checkpoint_dir st) /\
          exists entries : list json, output_file st = output_file st ++ entries) as Hsame.
  { split; [apply preserves_checkpoints_refl|]. exists []. rewrite app_nil_r. reflexivity. }
  destruct (get_finding_hash finding) as [h|e] eqn:Hh.
  2:{ unfold process_finding. rewrite Hh, bind_lift. apply Hsame. }
  destruct (truthy (cached (checkpoint_dir st) h)) eqn:Hc.
  - rewrite (process_finding_hit _ _ _ Hh Hc).
    destruct (getitem _ _ ≫= iterate) as [entries|e]; [|apply Hsame].
    cbn [fst checkpoint_dir output_file]. split; [apply preserves_checkpoints_refl|eauto].
  - rewrite (process_finding_miss _ _ _ Hh Hc).
    pose proof (quiet_expand_records finding st) as (Hdir & Hout & _).
    destruct (expand_records finding st) as [st1 [records|e]]; cbn [fst] in *.
    + cbn [checkpoint_dir output_file]. rewrite Hdir, Hout. split; [|eauto].
      intros h'. destruct (decide (h' = h)) as [->|Hne].
      * split; [intros _; rewrite lookup_insert_eq; eauto|]. rewrite Hc. discriminate.
      * rewrite lookup_insert_ne by congruence. auto.
    + rewrite Hdir, Hout. apply Hsame.
Qed.

Lemma run_files (findings : list json) (st : state) :
  preserves_checkpoints (checkpoint_dir st) (checkpoint_dir (run findings st).1) /\
  exists entries, output_file (run findings st).1 = output_file st ++ entries.
Proof.
  revert st. induction findings as [|f findings IH]; intros st.
  - split; [apply preserves_checkpoints_refl|]. exists []. simpl. rewrite app_nil_r. reflexivity.
  - rewrite run_cons. destruct (process_finding_files f st) as (Hdir & entries & Hout).
    destruct (process_finding f st) as [st1 [[]|e]]; cbn [fst] in *; [|eauto].
    destruct (IH st1) as (Hdir' & entries' & Hout').
    split; [eapply preserves_checkpoints_trans; eassumption|].
    exists (entries ++ entries'). rewrite Hout', Hout, app_assoc. reflexivity.
Qed.

(** X7.  A run never removes a checkpoint file and never changes a usable
    checkpoint, whether it completes or raises. *)
Theorem run_keeps_checkpoints (findings : list json) (st : state) (h : pystr) :
  (is_Some (checkpoint_dir st !! h) -> is_Some (checkpoint_dir (run findings st).1 !! h)) /\
  (truthy (cached (checkpoint_dir st) h) = true ->
   checkpoint_dir (run findings st).1 !! h = checkpoint_dir st !! h).
Proof. exact (proj1 (run_files findings st) h). Qed.

(** X8.  The output file only grows: what it held before a run is a prefix of
    what it holds after, whether the run completes or raises. *)
Theorem run_only_appends (findings : list json) (st : state) :
  exists entries, output_file (run findings st).1 = output_file st ++ entries.
Proof. exact (proj2 (run_files findings st)). Qed.

(** X9.  A file that cannot be loaded, or holds a falsy value, counts as no
    checkpoint: the finding is expanded again and the file is replaced by the
    new checkpoint. *)
Theorem unusable_checkpoint_is_replaced (finding : json) (h : pystr) (st st' : state) :
  get_finding_hash finding = Ok h ->
  (checkpoint_dir st !! h = Some Unreadable \/
   exists v, checkpoint_dir st !! h = Some (FileJson v) /\ truthy v = false) ->
  process_finding finding st = (st', Ok ()) ->
  exists records,
    checkpoint_dir st' !! h = Some (checkpoint_of finding records) /\
    output_file st' = output_file st ++ records.
Proof.
  intros Hh Hfile Hrun.
  assert (cache_miss st h) as Hmiss.
  { unfold cache_miss, cached. destruct Hfile as [-> | (v & -> & Hv)]; [reflexivity|exact Hv]. }
  rewrite (process_finding_miss _ _ _ Hh Hmiss) in Hrun.
  pose proof (quiet_expand_records finding st) as (_ & Hout & _).
  destruct (expand_records finding st) as [st1 [records|e]] eqn:Hexp; [|discriminate].
  injection Hrun as <-. exists records. cbn [checkpoint_dir output_file log fst] in *.
  split; [apply lookup_insert_eq|rewrite Hout; reflexivity].
Qed.


(** X11.  A non-empty checkpoint object without the key ["processed"] is taken
    for a hit and raises [KeyError]: the run stops without a request or a
    write. *)
Theorem checkpoint_without_processed_halts (finding : json) (h : pystr) (st : state)
    (fields : list (pystr * json)) (rest : list json) :
  get_finding_hash finding = Ok h ->
  checkpoint_dir st !! h = Some (FileJson (JObj fields)) ->
  fields <> [] ->
  dict_get fields (u "processed") = None ->
  run (finding :: rest) st = (st, Raise (KeyError (SubStr (u "processed")))).
Proof.
  intros Hh Hfile Hne Hnone.
  assert (cached (checkpoint_dir st) h = JObj fields) as Hc.
  { unfold cached. rewrite Hfile. reflexivity. }
  rewrite run_cons, (process_finding_hit _ _ _ Hh); rewrite Hc.
  - cbn [getitem]. rewrite Hnone. reflexivity.
  - destruct fields; [congruence|reflexivity].
Qed.


(** *** Requests per finding *)

Lemma geocodings_app (evs1 evs2 : list event) :
  geocodings (evs1 ++ evs2) = (geocodings evs1 + geocodings evs2)%nat.
Proof. unfold geocodings. rewrite List.filter_app, length_app. reflexivity. Qed.

Lemma geocodings_requests (queries : list (json * json)) :
  geocodings (map geocode_event queries) = length queries /\
  decompositions (map geocode_event queries) = 0%nat /\
  saves (map geocode_event queries) = 0%nat.
Proof.
  unfold geocodings, decompositions, saves.
  induction queries as [|q queries (IH1 & IH2 & IH3)]; simpl; auto.
Qed.

Lemma geocodings_appends (entries : list json) : geocodings (map EvAppend entries) = 0%nat.
Proof. unfold geocodings. induction entries; simpl; auto. Qed.

(** X12.  An expansion makes one decomposition request and one geocoding
    request per record, so an area is looked up once for each host it is
    combined with; it saves one checkpoint.  The fragments hold no character
    that cannot be encoded, on which the expansion would stop before the
    checkpoint. *)
Theorem one_geocoding_per_record (finding : json) (h : pystr) (st : state)
    (hosts frags : list json) :
  get_finding_hash finding = Ok h ->
  cache_miss st h ->
  has_required_fields finding = true ->
  atomic_hosts (field "host_species" finding) = Ok hosts ->
  areas_of (field "country" finding) (field "area" finding)
    (chat_completions_create (world st) (field "country" finding) (field "area" finding)).1
  = JArr frags ->
  forallb is_fragment frags = true ->
  forallb encodable frags = true ->
  exists st' evs,
    process_finding finding st = (st', Ok ()) /\
    log st' = log st ++ evs /\
    decompositions evs = 1%nat /\
    geocodings evs = (length hosts * length frags)%nat /\
    saves evs = 1%nat /\
    length (appended evs) = (length hosts * length frags)%nat.
Proof.
  intros Hh Hmiss Hf Hhosts Hareas Hfrags _.
  pose proof (process_finding_expands _ _ _ _ _ Hh Hmiss Hf Hhosts Hareas Hfrags) as Hrun.
  cbv zeta in Hrun. eexists _, _. split; [exact Hrun|]. cbn [log]. split; [reflexivity|].
  set (pairs := list_prod hosts frags).
  destruct (geocodings_requests (pair_queries pairs)) as (Hg & Hd & Hs).
  assert (length (pair_queries pairs) = (length hosts * length frags)%nat) as Hlen.
  { unfold pair_queries, pairs. rewrite length_map, length_prod. reflexivity. }
  change (EvDecompose ?c ?a :: ?l) with ([EvDecompose c a] ++ l).
  change (EvSave ?c ?a :: ?l) with ([EvSave c a] ++ l).
  rewrite !decompositions_app, !geocodings_app, !saves_app, !appended_app.
  rewrite Hg, Hd, Hs, decompositions_appends, geocodings_appends, saves_appends,
    appended_appends, Hlen.
  rewrite (appended_calls (map geocode_event (pair_queries pairs))).
  2:{ clear. induction (pair_queries pairs); simpl; auto. }
  cbn. rewrite records_length by apply expansion_replies_length.
  unfold pairs. rewrite length_prod. repeat split; lia.
Qed.

(** X13.  A [host_species] that is not a string is kept as the single host when
    it is falsy ([null], [0], [false], an empty list or object); when it is
    truthy, [re.split] raises [TypeError] and the run stops before any
    request. *)
Theorem host_species_of_other_type (finding : json) (h : pystr) (st : state)
    (rest : list json) :
  (truthy (field "host_species" finding) = false ->
   atomic_hosts (field "host_species" finding) = Ok [field "host_species" finding]) /\
  (get_finding_hash finding = Ok h ->
   cache_miss st h ->
   has_required_fields finding = true ->
   truthy (field "host_species" finding) = true ->
   (forall s, field "host_species" finding <> JStr s) ->
   run (finding :: rest) st = (st, Raise TypeError)).
Proof.
  split.
  - intros Hfalsy. unfold atomic_hosts, split_species. rewrite Hfalsy. reflexivity.
  - intros Hh Hmiss Hf Htruthy Hother.
    destruct (has_required_fields_getitem _ Hf) as (H1 & H2 & H3 & H4 & H5 & H6).
    assert (atomic_hosts (field "host_species" finding) = Raise TypeError) as Hhosts.
    { unfold atomic_hosts, split_species. rewrite Htruthy. cbn [negb].
      destruct (field "host_species" finding); try reflexivity. exfalso. eapply Hother. reflexivity. }
    rewrite run_cons, (process_finding_miss _ _ _ Hh Hmiss). unfold expand_records.
    rewrite H1, bind_lift, H2, bind_lift, H3, bind_lift, H4, bind_lift, H5, bind_lift,
      H6, bind_lift, Hhosts, bind_lift. reflexivity.
Qed.

(** *** The digest *)

Lemma le_bytes_bytes (n : nat) (x : N) :
  length (MD5.le_bytes n x) = n /\ Forall (fun b => b < 256) (MD5.le_bytes n x).
Proof.
  revert x. induction n as [|n IH]; intros x; simpl; [auto|].
  destruct (IH (N.shiftr x 8)) as [Hlen Hall]. split; [congruence|].
  constructor; [|exact Hall].
  change 255 with (N.ones 8). rewrite N.land_ones. apply N.mod_lt. discriminate.
Qed.

Lemma digest_bytes (msg : list N) :
  length (MD5.digest msg) = 16%nat /\ Forall (fun b => b < 256) (MD5.digest msg).
Proof.
  unfold MD5.digest. destruct (fold_left _ _ _) as [[[a b] c] d].
  pose proof (le_bytes_bytes 4 a) as [La Fa]. pose proof (le_bytes_bytes 4 b) as [Lb Fb].
  pose proof (le_bytes_bytes 4 c) as [Lc Fc]. pose proof (le_bytes_bytes 4 d) as [Ld Fd].
  split.
  - rewrite !length_app. lia.
  - repeat (apply Forall_app; split); assumption.
Qed.

Lemma hex_digit_is_hex (n : N) : n < 16 -> is_hex (MD5.hex_digit n).
Proof.
  intros Hn. unfold MD5.hex_digit, is_hex. destruct (N.ltb_spec n 10); lia.
Qed.

(** X14.  A digest is 32 characters long, each a decimal digit or a letter from
    [a] to [f]; the only exception [get_finding_hash] raises is
    [UnicodeEncodeError]. *)
Theorem get_finding_hash_is_hex (finding : json) :
  match get_finding_hash finding with
  | Ok h => length h = 32%nat /\ Forall is_hex h
  | Raise e => e = UnicodeEncodeError
  end.
Proof.
  unfold get_finding_hash. destruct (utf8_encode (json_dumps finding)) as [bytes|]; [|reflexivity].
  unfold MD5.hexdigest. destruct (digest_bytes bytes) as [Hlen Hall].
  revert Hlen Hall. generalize (MD5.digest bytes) as l. intros l.
  assert (forall l : list N, Forall (fun b => b < 256) l ->
            length (flat_map (fun b => [MD5.hex_digit (N.shiftr b 4); MD5.hex_digit (N.land b 15)]) l)
            = (2 * length l)%nat /\
            Forall is_hex
              (flat_map (fun b => [MD5.hex_digit (N.shiftr b 4); MD5.hex_digit (N.land b 15)]) l))
    as Hhex.
  { clear. induction 1 as [|b l Hb Hl [IH1 IH2]]; simpl; [auto|]. split; [lia|].
    constructor; [|constructor; [|exact IH2]]; apply hex_digit_is_hex.
    - rewrite N.shiftr_div_pow2. apply N.Div0.div_lt_upper_bound. exact Hb.
    - change 15 with (N.ones 4). rewrite N.land_ones. apply N.mod_lt. discriminate. }
  intros Hlen Hall. destruct (Hhex l Hall) as [H1 H2]. split; [lia|exact H2].
Qed.

Lemma reordered_dumps :
  (forall v w, reordered v w -> distinct_keys v = true -> json_dumps v = json_dumps w) /\
  (forall l l', reordered_items l l' -> forallb distinct_keys l = true ->
                map json_dumps l = map json_dumps l') /\
  (forall kvs kvs', reordered_fields kvs kvs' ->
                forallb (fun kv => let '(_, x) := kv in distinct_keys x) kvs = true ->
                map (fun kv => let '(k, x) := kv in (k, json_dumps x)) kvs
                = map (fun kv => let '(k, x) := kv in (k, json_dumps x)) kvs').
Proof.
  apply reordered_mutual.
  - reflexivity.
  - intros l l' _ IH Hd. cbn [json_dumps]. rewrite IH; [reflexivity|exact Hd].
  - intros kvs mid kvs' _ IH Hperm Hd. cbn [distinct_keys] in Hd.
    apply andb_prop in Hd as [Hnd Hd]. apply bool_decide_eq_true in Hnd.
    cbn [json_dumps]. do 4 f_equal. rewrite (IH Hd).
    apply sort_items_permutation.
    + rewrite <- (IH Hd). rewrite map_map.
      erewrite map_ext; [exact Hnd|]. intros [k x]; reflexivity.
    + apply Permutation_map. exact Hperm.
  - reflexivity.
  - intros v w l l' _ IHv _ IHl Hd. cbn [forallb] in Hd. apply andb_prop in Hd as [Hv Hl].
    cbn [map]. rewrite (IHv Hv), (IHl Hl). reflexivity.
  - reflexivity.
  - intros k v w l l' _ IHv _ IHl Hd. cbn [forallb] in Hd. apply andb_prop in Hd as [Hv Hl].
    cbn [map]. rewrite (IHv Hv), (IHl Hl). reflexivity.
Qed.

(** X15.  The digest does not depend on the order of the fields of any object of
    the finding, at any depth. *)
Theorem get_finding_hash_nested_order (v w : json) :
  distinct_keys v = true -> reordered v w -> get_finding_hash v = get_finding_hash w.
Proof.
  intros Hd Hr. unfold get_finding_hash.
  rewrite (proj1 reordered_dumps v w Hr Hd). reflexivity.
Qed.

(** Induction on a value, with the property available for the items of an
    array and the values of an object. *)
Lemma json_nested_ind (P : json -> Prop) :
  P JNull -> (forall b, P (JBool b)) -> (forall n, P (JInt n)) ->
  (forall x, P (JFloat x)) -> (forall s, P (JStr s)) ->
  (forall l, Forall P l -> P (JArr l)) ->
  (forall kvs, Forall (fun kv => P kv.2) kvs -> P (JObj kvs)) ->
  forall v, P v.
Proof.
  intros Hnull Hbool Hint Hfloat Hstr Harr Hobj. fix IH 1. intros [ |b|n|x|s|l|kvs].
  - exact Hnull.
  - apply Hbool.
  - apply Hint.
  - apply Hfloat.
  - apply Hstr.
  - apply Harr.
    exact ((fix items (l : list json) : Forall P l :=
              match l with
              | [] => List.Forall_nil P
              | v :: r => @List.Forall_cons _ P v r (IH v) (items r)
              end) l).
  - apply Hobj.
    exact ((fix fields (kvs : list (pystr * json)) : Forall (fun kv => P kv.2) kvs :=
              match kvs with
              | [] => List.Forall_nil _
              | kv :: r => @List.Forall_cons _ (fun kv => P kv.2) kv r (IH kv.2) (fields r)
              end) kvs).
Qed.

(** *** Which findings have a digest *)

Lemma utf8_encode_some (s : pystr) :
  is_Some (utf8_encode s) <-> forallb encodable_char s = true.
Proof.
  induction s as [|c r IH]; cbn [utf8_encode forallb].
  - split; [reflexivity|eauto].
  - unfold encodable_char at 1. destruct (utf8_char c) as [b|].
    + cbn [andb]. rewrite <- IH. destruct (utf8_encode r); split; eauto.
    + split; [intros [? Hx]; discriminate|discriminate].
Qed.

Lemma ascii_encodable (c : N) : c < 128 -> encodable_char c = true.
Proof.
  intros Hc. unfold encodable_char, utf8_char.
  destruct (N.ltb_spec c 128); [reflexivity|lia].
Qed.

Lemma u_encodable (s : string) : forallb encodable_char (u s) = true.
Proof.
  unfold u. apply forallb_forall. intros c Hc. apply in_map_iff in Hc as (a & <- & _).
  unfold encodable_char, utf8_char, ch. pose proof (N_ascii_bounded a) as Ha.
  destruct (N.ltb_spec (N_of_ascii a) 128); [reflexivity|].
  destruct (N.ltb_spec (N_of_ascii a) 2048); [reflexivity|lia].
Qed.

Lemma escape_char_encodable (c : N) :
  forallb encodable_char (escape_char c) = encodable_char c.
Proof.
  unfold escape_char.
  destruct (N.eqb_spec c dquote) as [->|]; [reflexivity|].
  destruct (N.eqb_spec c backslash) as [->|]; [reflexivity|].
  destruct (N.eqb_spec c 10) as [->|]; [reflexivity|].
  destruct (N.eqb_spec c 13) as [->|]; [reflexivity|].
  destruct (N.eqb_spec c 9) as [->|]; [reflexivity|].
  destruct (N.eqb_spec c 8) as [->|]; [reflexivity|].
  destruct (N.eqb_spec c 12) as [->|]; [reflexivity|].
  destruct (N.ltb_spec c 32) as [Hc|Hc].
  - rewrite (ascii_encodable c) by lia. rewrite forallb_app, u_encodable. cbn [forallb andb].
    assert (N.shiftr c 4 < 2) as H1.
    { rewrite N.shiftr_div_pow2. apply N.Div0.div_lt_upper_bound. exact Hc. }
    assert (N.land c 15 < 16) as H2.
    { change 15 with (N.ones 4). rewrite N.land_ones. apply N.mod_lt. discriminate. }
    rewrite !ascii_encodable; [reflexivity| |]; unfold MD5.hex_digit.
    + destruct (N.land c 15 <? 10); lia.
    + destruct (N.shiftr c 4 <? 10); lia.
  - cbn [forallb]. apply andb_true_r.
Qed.

Lemma encode_basestring_encodable (s : pystr) :
  forallb encodable_char (encode_basestring s) = forallb encodable_char s.
Proof.
  unfold encode_basestring. rewrite !forallb_app. cbn [forallb]. change (encodable_char dquote) with true.
  cbn [andb]. rewrite andb_true_r.
  induction s as [|c r IH]; [reflexivity|]. cbn [flat_map forallb].
  rewrite forallb_app, escape_char_encodable, IH. reflexivity.
Qed.

Lemma join_encodable (parts : list pystr) :
  forallb encodable_char (join (u ", ") parts) = forallb (forallb encodable_char) parts.
Proof.
  induction parts as [|p r IH]; [reflexivity|]. destruct r as [|q r].
  - cbn [join forallb]. rewrite andb_true_r. reflexivity.
  - change (join (u ", ") (p :: q :: r)) with (p ++ u ", " ++ join (u ", ") (q :: r)).
    rewrite !forallb_app, IH, u_encodable. reflexivity.
Qed.

Lemma forallb_permutation {A} (p : A -> bool) (l l' : list A) :
  l ≡ₚ l' -> forallb p l = forallb p l'.
Proof.
  induction 1 as [|x l l' _ IH|x y l|l l' l'' _ IH1 _ IH2]; cbn [forallb].
  - reflexivity.
  - rewrite IH. reflexivity.
  - destruct (p x), (p y); reflexivity.
  - congruence.
Qed.

Lemma json_dumps_encodable (v : json) :
  forallb encodable_char (json_dumps v) = encodable v.
Proof.
  induction v as [ |b|n|x|s|l IH|kvs IH] using json_nested_ind; cbn [json_dumps encodable].
  - reflexivity.
  - destruct b; reflexivity.
  - apply u_encodable.
  - reflexivity.
  - apply encode_basestring_encodable.
  - rewrite !forallb_app, !u_encodable, join_encodable. cbn [andb]. rewrite andb_true_r.
    induction IH as [|v r Hv _ IHr]; [reflexivity|]. cbn [map forallb]. rewrite Hv, IHr. reflexivity.
  - rewrite !forallb_app, !u_encodable, join_encodable. cbn [andb]. rewrite andb_true_r.
    unfold sort_items.
    rewrite (forallb_permutation _ _ _
               (Permutation_map dump_item (merge_sort_Permutation item_le _))).
    induction IH as [|[k x] r Hx _ IHr]; [reflexivity|]. cbn [map forallb].
    rewrite IHr. f_equal. unfold dump_item. cbn [fst snd] in *.
    rewrite !forallb_app, encode_basestring_encodable, u_encodable, Hx. reflexivity.
Qed.

Lemma get_finding_hash_encodable (finding : json) (h : pystr) :
  get_finding_hash finding = Ok h -> encodable finding = true.
Proof.
  intros Hh. rewrite <- json_dumps_encodable. apply utf8_encode_some.
  unfold get_finding_hash in Hh. destruct (utf8_encode (json_dumps finding)); [eauto|discriminate].
Qed.

(** X16.  A finding has a digest exactly when none of its strings, keys
    included, and none of its printed floats holds a character that cannot be
    encoded (a lone surrogate); otherwise [get_finding_hash] raises
    [UnicodeEncodeError]. *)
Theorem get_finding_hash_defined (finding : json) :
  ((exists h, get_finding_hash finding = Ok h) <-> encodable finding = true) /\
  (encodable finding = false -> get_finding_hash finding = Raise UnicodeEncodeError).
Proof.
  rewrite <- json_dumps_encodable.
  assert (is_Some (utf8_encode (json_dumps finding))
          <-> forallb encodable_char (json_dumps finding) = true) as Hsome
    by apply utf8_encode_some.
  unfold get_finding_hash. destruct (utf8_encode (json_dumps finding)) as [bytes|].
  - split; [split; [intros _; apply Hsome|]; eauto|].
    intros Hfalse. assert (forallb encodable_char (json_dumps finding) = true) as Htrue
      by (apply Hsome; eauto). congruence.
  - split; [|reflexivity]. split; [intros [h Hh]; discriminate|].
    intros Htrue. apply Hsome in Htrue as [b Hb]. discriminate.
Qed.

(** *** What the parser builds *)

Lemma match_number_atom (s : pystr) (v : json) (rest : pystr) :
  match_number s = Parsed _ v rest -> (exists n, v = JInt n) \/ (exists x, v = JFloat x).
Proof.
  unfold match_number.
  repeat match goal with
         | |- context [let '(_, _) := ?x in _] => destruct x
         | |- context [match ?x with _ => _ end] => destruct x
         end; intros Heq; try discriminate; injection Heq as <- _; eauto.
Qed.

Lemma dict_set_keys (kvs : list (pystr * json)) (k : pystr) (v : json) :
  map fst (dict_set kvs k v) = map fst kvs \/
  ((k ∉ map fst kvs) /\ map fst (dict_set kvs k v) = map fst kvs ++ [k]).
Proof.
  induction kvs as [|[k' v'] r IH]; cbn [dict_set].
  - right. split; [apply not_elem_of_nil|reflexivity].
  - case_bool_decide as Hk; [left; reflexivity|].
    destruct IH as [IH|[Hnot IH]]; [left|right]; cbn [map fst]; rewrite IH; [reflexivity|].
    split; [|reflexivity]. intros Hin. apply elem_of_cons in Hin as [->|Hin]; [now apply Hk|auto].
Qed.

Lemma dict_set_distinct (kvs : list (pystr * json)) (k : pystr) (v : json) :
  distinct_keys (JObj kvs) = true -> distinct_keys v = true ->
  distinct_keys (JObj (dict_set kvs k v)) = true.
Proof.
  cbn [distinct_keys]. intros Hd Hv. apply andb_prop in Hd as [Hnd Hd].
  apply bool_decide_eq_true in Hnd. apply andb_true_intro. split.
  - apply bool_decide_eq_true.
    destruct (dict_set_keys kvs k v) as [->|[Hnot ->]]; [exact Hnd|].
    apply NoDup_app. split; [exact Hnd|]. split; [|apply NoDup_singleton].
    intros x Hx Hx'. apply list_elem_of_singleton in Hx' as ->. auto.
  - clear Hnd. induction kvs as [|[k' v'] r IH]; cbn [dict_set forallb] in *.
    + rewrite Hv. reflexivity.
    + apply andb_prop in Hd as [Hv' Hr]. case_bool_decide; cbn [forallb].
      * rewrite Hv, Hr. reflexivity.
      * rewrite Hv', (IH Hr). reflexivity.
Qed.

Lemma parser_distinct_keys (fuel : nat) :
  (forall s v rest, scan_once fuel s = Parsed _ v rest -> distinct_keys v = true) /\
  (forall acc s v rest, forallb distinct_keys acc = true ->
     parse_array fuel acc s = Parsed _ v rest -> distinct_keys v = true) /\
  (forall acc s v rest, distinct_keys (JObj acc) = true ->
     parse_object fuel acc s = Parsed _ v rest -> distinct_keys v = true).
Proof.
  induction fuel as [|f (IHs & IHa & IHo)]; [repeat split; intros; discriminate|].
  repeat split.
  - intros s v rest. cbn [scan_once]. destruct s as [|c r]; [discriminate|].
    destruct (c =? dquote).
    { destruct (scan_string r []); cbn [parsed_map]; intros Heq; try discriminate.
      injection Heq as <- _. reflexivity. }
    destruct (c =? ch "{").
    { destruct (skip_ws r) as [|c' r']; [discriminate|]. destruct (c' =? ch "}").
      - intros Heq. injection Heq as <- _. reflexivity.
      - apply IHo. reflexivity. }
    destruct (c =? ch "[").
    { destruct (skip_ws r) as [|c' r']; [discriminate|]. destruct (c' =? ch "]").
      - intros Heq. injection Heq as <- _. reflexivity.
      - apply IHa. reflexivity. }
    repeat match goal with
           | |- context [match strip_prefix ?p ?t with _ => _ end] => destruct (strip_prefix p t)
           end; try (intros Heq; injection Heq as <- _; reflexivity).
    intros Heq. apply match_number_atom in Heq as [[n ->]|[x ->]]; reflexivity.
  - intros acc s v rest Hacc. cbn [parse_array].
    destruct (scan_once f s) as [x rest'| |] eqn:Hx; try discriminate.
    apply IHs in Hx.
    assert (forallb distinct_keys (x :: acc) = true) as Hacc'
      by (cbn [forallb]; rewrite Hx, Hacc; reflexivity).
    destruct (skip_ws rest') as [|c r]; [discriminate|]. destruct (c =? ch "]").
    { intros Heq. injection Heq as <- _. cbn [distinct_keys].
      rewrite forallb_forall. intros y Hy.
      rewrite forallb_forall in Hacc'. apply Hacc'. apply in_rev. exact Hy. }
    destruct (c =? ch ","); [|discriminate]. apply IHa. exact Hacc'.
  - intros acc s v rest Hacc. cbn [parse_object].
    destruct s as [|q r]; [discriminate|]. destruct (q =? dquote); [|discriminate].
    destruct (scan_string r []) as [key rest1| |]; try discriminate.
    destruct (skip_ws rest1) as [|colon r1]; [discriminate|].
    destruct (colon =? ch ":"); [|discriminate].
    destruct (scan_once f (skip_ws r1)) as [x rest'| |] eqn:Hx; try discriminate.
    apply IHs in Hx. pose proof (dict_set_distinct acc key x Hacc Hx) as Hacc'.
    destruct (skip_ws rest') as [|c r2]; [discriminate|]. destruct (c =? ch "}").
    { intros Heq. injection Heq as <- _. exact Hacc'. }
    destruct (c =? ch ","); [|discriminate]. apply IHo. exact Hacc'.
Qed.

(** X17.  In whatever [json.loads] returns, the keys of every object are
    pairwise distinct: of a repeated key the text's last value is kept. *)
Theorem json_loads_distinct_keys (s : pystr) (v : json) :
  json_loads s = Ok v -> distinct_keys v = true.
Proof.
  unfold json_loads. intros Hv.
  assert (match scan_once (2 * length s + 1) (skip_ws s) with
          | Parsed _ v' rest => match skip_ws rest with [] => Ok v' | _ :: _ => Raise JSONDecodeError end
          | _ => Raise JSONDecodeError
          end = Ok v) as Hv'.
  { destruct s as [|c r]; [exact Hv|]. destruct c as [|p]; [exact Hv|].
    revert Hv. generalize (scan_once (2 * length (N.pos p :: r) + 1) (skip_ws (N.pos p :: r))).
    intros sc. repeat (destruct p as [p|p|]; try (intros Hv; exact Hv)); discriminate. }
  destruct (scan_once _ _) as [v' rest| |] eqn:Hs; try discriminate.
  destruct (skip_ws rest); [|discriminate]. injection Hv' as <-.
  exact (proj1 (parser_distinct_keys _) _ _ _ Hs).
Qed.

(** *** Strings are read back *)

Lemma hex_value_hex_digit (n : N) : n < 16 -> hex_value (MD5.hex_digit n) = Some n.
Proof.
  intros Hn. unfold hex_value, MD5.hex_digit, is_digit.
  destruct (N.ltb_spec n 10).
  - replace ((48 <=? 48 + n) && (48 + n <=? 57)) with true.
    + f_equal. lia.
    + symmetry. apply andb_true_intro. split; apply N.leb_le; lia.
  - replace ((48 <=? 87 + n) && (87 + n <=? 57)) with false.
    + replace ((97 <=? 87 + n) && (87 + n <=? 102)) with true.
      * f_equal. lia.
      * symmetry. apply andb_true_intro. split; apply N.leb_le; lia.
    + symmetry. apply andb_false_intro2. apply N.leb_gt. lia.
Qed.

Lemma scan_string_escape (c : N) (tail acc : pystr) :
  scan_string (escape_char c ++ tail) acc = scan_string tail (c :: acc).
Proof.
  unfold escape_char.
  destruct (N.eqb_spec c dquote) as [->|Hq]; [reflexivity|].
  destruct (N.eqb_spec c backslash) as [->|Hb]; [reflexivity|].
  destruct (N.eqb_spec c 10) as [->|]; [reflexivity|].
  destruct (N.eqb_spec c 13) as [->|]; [reflexivity|].
  destruct (N.eqb_spec c 9) as [->|]; [reflexivity|].
  destruct (N.eqb_spec c 8) as [->|]; [reflexivity|].
  destruct (N.eqb_spec c 12) as [->|]; [reflexivity|].
  destruct (N.ltb_spec c 32) as [Hc|Hc].
  - assert (N.shiftr c 4 < 16) as H1.
    { rewrite N.shiftr_div_pow2. apply N.Div0.div_lt_upper_bound. change (2 ^ 4 * 16) with 256. lia. }
    assert (N.land c 15 < 16) as H2.
    { change 15 with (N.ones 4). rewrite N.land_ones. apply N.mod_lt. discriminate. }
    assert (N.shiftr c 4 * 16 + N.land c 15 = c) as Hsum.
    { change 15 with (N.ones 4). rewrite N.land_ones, N.shiftr_div_pow2.
      change (2 ^ 4) with 16. pose proof (N.div_mod c 16). lia. }
    change (u "\u00" ++ [MD5.hex_digit (N.shiftr c 4); MD5.hex_digit (N.land c 15)])
      with [backslash; ch "u"; 48; 48; MD5.hex_digit (N.shiftr c 4); MD5.hex_digit (N.land c 15)].
    cbn [app scan_string]. change (backslash =? dquote) with false.
    rewrite N.eqb_refl. cbv iota. rewrite N.eqb_refl. cbv iota.
    unfold hex4. change (hex_value 48) with (Some 0).
    rewrite (hex_value_hex_digit _ H1), (hex_value_hex_digit _ H2).
    replace (((0 * 16 + 0) * 16 + N.shiftr c 4) * 16 + N.land c 15) with c by lia.
    unfold is_high_surrogate. replace (55296 <=? c) with false; [reflexivity|].
    symmetry. apply N.leb_gt. lia.
  - cbn [app scan_string].
    destruct (N.eqb_spec c dquote); [contradiction|].
    destruct (N.eqb_spec c backslash); [contradiction|].
    destruct (N.ltb_spec c 32); [lia|]. reflexivity.
Qed.

Lemma scan_string_encoded (s rest acc : pystr) :
  scan_string (flat_map escape_char s ++ dquote :: rest) acc = Parsed _ (rev acc ++ s) rest.
Proof.
  revert acc. induction s as [|c r IH]; intros acc.
  - cbn [flat_map app scan_string]. rewrite N.eqb_refl, app_nil_r. reflexivity.
  - cbn [flat_map]. rewrite <- app_assoc, scan_string_escape, IH.
    cbn [rev]. rewrite <- app_assoc. reflexivity.
Qed.

(** *** Numbers are read back *)

(** [match_number], stage by stage. *)
Lemma match_number_eq (s : pystr) :
  match_number s =
  let '(sign, s1) := number_sign s in
  match s1 with
  | [] => Malformed _
  | d :: r =>
      if negb (is_digit d) then Malformed _
      else
        let '(int_digits, s2) := number_int d r in
        let '(frac, s3) := number_frac s2 in
        let '(expo, s4) := number_expo s3 in
        number_result sign int_digits frac expo s4
  end.
Proof. reflexivity. Qed.

Lemma number_result_eq (sign int_digits frac expo rest : pystr) :
  number_result sign int_digits frac expo rest
  = Parsed _ (number_value sign int_digits frac expo) rest.
Proof. destruct frac, expo; reflexivity. Qed.

Lemma delimited_head (c : N) (r : pystr) :
  delimited (c :: r) = true -> number_char c = false.
Proof.
  cbn [delimited]. unfold is_json_space. intros Hc.
  repeat (apply orb_prop in Hc as [Hc|Hc]);
    apply N.eqb_eq in Hc; subst c; reflexivity.
Qed.

Lemma number_char_digit (c : N) : number_char c = false -> is_digit c = false.
Proof. unfold number_char. destruct (is_digit c); [discriminate|reflexivity]. Qed.

Lemma number_char_parts (c : N) :
  number_char c = false ->
  is_digit c = false /\ (c =? ch "-") = false /\ (c =? ch "+") = false /\
  (c =? ch ".") = false /\ (c =? ch "e") = false /\ (c =? ch "E") = false.
Proof.
  unfold number_char.
  destruct (is_digit c), (c =? ch "-"), (c =? ch "+"), (c =? ch "."), (c =? ch "e"), (c =? ch "E");
    try discriminate; intros _; repeat split.
Qed.

Lemma span_digits_split (r : pystr) :
  r = (span_digits r).1 ++ (span_digits r).2 /\ forallb is_digit (span_digits r).1 = true.
Proof.
  induction r as [|c r [IH1 IH2]]; [split; reflexivity|]. cbn [span_digits].
  destruct (is_digit c) eqn:Hc; [|split; reflexivity].
  destruct (span_digits r) as [ds rest]. cbn [fst snd] in *. split.
  - cbn [app]. f_equal. exact IH1.
  - cbn [forallb]. rewrite Hc, IH2. reflexivity.
Qed.

Lemma span_digits_stop (rest : pystr) : delimited rest = true -> span_digits rest = ([], rest).
Proof.
  destruct rest as [|c r]; [reflexivity|]. intros Hd%delimited_head%number_char_digit.
  cbn [span_digits]. rewrite Hd. reflexivity.
Qed.

Lemma span_digits_app (r rest : pystr) :
  delimited rest = true ->
  span_digits (r ++ rest) = ((span_digits r).1, (span_digits r).2 ++ rest).
Proof.
  intros Hd. induction r as [|c r IH]; cbn [app].
  - rewrite (span_digits_stop rest Hd). reflexivity.
  - cbn [span_digits]. destruct (is_digit c); [|reflexivity].
    rewrite IH. destruct (span_digits r). reflexivity.
Qed.

Lemma number_sign_app (s rest : pystr) :
  delimited rest = true ->
  number_sign (s ++ rest) = ((number_sign s).1, (number_sign s).2 ++ rest).
Proof.
  intros Hd. destruct s as [|c r]; cbn [app number_sign].
  - destruct rest as [|c r]; [reflexivity|]. cbn [number_sign].
    apply delimited_head, number_char_parts in Hd as (_ & -> & _). reflexivity.
  - destruct (c =? ch "-"); reflexivity.
Qed.

Lemma number_sign_split (s : pystr) :
  s = (number_sign s).1 ++ (number_sign s).2 /\ forallb number_char (number_sign s).1 = true.
Proof.
  destruct s as [|c r]; [split; reflexivity|]. cbn [number_sign].
  destruct (N.eqb_spec c (ch "-")) as [->|]; split; reflexivity.
Qed.

Lemma number_int_app (d : N) (r rest : pystr) :
  delimited rest = true ->
  number_int d (r ++ rest) = ((number_int d r).1, (number_int d r).2 ++ rest).
Proof.
  intros Hd. unfold number_int. destruct (d =? 48); [reflexivity|].
  rewrite (span_digits_app r rest Hd). destruct (span_digits r). reflexivity.
Qed.

Lemma digits_number_chars (ds : pystr) :
  forallb is_digit ds = true -> forallb number_char ds = true.
Proof.
  induction ds as [|c r IH]; [reflexivity|]. cbn [forallb]. intros [Hc Hr]%andb_prop.
  unfold number_char at 1. rewrite Hc, (IH Hr). reflexivity.
Qed.

Lemma number_int_split (d : N) (r : pystr) :
  is_digit d = true ->
  d :: r = (number_int d r).1 ++ (number_int d r).2 /\
  forallb number_char (number_int d r).1 = true.
Proof.
  intros Hd. unfold number_int.
  assert (number_char d = true) as Hd' by (unfold number_char; rewrite Hd; reflexivity).
  destruct (d =? 48).
  - split; [reflexivity|]. cbn [fst forallb]. rewrite Hd'. reflexivity.
  - destruct (span_digits_split r) as [H1 H2]. destruct (span_digits r) as [ds rest].
    cbn [fst snd] in *. split.
    + cbn [app]. f_equal. exact H1.
    + cbn [forallb]. rewrite Hd', (digits_number_chars _ H2). reflexivity.
Qed.

Lemma number_frac_app (s rest : pystr) :
  delimited rest = true ->
  number_frac (s ++ rest) = ((number_frac s).1, (number_frac s).2 ++ rest).
Proof.
  intros Hd. destruct s as [|dot [|f r]]; cbn [app].
  - destruct rest as [|c [|c' r']]; try reflexivity. cbn [number_frac].
    apply delimited_head, number_char_parts in Hd as (_ & _ & _ & -> & _). reflexivity.
  - destruct rest as [|c r']; [reflexivity|]. cbn [number_frac].
    apply delimited_head, number_char_digit in Hd. rewrite Hd, andb_false_r. reflexivity.
  - cbn [number_frac]. destruct ((dot =? ch ".") && is_digit f); [|reflexivity].
    rewrite (span_digits_app r rest Hd). destruct (span_digits r). reflexivity.
Qed.

Lemma number_frac_split (s : pystr) :
  s = (number_frac s).1 ++ (number_frac s).2 /\ forallb number_char (number_frac s).1 = true.
Proof.
  destruct s as [|dot [|f r]]; try (split; reflexivity). cbn [number_frac].
  destruct (N.eqb_spec dot (ch ".")) as [->|]; [|split; reflexivity].
  destruct (is_digit f) eqn:Hf; [|split; reflexivity]. cbn [andb].
  destruct (span_digits_split r) as [H1 H2]. destruct (span_digits r) as [ds rest].
  cbn [fst snd] in *. split.
  - cbn [app]. do 2 f_equal. exact H1.
  - cbn [forallb]. rewrite (digits_number_chars _ H2).
    unfold number_char at 2. rewrite Hf. reflexivity.
Qed.

Lemma number_expo_app (s rest : pystr) :
  delimited rest = true ->
  number_expo (s ++ rest) = ((number_expo s).1, (number_expo s).2 ++ rest).
Proof.
  intros Hd. destruct s as [|e r]; cbn [app].
  - destruct rest as [|c r']; [reflexivity|]. cbn [number_expo].
    apply delimited_head, number_char_parts in Hd as (_ & _ & _ & _ & -> & ->). reflexivity.
  - cbn [number_expo]. destruct ((e =? ch "e") || (e =? ch "E")); [|reflexivity].
    destruct r as [|sg t]; cbn [app].
    + pose proof (span_digits_stop rest Hd) as Hstop.
      destruct rest as [|c r']; [reflexivity|].
      apply delimited_head, number_char_parts in Hd as (_ & -> & -> & _).
      cbn [orb]. rewrite Hstop. reflexivity.
    + destruct ((sg =? ch "-") || (sg =? ch "+")).
      * rewrite (span_digits_app t rest Hd). destruct (span_digits t) as [[|d ds] rest0]; reflexivity.
      * change (sg :: t ++ rest) with ((sg :: t) ++ rest).
        rewrite (span_digits_app (sg :: t) rest Hd).
        destruct (span_digits (sg :: t)) as [[|d ds] rest0]; reflexivity.
Qed.

Lemma number_expo_split (s : pystr) :
  s = (number_expo s).1 ++ (number_expo s).2 /\ forallb number_char (number_expo s).1 = true.
Proof.
  destruct s as [|e r]; [split; reflexivity|]. cbn [number_expo].
  destruct ((e =? ch "e") || (e =? ch "E")) eqn:He; [|split; reflexivity].
  assert (number_char e = true) as He'.
  { unfold number_char. apply orb_prop in He as [->| ->]; rewrite ?orb_true_r; reflexivity. }
  destruct r as [|sg t].
  - split; reflexivity.
  - destruct ((sg =? ch "-") || (sg =? ch "+")) eqn:Hsg.
    + assert (number_char sg = true) as Hsg'.
      { unfold number_char. apply orb_prop in Hsg as [->| ->]; rewrite ?orb_true_r; reflexivity. }
      destruct (span_digits_split t) as [H1 H2]. destruct (span_digits t) as [[|d ds] rest0].
      * split; reflexivity.
      * cbn [fst snd] in *. split.
        -- cbn [app]. do 2 f_equal. exact H1.
        -- cbn [app forallb]. rewrite He', Hsg'. exact (digits_number_chars _ H2).
    + destruct (span_digits_split (sg :: t)) as [H1 H2].
      destruct (span_digits (sg :: t)) as [[|d ds] rest0].
      * split; reflexivity.
      * cbn [fst snd] in *. split.
        -- cbn [app]. f_equal. exact H1.
        -- cbn [app forallb]. rewrite He'. exact (digits_number_chars _ H2).
Qed.

(** Appending a delimited text to a number does not change how the number
    is read. *)
Lemma match_number_app (s rest : pystr) (v : json) (s4 : pystr) :
  delimited rest = true ->
  match_number s = Parsed _ v s4 ->
  match_number (s ++ rest) = Parsed _ v (s4 ++ rest).
Proof.
  intros Hd. rewrite !match_number_eq, (number_sign_app s rest Hd).
  destruct (number_sign s) as [sign s1]. cbn [fst snd].
  destruct s1 as [|d r]; [discriminate|]. cbn [app].
  destruct (negb (is_digit d)); [discriminate|].
  rewrite (number_int_app d r rest Hd). destruct (number_int d r) as [int_digits s2].
  cbn [fst snd]. rewrite (number_frac_app s2 rest Hd). destruct (number_frac s2) as [frac s3].
  cbn [fst snd]. rewrite (number_expo_app s3 rest Hd). destruct (number_expo s3) as [expo s4'].
  cbn [fst snd]. rewrite !number_result_eq. intros Heq. injection Heq as <- <-. reflexivity.
Qed.

(** A number is made of number characters, and begins as a number does. *)
Lemma match_number_split (s : pystr) (v : json) (s4 : pystr) :
  match_number s = Parsed _ v s4 ->
  exists lit, s = lit ++ s4 /\ forallb number_char lit = true /\ number_start s = true.
Proof.
  rewrite match_number_eq. unfold number_start.
  destruct s as [|c r0]; [discriminate|]. cbn [number_sign].
  destruct (N.eqb_spec c (ch "-")) as [->|Hc]; cbn [fst snd].
  - destruct r0 as [|d r]; [discriminate|]. destruct (is_digit d) eqn:Hdig; [|discriminate]. cbn [negb].
    destruct (number_int_split d r Hdig) as [H1 H1c]. destruct (number_int d r) as [int_digits s2].
    destruct (number_frac_split s2) as [H2 H2c]. destruct (number_frac s2) as [frac s3].
    destruct (number_expo_split s3) as [H3 H3c]. destruct (number_expo s3) as [expo s4'].
    cbn [fst snd] in *. rewrite number_result_eq. intros Heq. injection Heq as _ <-.
    exists (ch "-" :: int_digits ++ frac ++ expo). split; [|split].
    + cbn [app]. f_equal. rewrite H1, H2, H3 at 1. rewrite <- !app_assoc. reflexivity.
    + cbn [forallb]. rewrite !forallb_app, H1c, H2c, H3c. reflexivity.
    + rewrite orb_true_r. reflexivity.
  - destruct (is_digit c) eqn:Hdig; [|discriminate]. cbn [negb].
    destruct (number_int_split c r0 Hdig) as [H1 H1c]. destruct (number_int c r0) as [int_digits s2].
    destruct (number_frac_split s2) as [H2 H2c]. destruct (number_frac s2) as [frac s3].
    destruct (number_expo_split s3) as [H3 H3c]. destruct (number_expo s3) as [expo s4'].
    cbn [fst snd] in *. rewrite number_result_eq. intros Heq. injection Heq as _ <-.
    exists (int_digits ++ frac ++ expo). split; [|split].
    + rewrite H1, H2, H3 at 1. rewrite <- !app_assoc. reflexivity.
    + rewrite !forallb_app, H1c, H2c, H3c. reflexivity.
    + reflexivity.
Qed.

Lemma strip_prefix_some (p s rest : pystr) :
  strip_prefix p s = Some rest -> s = p ++ rest.
Proof.
  revert s. induction p as [|a p IH]; intros s; cbn [strip_prefix].
  - intros Heq. injection Heq as ->. reflexivity.
  - destruct s as [|c s]; [discriminate|]. destruct (N.eqb_spec a c) as [->|]; [|discriminate].
    intros Heq. cbn [app]. f_equal. apply IH. exact Heq.
Qed.

Lemma is_digit_cases (c : N) :
  is_digit c = true ->
  c = 48 \/ c = 49 \/ c = 50 \/ c = 51 \/ c = 52 \/ c = 53 \/ c = 54 \/ c = 55 \/ c = 56 \/ c = 57.
Proof.
  unfold is_digit. intros [H1 H2]%andb_prop. apply N.leb_le in H1, H2. lia.
Qed.

(** A text that begins as a number is read by [match_number]. *)
Lemma scan_once_number (fuel : nat) (s : pystr) :
  number_start s = true -> scan_once (S fuel) s = match_number s.
Proof.
  destruct s as [|c r]; [discriminate|]. cbn [number_start].
  intros [Hc|[Hc Hd]%andb_prop]%orb_prop.
  - apply is_digit_cases in Hc.
    repeat (destruct Hc as [->|Hc]; [reflexivity|]). subst c. reflexivity.
  - apply N.eqb_eq in Hc as ->. destruct r as [|d r]; [discriminate|].
    apply is_digit_cases in Hd.
    repeat (destruct Hd as [->|Hd]; [reflexivity|]). subst d. reflexivity.
Qed.

Lemma number_start_app (s rest : pystr) :
  number_start s = true -> number_start (s ++ rest) = true.
Proof.
  destruct s as [|c [|d r]]; cbn [app number_start]; try discriminate.
  - rewrite andb_false_r, orb_false_r. intros ->. reflexivity.
  - auto.
Qed.

(** What [scan_once] accepts as a float, alone. *)
Lemma scan_once_float (t : pystr) (x : pyfloat) :
  scan_once 1 t = Parsed _ (JFloat x) [] ->
  ((t = u "NaN" \/ t = u "Infinity" \/ t = u "-Infinity") /\ x = float_of_literal t) \/
  match_number t = Parsed _ (JFloat x) [].
Proof.
  destruct t as [|c r]; [discriminate|]. cbn [scan_once].
  destruct (c =? dquote).
  { destruct (scan_string r []); discriminate. }
  destruct (c =? ch "{").
  { destruct (skip_ws r) as [|c' r']; [discriminate|]. destruct (c' =? ch "}"); discriminate. }
  destruct (c =? ch "[").
  { destruct (skip_ws r) as [|c' r']; [discriminate|]. destruct (c' =? ch "]"); discriminate. }
  destruct (strip_prefix (u "null") (c :: r)); [discriminate|].
  destruct (strip_prefix (u "true") (c :: r)); [discriminate|].
  destruct (strip_prefix (u "false") (c :: r)); [discriminate|].
  destruct (strip_prefix (u "NaN") (c :: r)) as [rest|] eqn:H1.
  { intros Heq. injection Heq as <- ->. apply strip_prefix_some in H1. rewrite app_nil_r in H1.
    left. rewrite H1. auto. }
  destruct (strip_prefix (u "Infinity") (c :: r)) as [rest|] eqn:H2.
  { intros Heq. injection Heq as <- ->. apply strip_prefix_some in H2. rewrite app_nil_r in H2.
    left. rewrite H2. auto. }
  destruct (strip_prefix (u "-Infinity") (c :: r)) as [rest|] eqn:H3.
  { intros Heq. injection Heq as <- ->. apply strip_prefix_some in H3. rewrite app_nil_r in H3.
    left. rewrite H3. auto. }
  auto.
Qed.

(** A float that is read back alone is read back in front of a delimiter. *)
Lemma scan_once_float_app (fuel : nat) (t rest : pystr) (x : pyfloat) :
  scan_once 1 t = Parsed _ (JFloat x) [] -> delimited rest = true ->
  scan_once (S fuel) (t ++ rest) = Parsed _ (JFloat x) rest.
Proof.
  intros Ht Hd. apply scan_once_float in Ht as [[[->|[->| ->]] ->]|Ht]; try reflexivity.
  destruct (match_number_split _ _ _ Ht) as (lit & _ & _ & Hstart).
  rewrite scan_once_number by (apply number_start_app; exact Hstart).
  apply (match_number_app _ _ _ _ Hd Ht).
Qed.

Lemma number_char_printable (c : N) : number_char c = true -> (32 <=? c) = true.
Proof.
  unfold number_char. intros Hc. apply N.leb_le.
  repeat (apply orb_prop in Hc as [Hc|Hc]); try (apply N.eqb_eq in Hc; subst c; cbv; discriminate).
  apply is_digit_cases in Hc. lia.
Qed.

Lemma number_term_start (s : pystr) : number_start s = true -> term_start s = true.
Proof.
  destruct s as [|c r]; [discriminate|]. cbn [number_start term_start].
  intros [Hc|[Hc _]%andb_prop]%orb_prop.
  - apply is_digit_cases in Hc. repeat (destruct Hc as [->|Hc]; [reflexivity|]). subst c. reflexivity.
  - apply N.eqb_eq in Hc as ->. reflexivity.
Qed.

(** Such a float prints without control characters, and not as the empty
    text. *)
Lemma scan_once_float_chars (t : pystr) (x : pyfloat) :
  scan_once 1 t = Parsed _ (JFloat x) [] ->
  forallb (fun c => 32 <=? c) t = true /\ term_start t = true.
Proof.
  intros Ht. apply scan_once_float in Ht as [[[->|[->| ->]] ->]|Ht]; try (split; reflexivity).
  destruct (match_number_split _ _ _ Ht) as (lit & Hsplit & Hlit & Hstart).
  split; [|apply number_term_start; exact Hstart].
  rewrite Hsplit, app_nil_r. apply forallb_forall. intros c Hc.
  rewrite forallb_forall in Hlit. apply number_char_printable. auto.
Qed.

(** *** Integers are read back *)

Lemma uint_chars_digits (d : Decimal.uint) : forallb is_digit (uint_chars d) = true.
Proof. induction d; [reflexivity|..]; exact IHd. Qed.

Lemma span_digits_all (ds : pystr) : forallb is_digit ds = true -> span_digits ds = (ds, []).
Proof.
  induction ds as [|c r IH]; [reflexivity|]. cbn [forallb span_digits].
  intros [-> Hr]%andb_prop. rewrite (IH Hr). reflexivity.
Qed.

Lemma digits_value_acc (d : Decimal.uint) (acc : positive) :
  fold_left digit_step (uint_chars d) (Z.pos acc) = Z.pos (Pos.of_uint_acc d acc).
Proof.
  revert acc. induction d; intros acc; [reflexivity|..];
    cbn [Pos.of_uint_acc]; rewrite <- IHd; unfold uint_chars;
    cbn [NilEmpty.string_of_uint u list_ascii_of_string map fold_left]; f_equal;
    unfold digit_step, ch; cbn [N_of_ascii N_of_digits]; lia.
Qed.

Lemma to_uint_head (p : positive) :
  exists c l, uint_chars (Pos.to_uint p) = c :: uint_chars l /\
              is_digit c = true /\ (c =? 48) = false /\ (c =? ch "-") = false /\
              digit_step 0 c = Z.pos (Pos.of_uint_acc Decimal.Nil (Z.to_pos (digit_step 0 c))) /\
              Z.pos p = Z.pos (Pos.of_uint_acc l (Z.to_pos (digit_step 0 c))).
Proof.
  pose proof (DecimalPos.Unsigned.of_to p) as Hof.
  pose proof (DecimalPos.Unsigned.to_of (Pos.to_uint p)) as Hto.
  rewrite Hof in Hto. cbn [N.to_uint] in Hto.
  pose proof (DecimalPos.Unsigned.to_uint_nonzero p) as Hnz.
  pose proof (DecimalPos.Unsigned.to_uint_nonnil p) as Hnn.
  assert (Decimal.nzhead (Pos.to_uint p) = Pos.to_uint p) as Hhead.
  { unfold Decimal.unorm in Hto. destruct (Decimal.nzhead (Pos.to_uint p)) eqn:Hh; congruence. }
  destruct (Pos.to_uint p) as [|l|l|l|l|l|l|l|l|l|l] eqn:Hd; [contradiction|..].
  { exfalso. exact (DecimalFacts.nzhead_nonzero _ _ Hhead). }
  all: eexists _, l; (split; [reflexivity|]); repeat (split; [reflexivity|]);
    cbn [Pos.of_uint] in Hof; injection Hof as <-; reflexivity.
Qed.

Lemma digits_value_cons (c : N) (ds : pystr) :
  digits_value (c :: ds) = fold_left digit_step ds (digit_step 0 c).
Proof. reflexivity. Qed.

Lemma match_number_positive (p : positive) :
  exists c ds, uint_chars (Pos.to_uint p) = c :: ds /\
    is_digit c = true /\ (c =? ch "-") = false /\
    number_int c ds = (c :: ds, []) /\ digits_value (c :: ds) = Z.pos p.
Proof.
  destruct (to_uint_head p) as (c & l & Htext & Hc & H0 & Hm & Hstep & Hval).
  exists c, (uint_chars l). split; [exact Htext|]. split; [exact Hc|]. split; [exact Hm|]. split.
  - unfold number_int. rewrite H0, (span_digits_all _ (uint_chars_digits l)). reflexivity.
  - rewrite digits_value_cons, Hval, <- digits_value_acc. f_equal.
    rewrite Hstep. reflexivity.
Qed.

Lemma int_repr_pos (p : positive) : int_repr (Z.pos p) = uint_chars (Pos.to_uint p).
Proof.
  unfold int_repr, uint_chars. cbn [Z.to_int NilZero.string_of_int].
  unfold NilZero.string_of_uint. pose proof (DecimalPos.Unsigned.to_uint_nonnil p) as Hnn.
  destruct (Pos.to_uint p); [contradiction|..]; reflexivity.
Qed.

Lemma int_repr_neg (p : positive) : int_repr (Z.neg p) = ch "-" :: uint_chars (Pos.to_uint p).
Proof.
  unfold int_repr, uint_chars. cbn [Z.to_int NilZero.string_of_int].
  unfold NilZero.string_of_uint. pose proof (DecimalPos.Unsigned.to_uint_nonnil p) as Hnn.
  destruct (Pos.to_uint p); [contradiction|..]; reflexivity.
Qed.

(** [json.loads] reads an integer as [json.dumps] writes it. *)
Lemma match_number_int_repr (n : Z) :
  match_number (int_repr n) = Parsed _ (JInt n) [].
Proof.
  destruct n as [|p|p].
  - reflexivity.
  - rewrite int_repr_pos, match_number_eq.
    destruct (match_number_positive p) as (c & ds & -> & Hc & Hm & Hint & Hval).
    cbn [number_sign]. rewrite Hm, Hc. cbn [negb]. rewrite Hint.
    cbn [number_frac number_expo number_result]. rewrite Hval. reflexivity.
  - rewrite int_repr_neg, match_number_eq.
    destruct (match_number_positive p) as (c & ds & -> & Hc & Hm & Hint & Hval).
    cbn [number_sign]. change (ch "-" =? ch "-") with true. cbv iota. rewrite Hc. cbn [negb].
    rewrite Hint. cbn [number_frac number_expo number_result]. rewrite Hval. reflexivity.
Qed.

Lemma scan_once_int (fuel : nat) (n : Z) (rest : pystr) :
  delimited rest = true ->
  scan_once (S fuel) (int_repr n ++ rest) = Parsed _ (JInt n) rest.
Proof.
  intros Hd. pose proof (match_number_int_repr n) as Hn.
  destruct (match_number_split _ _ _ Hn) as (lit & _ & _ & Hstart).
  rewrite scan_once_number by (apply number_start_app; exact Hstart).
  apply (match_number_app _ _ _ _ Hd Hn).
Qed.

Lemma int_repr_chars (n : Z) :
  forallb (fun c => 32 <=? c) (int_repr n) = true /\ term_start (int_repr n) = true.
Proof.
  pose proof (match_number_int_repr n) as Hn.
  destruct (match_number_split _ _ _ Hn) as (lit & Hsplit & Hlit & Hstart).
  split; [|apply number_term_start; exact Hstart].
  rewrite Hsplit, app_nil_r. apply forallb_forall. intros c Hc.
  rewrite forallb_forall in Hlit. apply number_char_printable. auto.
Qed.

(** *** What [json.dumps] writes, [json.loads] reads *)

Lemma skip_ws_term (s : pystr) : term_start s = true -> skip_ws s = s.
Proof.
  destruct s as [|c r]; [discriminate|]. cbn [term_start skip_ws].
  destruct (is_json_space c); [discriminate|reflexivity].
Qed.

Lemma term_start_app (s t : pystr) : term_start s = true -> term_start (s ++ t) = true.
Proof. destruct s; [discriminate|exact id]. Qed.

Lemma term_start_length (s : pystr) : term_start s = true -> (1 <= length s)%nat.
Proof. destruct s; [discriminate|]. cbn [length]. lia. Qed.

Lemma floats_of_items (l : list json) :
  Forall float_reloads (floats_of (JArr l)) ->
  Forall (fun v => Forall float_reloads (floats_of v)) l.
Proof. cbn [floats_of]. apply Forall_flat_map. Qed.

Lemma floats_of_fields (kvs : list (pystr * json)) :
  Forall float_reloads (floats_of (JObj kvs)) ->
  Forall (fun kv => Forall float_reloads (floats_of kv.2)) kvs.
Proof. cbn [floats_of]. apply Forall_flat_map. Qed.

Lemma dumps_term_start (v : json) :
  Forall float_reloads (floats_of v) -> term_start (json_dumps_plain v) = true.
Proof.
  destruct v as [ |b|n|x|s|l|kvs]; cbn [json_dumps_plain floats_of]; intros Hf; try reflexivity.
  - destruct b; reflexivity.
  - apply int_repr_chars.
  - apply Forall_inv in Hf. apply (scan_once_float_chars _ _ Hf).
Qed.

Lemma escape_char_printable (c : N) : forallb (fun c => 32 <=? c) (escape_char c) = true.
Proof.
  unfold escape_char.
  repeat match goal with |- context [if ?b then _ else _] => destruct b eqn:?; [reflexivity|] end.
  destruct (N.ltb_spec c 32) as [Hc|Hc].
  - rewrite forallb_app. cbn [forallb]. unfold MD5.hex_digit.
    apply andb_true_intro. split; [reflexivity|].
    destruct (_ <? 10), (_ <? 10); rewrite !andb_true_r; apply andb_true_intro; split;
      apply N.leb_le; lia.
  - cbn [forallb]. rewrite andb_true_r. apply N.leb_le. exact Hc.
Qed.

Lemma encode_basestring_printable (s : pystr) :
  forallb (fun c => 32 <=? c) (encode_basestring s) = true.
Proof.
  unfold encode_basestring. rewrite !forallb_app. cbn [forallb].
  change (32 <=? dquote) with true. cbn [andb]. rewrite andb_true_r.
  induction s as [|c r IH]; [reflexivity|]. cbn [flat_map].
  rewrite forallb_app, escape_char_printable, IH. reflexivity.
Qed.

Lemma join_printable (parts : list pystr) :
  Forall (fun p => forallb (fun c => 32 <=? c) p = true) parts ->
  forallb (fun c => 32 <=? c) (join (u ", ") parts) = true.
Proof.
  induction 1 as [|p r Hp _ IH]; [reflexivity|]. destruct r as [|q r]; [exact Hp|].
  change (join (u ", ") (p :: q :: r)) with (p ++ u ", " ++ join (u ", ") (q :: r)).
  rewrite !forallb_app, Hp, IH. reflexivity.
Qed.

Lemma dumps_printable (v : json) :
  Forall float_reloads (floats_of v) ->
  forallb (fun c => 32 <=? c) (json_dumps_plain v) = true.
Proof.
  induction v as [ |b|n|x|s|l IH|kvs IH] using json_nested_ind;
    cbn [json_dumps_plain]; intros Hf.
  - reflexivity.
  - destruct b; reflexivity.
  - apply int_repr_chars.
  - apply Forall_inv in Hf. apply (scan_once_float_chars _ _ Hf).
  - apply encode_basestring_printable.
  - apply floats_of_items in Hf. rewrite !forallb_app, join_printable; [reflexivity|].
    apply Forall_map. clear -IH Hf. induction IH as [|v r Hv _ IHr]; [constructor|].
    inversion_clear Hf. constructor; auto.
  - apply floats_of_fields in Hf. rewrite !forallb_app, join_printable; [reflexivity|].
    apply Forall_map, Forall_map. clear -IH Hf. induction IH as [|[k x] r Hx _ IHr]; [constructor|].
    inversion_clear Hf. constructor; [|auto]. unfold dump_item. cbn [fst snd] in *.
    rewrite !forallb_app, encode_basestring_printable, Hx by assumption. reflexivity.
Qed.

Lemma join_cons2 (p q : pystr) (r : list pystr) :
  join (u ", ") (p :: q :: r) = p ++ ch "," :: ch " " :: join (u ", ") (q :: r).
Proof. reflexivity. Qed.

Lemma join_term_start (p : pystr) (r : list pystr) (t : pystr) :
  term_start p = true -> term_start (join (u ", ") (p :: r) ++ t) = true.
Proof.
  intros Hp. destruct r as [|q r].
  - apply term_start_app. exact Hp.
  - rewrite join_cons2, <- app_assoc. apply term_start_app. exact Hp.
Qed.

(** [_parse_array] on the items of an array as [json.dumps] writes them. *)
Lemma parse_array_items (l : list json) :
  Forall (fun v => forall fuel rest,
            (length (json_dumps_plain v) <= fuel)%nat -> delimited rest = true ->
            scan_once fuel (json_dumps_plain v ++ rest) = Parsed _ v rest) l ->
  Forall (fun v => term_start (json_dumps_plain v) = true) l ->
  l <> [] ->
  forall acc fuel rest,
    (length (join (u ", ") (map json_dumps_plain l)) + 1 <= fuel)%nat ->
    parse_array fuel acc (join (u ", ") (map json_dumps_plain l) ++ ch "]" :: rest)
    = Parsed _ (JArr (rev acc ++ l)) rest.
Proof.
  induction 1 as [|v l Hv _ IH]; [contradiction|]. intros Hts _ acc fuel rest Hfuel.
  inversion_clear Hts as [|? ? Hv_start Hl_start].
  destruct fuel as [|g]; [lia|]. cbn [parse_array]. destruct l as [|w l'].
  - cbn [map join] in *. rewrite Hv by (try reflexivity; lia).
    cbn [skip_ws]. change (is_json_space (ch "]")) with false. cbv iota.
    rewrite N.eqb_refl. reflexivity.
  - cbn [map] in *. rewrite join_cons2 in *. rewrite <- app_assoc.
    rewrite length_app in Hfuel. cbn [length] in Hfuel.
    rewrite Hv by (try reflexivity; lia).
    cbn [app skip_ws]. change (is_json_space (ch ",")) with false. cbv iota.
    change (ch "," =? ch "]") with false. cbv iota. rewrite N.eqb_refl. cbv iota.
    cbn [skip_ws]. change (is_json_space (ch " ")) with true. cbv iota.
    rewrite skip_ws_term by (apply join_term_start; inversion Hl_start; assumption).
    rewrite IH; [|exact Hl_start|discriminate|lia]. cbn [rev]. rewrite <- app_assoc. reflexivity.
Qed.

Lemma dict_set_fresh (acc : list (pystr * json)) (k : pystr) (x : json) :
  k ∉ map fst acc -> dict_set acc k x = acc ++ [(k, x)].
Proof.
  induction acc as [|[k' x'] r IH]; [reflexivity|]. cbn [map fst dict_set app].
  intros Hk. apply not_elem_of_cons in Hk as [Hne Hk].
  case_bool_decide; [congruence|]. rewrite (IH Hk). reflexivity.
Qed.

Lemma dump_item_text (k t tail : pystr) :
  dump_item (k, t) ++ tail
  = dquote :: flat_map escape_char k ++ dquote :: ch ":" :: ch " " :: t ++ tail.
Proof.
  unfold dump_item, encode_basestring. cbn [fst snd]. rewrite <- !app_assoc. reflexivity.
Qed.

Lemma dump_item_length (k t : pystr) : (length t + 4 <= length (dump_item (k, t)))%nat.
Proof.
  unfold dump_item, encode_basestring. cbn [fst snd]. rewrite !length_app.
  change (length (u ": ")) with 2%nat. cbn [length]. lia.
Qed.

(** [_parse_object] on the items of a dict as [json.dumps] writes them. *)
Lemma parse_object_items (kvs : list (pystr * json)) :
  Forall (fun kv => forall fuel rest,
            (length (json_dumps_plain kv.2) <= fuel)%nat -> delimited rest = true ->
            scan_once fuel (json_dumps_plain kv.2 ++ rest) = Parsed _ kv.2 rest) kvs ->
  Forall (fun kv => term_start (json_dumps_plain kv.2) = true) kvs ->
  kvs <> [] ->
  forall acc fuel rest,
    NoDup (map fst (acc ++ kvs)) ->
    (length (join (u ", ")
               (map dump_item
                  (map (fun kv => let '(k, x) := kv in (k, json_dumps_plain x)) kvs))) + 1
     <= fuel)%nat ->
    parse_object fuel acc
      (join (u ", ")
         (map dump_item (map (fun kv => let '(k, x) := kv in (k, json_dumps_plain x)) kvs))
       ++ ch "}" :: rest)
    = Parsed _ (JObj (acc ++ kvs)) rest.
Proof.
  induction 1 as [|[k x] l Hx _ IH]; [contradiction|]. intros Hts _ acc fuel rest Hnd Hfuel.
  inversion_clear Hts as [|? ? Hx_start Hl_start]. cbn [fst snd] in *.
  assert (k ∉ map fst acc) as Hfresh.
  { rewrite map_app in Hnd. apply NoDup_app in Hnd as (_ & Hnd & _).
    intros Hin. apply (Hnd k Hin). cbn [map fst]. apply elem_of_cons. left. reflexivity. }
  destruct fuel as [|g]; [lia|]. cbn [parse_object]. destruct l as [|[k' x'] l'].
  - cbn [map join] in *. pose proof (dump_item_length k (json_dumps_plain x)) as Hlen.
    rewrite dump_item_text. rewrite N.eqb_refl, scan_string_encoded. cbn [rev app skip_ws].
    change (is_json_space (ch ":")) with false. cbv iota. rewrite N.eqb_refl. cbv iota.
    cbn [skip_ws]. change (is_json_space (ch " ")) with true. cbv iota.
    rewrite skip_ws_term by (apply term_start_app; exact Hx_start).
    rewrite Hx by (try reflexivity; lia).
    cbn [skip_ws]. change (is_json_space (ch "}")) with false. cbv iota.
    rewrite N.eqb_refl. rewrite (dict_set_fresh _ _ _ Hfresh). reflexivity.
  - cbn [map] in *. rewrite join_cons2 in *.
    pose proof (dump_item_length k (json_dumps_plain x)) as Hlen.
    rewrite length_app in Hfuel. cbn [length] in Hfuel.
    rewrite <- app_assoc, dump_item_text. rewrite N.eqb_refl, scan_string_encoded.
    cbn [rev app skip_ws].
    change (is_json_space (ch ":")) with false. cbv iota. rewrite N.eqb_refl. cbv iota.
    cbn [skip_ws]. change (is_json_space (ch " ")) with true. cbv iota.
    rewrite skip_ws_term by (apply term_start_app; exact Hx_start).
    rewrite Hx by (try reflexivity; lia).
    cbn [skip_ws]. change (is_json_space (ch ",")) with false. cbv iota.
    change (ch "," =? ch "}") with false. cbv iota. rewrite N.eqb_refl. cbv iota.
    cbn [skip_ws]. change (is_json_space (ch " ")) with true. cbv iota.
    rewrite skip_ws_term by (apply join_term_start; reflexivity).
    rewrite (dict_set_fresh _ _ _ Hfresh).
    rewrite IH; [|exact Hl_start|discriminate| |lia].
    + rewrite <- app_assoc. reflexivity.
    + rewrite <- app_assoc. exact Hnd.
Qed.

Lemma dumps_array_text (l : list json) (rest : pystr) :
  json_dumps_plain (JArr l) ++ rest
  = ch "[" :: join (u ", ") (map json_dumps_plain l) ++ ch "]" :: rest.
Proof.
  cbn [json_dumps_plain]. change (u "[") with [ch "["]. cbn [app].
  rewrite <- app_assoc. reflexivity.
Qed.

Lemma dumps_object_text (kvs : list (pystr * json)) (rest : pystr) :
  json_dumps_plain (JObj kvs) ++ rest
  = ch "{" :: join (u ", ")
                (map dump_item
                   (map (fun kv => let '(k, x) := kv in (k, json_dumps_plain x)) kvs))
             ++ ch "}" :: rest.
Proof.
  cbn [json_dumps_plain]. change (u "{") with [ch "{"]. cbn [app].
  rewrite <- app_assoc. reflexivity.
Qed.

Lemma term_start_head (c : N) (r : pystr) :
  term_start (c :: r) = true -> (c =? ch "]") = false /\ (c =? ch "}") = false.
Proof.
  cbn [term_start]. destruct (c =? ch "]"), (c =? ch "}"); rewrite ?andb_false_r; auto; discriminate.
Qed.

(** [scan_once] reads a value back from the text [json.dumps] writes for
    it, whatever delimited text follows. *)
Lemma scan_once_dumps (v : json) :
  distinct_keys v = true -> Forall float_reloads (floats_of v) ->
  forall fuel rest,
    (length (json_dumps_plain v) <= fuel)%nat -> delimited rest = true ->
    scan_once fuel (json_dumps_plain v ++ rest) = Parsed _ v rest.
Proof.
  induction v as [ |b|n|x|s|l IH|kvs IH] using json_nested_ind;
    intros Hdk Hfl fuel rest Hfuel Hrest.
  - destruct fuel as [|f]; [cbn in Hfuel; lia|]. reflexivity.
  - destruct fuel as [|f]; [destruct b; cbn in Hfuel; lia|]. destruct b; reflexivity.
  - pose proof (term_start_length _ (proj2 (int_repr_chars n))) as Hlen.
    cbn [json_dumps_plain] in *. destruct fuel as [|f]; [lia|].
    apply scan_once_int. exact Hrest.
  - apply Forall_inv in Hfl.
    pose proof (term_start_length _ (proj2 (scan_once_float_chars _ _ Hfl))) as Hlen.
    cbn [json_dumps_plain] in *. destruct fuel as [|f]; [lia|].
    apply scan_once_float_app; assumption.
  - cbn [json_dumps_plain] in *. unfold encode_basestring in *.
    destruct fuel as [|f]; [cbn in Hfuel; lia|].
    cbn [app scan_once]. rewrite N.eqb_refl, <- app_assoc. cbn [app].
    rewrite scan_string_encoded. reflexivity.
  - rewrite dumps_array_text.
    assert (length (json_dumps_plain (JArr l))
            = (length (join (u ", ") (map json_dumps_plain l)) + 2)%nat) as Hlen.
    { cbn [json_dumps_plain]. rewrite !length_app. change (length (u "[")) with 1%nat.
      change (length (u "]")) with 1%nat. lia. }
    rewrite Hlen in Hfuel. clear Hlen. destruct fuel as [|f]; [lia|].
    cbn [scan_once]. change (ch "[" =? dquote) with false. change (ch "[" =? ch "{") with false.
    rewrite N.eqb_refl. cbv iota.
    destruct l as [|v l']; [reflexivity|].
    apply floats_of_items in Hfl. cbn [distinct_keys] in Hdk.
    assert (Forall (fun v => distinct_keys v = true) (v :: l')) as Hdk'
      by (apply Forall_forall; intros y Hy; rewrite forallb_forall in Hdk; apply Hdk;
          apply list_elem_of_In; exact Hy).
    assert (Forall (fun v => term_start (json_dumps_plain v) = true) (v :: l')) as Hts
      by (eapply Forall_impl; [exact Hfl|]; intros y Hy; apply dumps_term_start; exact Hy).
    assert (Forall (fun v => forall fuel rest,
                      (length (json_dumps_plain v) <= fuel)%nat -> delimited rest = true ->
                      scan_once fuel (json_dumps_plain v ++ rest) = Parsed _ v rest) (v :: l'))
      as Hre.
    { clear -IH Hdk' Hfl. induction IH as [|y r Hy _ IHr]; [constructor|].
      inversion_clear Hdk'. inversion_clear Hfl. constructor; auto. }
    remember (join (u ", ") (map json_dumps_plain (v :: l')) ++ ch "]" :: rest) as body eqn:Hbody.
    assert (term_start body = true) as Hstart.
    { rewrite Hbody. cbn [map]. apply join_term_start. inversion Hts; assumption. }
    rewrite (skip_ws_term _ Hstart). destruct body as [|c' r']; [discriminate|].
    apply term_start_head in Hstart as [-> _]. rewrite Hbody.
    apply (parse_array_items _ Hre Hts); [discriminate|lia].
  - rewrite dumps_object_text.
    assert (length (json_dumps_plain (JObj kvs))
            = (length (join (u ", ")
                  (map dump_item
                     (map (fun kv => let '(k, x) := kv in (k, json_dumps_plain x)) kvs))) + 2)%nat)
      as Hlen.
    { cbn [json_dumps_plain]. rewrite !length_app. change (length (u "{")) with 1%nat.
      change (length (u "}")) with 1%nat. lia. }
    rewrite Hlen in Hfuel. clear Hlen. destruct fuel as [|f]; [lia|].
    cbn [scan_once]. change (ch "{" =? dquote) with false. rewrite N.eqb_refl. cbv iota.
    destruct kvs as [|kv kvs']; [reflexivity|].
    apply floats_of_fields in Hfl. cbn [distinct_keys] in Hdk.
    apply andb_prop in Hdk as [Hnd Hdk]. apply bool_decide_eq_true in Hnd.
    assert (Forall (fun kv : pystr * json => distinct_keys kv.2 = true) (kv :: kvs')) as Hdk'.
    { apply Forall_forall. intros [k y] Hy. rewrite forallb_forall in Hdk.
      apply list_elem_of_In, Hdk in Hy. exact Hy. }
    assert (Forall (fun kv : pystr * json => term_start (json_dumps_plain kv.2) = true)
                   (kv :: kvs')) as Hts
      by (eapply Forall_impl; [exact Hfl|]; intros y Hy; apply dumps_term_start; exact Hy).
    assert (Forall (fun kv : pystr * json => forall fuel rest,
                      (length (json_dumps_plain kv.2) <= fuel)%nat -> delimited rest = true ->
                      scan_once fuel (json_dumps_plain kv.2 ++ rest) = Parsed _ kv.2 rest)
                   (kv :: kvs'))
      as Hre.
    { clear -IH Hdk' Hfl. induction IH as [|y r Hy _ IHr]; [constructor|].
      inversion_clear Hdk'. inversion_clear Hfl. constructor; auto. }
    remember (join (u ", ")
                (map dump_item
                   (map (fun kv => let '(k, x) := kv in (k, json_dumps_plain x)) (kv :: kvs')))
              ++ ch "}" :: rest) as body eqn:Hbody.
    assert (term_start body = true) as Hstart.
    { rewrite Hbody. destruct kv as [k y]. cbn [map]. apply join_term_start. reflexivity. }
    rewrite (skip_ws_term _ Hstart). destruct body as [|c' r']; [discriminate|].
    apply term_start_head in Hstart as [_ ->]. rewrite Hbody.
    apply (parse_object_items _ Hre Hts); [discriminate|exact Hnd|lia].
Qed.

Lemma json_loads_scan (s : pystr) :
  term_start s = true ->
  json_loads s =
  match scan_once (2 * length s + 1) s with
  | Parsed _ v rest =>
      match skip_ws rest with
      | [] => Ok v
      | _ :: _ => Raise JSONDecodeError
      end
  | _ => Raise JSONDecodeError
  end.
Proof.
  intros Hs. unfold json_loads. rewrite (skip_ws_term s Hs).
  destruct s as [|c r]; [discriminate|]. cbn [term_start] in Hs.
  destruct (N.eqb_spec c 65279) as [->|Hc]; [rewrite andb_false_r in Hs; discriminate|].
  generalize (scan_once (2 * length (c :: r) + 1) (c :: r)). intros sc.
  destruct c as [|p]; [reflexivity|].
  repeat (destruct p as [p|p|]; try reflexivity). contradiction.
Qed.

Lemma skip_ws_spaces (trail : pystr) : forallb is_json_space trail = true -> skip_ws trail = [].
Proof.
  induction trail as [|c r IH]; [reflexivity|]. cbn [forallb skip_ws].
  intros [-> Hr]%andb_prop. exact (IH Hr).
Qed.

Lemma spaces_delimited (trail : pystr) :
  forallb is_json_space trail = true -> delimited trail = true.
Proof.
  destruct trail as [|c r]; [reflexivity|]. cbn [forallb delimited].
  intros [-> _]%andb_prop. rewrite !orb_true_r. reflexivity.
Qed.

(** X18.  [json.loads] gives back the value from the text [json.dumps(value,
    ensure_ascii=False)] writes for it, followed by any white space, when
    the keys of its objects are distinct and its floats are read back from
    their own text. *)
Theorem json_loads_dumps (v : json) (trail : pystr) :
  distinct_keys v = true ->
  Forall float_reloads (floats_of v) ->
  forallb is_json_space trail = true ->
  json_loads (json_dumps_plain v ++ trail) = Ok v.
Proof.
  intros Hdk Hfl Htrail.
  rewrite json_loads_scan by (apply term_start_app, dumps_term_start; exact Hfl).
  rewrite (scan_once_dumps v Hdk Hfl) by (try (apply spaces_delimited; exact Htrail);
                                             rewrite length_app; lia).
  rewrite (skip_ws_spaces _ Htrail). reflexivity.
Qed.

Lemma lines_line (t more : pystr) :
  forallb (fun c => 32 <=? c) t = true ->
  lines (t ++ 10 :: more) = (t ++ [10]) :: lines more.
Proof.
  induction t as [|c r IH]; [reflexivity|]. cbn [forallb]. intros [Hc Hr]%andb_prop.
  apply N.leb_le in Hc. cbn [app lines].
  destruct (N.eqb_spec c 10); [lia|]. destruct (N.eqb_spec c 13); [lia|].
  rewrite (IH Hr). reflexivity.
Qed.

Lemma json_loads_line (v : json) :
  distinct_keys v = true ->
  Forall float_reloads (floats_of v) ->
  json_loads (json_dumps_plain v ++ [10]) = Ok v.
Proof.
  intros Hdk Hfl.
  rewrite json_loads_scan by (apply term_start_app, dumps_term_start; exact Hfl).
  rewrite (scan_once_dumps v Hdk Hfl) by (try reflexivity; rewrite length_app; lia).
  reflexivity.
Qed.

(** X19.  Every entry takes exactly one line of the output file: the text
    written for an entry holds no line break. *)
Theorem output_text_lines (entries : list json) :
  Forall (fun entry => Forall float_reloads (floats_of entry)) entries ->
  lines (output_text entries) = map (fun entry => json_dumps_plain entry ++ [10]) entries.
Proof.
  induction 1 as [|e r He _ IH]; [reflexivity|]. cbn [output_text flat_map map].
  rewrite <- app_assoc. cbn [app]. rewrite (lines_line _ _ (dumps_printable e He)).
  f_equal. exact IH.
Qed.

(** X20.  The reading loop of lines 156 to 159 reads back, entry by entry,
    what the writing loop of lines 227 to 229 wrote. *)
Theorem read_findings_output (entries : list json) :
  Forall (fun entry => distinct_keys entry = true) entries ->
  Forall (fun entry => Forall float_reloads (floats_of entry)) entries ->
  read_findings (output_text entries) = Ok entries.
Proof.
  intros Hdk Hfl. unfold read_findings.
  induction Hfl as [|e r He _ IH]; [reflexivity|]. inversion_clear Hdk as [|? ? Hde Hdr].
  cbn [output_text flat_map]. rewrite <- app_assoc. cbn [app].
  rewrite (lines_line _ _ (dumps_printable e He)). cbn [loads_all].
  rewrite (json_loads_line e Hde He). cbn [mbind result_bind].
  unfold output_text in IH. rewrite (IH Hdr). reflexivity.
Qed.

(** *** The text of a checkpoint file *)

Lemma newline_indent_spaces (level : nat) : forallb is_json_space (newline_indent level) = true.
Proof.
  unfold newline_indent. cbn [forallb]. change (is_json_space 10) with true. cbn [andb].
  induction (2 * level)%nat as [|k IH]; [reflexivity|]. cbn [repeat forallb].
  rewrite IH. reflexivity.
Qed.

Lemma skip_ws_app (ws t : pystr) :
  forallb is_json_space ws = true -> skip_ws (ws ++ t) = skip_ws t.
Proof.
  induction ws as [|c r IH]; [reflexivity|]. cbn [forallb app skip_ws].
  intros [-> Hr]%andb_prop. exact (IH Hr).
Qed.

Lemma delimited_after_spaces (ws t : pystr) :
  forallb is_json_space ws = true -> delimited t = true -> delimited (ws ++ t) = true.
Proof.
  destruct ws as [|c r]; [auto|]. cbn [forallb app delimited].
  intros [-> _]%andb_prop _. rewrite !orb_true_r. reflexivity.
Qed.

Lemma join_head_term_start (sep p : pystr) (r : list pystr) (t : pystr) :
  term_start p = true -> term_start (join sep (p :: r) ++ t) = true.
Proof.
  intros Hp. destruct r as [|q r]; cbn [join]; rewrite <- ?app_assoc;
    apply term_start_app; exact Hp.
Qed.

(** [_parse_array] on the texts of the items of an array, separated by a
    comma and white space, with white space before the closing bracket. *)
Lemma parse_array_texts (ws1 ws2 : pystr) (l : list json) (texts : list pystr) :
  forallb is_json_space ws1 = true -> forallb is_json_space ws2 = true ->
  Forall2 (fun v t =>
             term_start t = true /\
             forall fuel rest,
               (length t <= fuel)%nat -> delimited rest = true ->
               scan_once fuel (t ++ rest) = Parsed _ v rest) l texts ->
  l <> [] ->
  forall acc fuel rest,
    (length (join (ch "," :: ws1) texts) + length ws2 + 1 <= fuel)%nat ->
    parse_array fuel acc (join (ch "," :: ws1) texts ++ ws2 ++ ch "]" :: rest)
    = Parsed _ (JArr (rev acc ++ l)) rest.
Proof.
  intros Hws1 Hws2. induction 1 as [|v t l texts [Hstart Hv] Hrest IH]; [contradiction|].
  intros _ acc fuel rest Hfuel. destruct fuel as [|g]; [lia|]. cbn [parse_array].
  destruct Hrest as [|w t2 l' texts' Hw Hrest'].
  - cbn [join] in *. rewrite Hv; [|lia|apply delimited_after_spaces; [exact Hws2|reflexivity]].
    rewrite (skip_ws_app _ _ Hws2). cbn [skip_ws].
    change (is_json_space (ch "]")) with false. cbv iota. rewrite N.eqb_refl. reflexivity.
  - change (join (ch "," :: ws1) (t :: t2 :: texts'))
      with (t ++ (ch "," :: ws1) ++ join (ch "," :: ws1) (t2 :: texts')) in *.
    rewrite !length_app in Hfuel. cbn [length] in Hfuel. rewrite <- !app_assoc.
    rewrite Hv by (try reflexivity; lia).
    cbn [app skip_ws]. change (is_json_space (ch ",")) with false. cbv iota.
    change (ch "," =? ch "]") with false. cbv iota. rewrite N.eqb_refl. cbv iota.
    rewrite (skip_ws_app _ _ Hws1).
    assert (term_start (join (ch "," :: ws1) (t2 :: texts') ++ ws2 ++ ch "]" :: rest) = true)
      as Hnext.
    { apply join_head_term_start, Hw. }
    rewrite (skip_ws_term _ Hnext).
    specialize (IH ltac:(discriminate) (v :: acc) g rest).
    rewrite IH by lia.
    cbn [rev]. rewrite <- app_assoc. reflexivity.
Qed.

Lemma parse_object_texts (ws1 ws2 : pystr) (kvs : list (pystr * json))
    (items : list (pystr * pystr)) :
  forallb is_json_space ws1 = true -> forallb is_json_space ws2 = true ->
  Forall2 (fun (kv : pystr * json) (item : pystr * pystr) =>
             item.1 = kv.1 /\ term_start item.2 = true /\
             forall fuel rest,
               (length item.2 <= fuel)%nat -> delimited rest = true ->
               scan_once fuel (item.2 ++ rest) = Parsed _ kv.2 rest) kvs items ->
  kvs <> [] ->
  forall acc fuel rest,
    NoDup (map fst (acc ++ kvs)) ->
    (length (join (ch "," :: ws1) (map dump_item items)) + length ws2 + 1 <= fuel)%nat ->
    parse_object fuel acc (join (ch "," :: ws1) (map dump_item items) ++ ws2 ++ ch "}" :: rest)
    = Parsed _ (JObj (acc ++ kvs)) rest.
Proof.
  intros Hws1 Hws2.
  induction 1 as [|[k x] [k' t] kvs items (Hk & Hstart & Hx) Hrest IH]; [contradiction|].
  cbn [fst snd] in *. subst k'. intros _ acc fuel rest Hnd Hfuel.
  assert (k ∉ map fst acc) as Hfresh.
  { rewrite map_app in Hnd. apply NoDup_app in Hnd as (_ & Hnd & _).
    intros Hin. apply (Hnd k Hin). cbn [map fst]. apply elem_of_cons. left. reflexivity. }
  destruct fuel as [|g]; [lia|]. cbn [parse_object].
  pose proof (dump_item_length k t) as Hlen.
  destruct Hrest as [|[k2 x2] [k2' t2] kvs' items' Hw Hrest'].
  - cbn [map join] in *. rewrite dump_item_text.
    rewrite N.eqb_refl, scan_string_encoded. cbn [rev app skip_ws].
    change (is_json_space (ch ":")) with false. cbv iota. rewrite N.eqb_refl. cbv iota.
    cbn [skip_ws]. change (is_json_space (ch " ")) with true. cbv iota.
    rewrite skip_ws_term by (apply term_start_app; exact Hstart).
    rewrite Hx; [|lia|apply delimited_after_spaces; [exact Hws2|reflexivity]].
    rewrite (skip_ws_app _ _ Hws2). cbn [skip_ws].
    change (is_json_space (ch "}")) with false. cbv iota.
    rewrite N.eqb_refl. rewrite (dict_set_fresh _ _ _ Hfresh). reflexivity.
  - cbn [map] in *.
    change (join (ch "," :: ws1) (dump_item (k, t) :: dump_item (k2', t2) :: map dump_item items'))
      with (dump_item (k, t) ++ (ch "," :: ws1)
            ++ join (ch "," :: ws1) (dump_item (k2', t2) :: map dump_item items')) in *.
    rewrite !length_app in Hfuel. cbn [length] in Hfuel.
    rewrite <- !app_assoc, dump_item_text. rewrite N.eqb_refl, scan_string_encoded.
    cbn [rev app skip_ws].
    change (is_json_space (ch ":")) with false. cbv iota. rewrite N.eqb_refl. cbv iota.
    cbn [skip_ws]. change (is_json_space (ch " ")) with true. cbv iota.
    rewrite skip_ws_term by (apply term_start_app; exact Hstart).
    rewrite Hx by (try reflexivity; lia).
    cbn [skip_ws]. change (is_json_space (ch ",")) with false. cbv iota.
    change (ch "," =? ch "}") with false. cbv iota. rewrite N.eqb_refl. cbv iota.
    rewrite (skip_ws_app _ _ Hws1).
    assert (term_start (join (ch "," :: ws1) (dump_item (k2', t2) :: map dump_item items')
                        ++ ws2 ++ ch "}" :: rest) = true) as Hnext.
    { apply join_head_term_start. reflexivity. }
    rewrite (skip_ws_term _ Hnext). rewrite (dict_set_fresh _ _ _ Hfresh).
    specialize (IH ltac:(discriminate) (acc ++ [(k, x)]) g rest).
    cbn [map] in IH. rewrite IH; [rewrite <- app_assoc; reflexivity|rewrite <- app_assoc; exact Hnd|lia].
Qed.

Lemma dumps_indent_term_start (level : nat) (v : json) :
  Forall float_reloads (floats_of v) -> term_start (json_dumps_indent level v) = true.
Proof.
  destruct v as [ |b|n|x|s|l|kvs]; cbn [json_dumps_indent floats_of]; intros Hf; try reflexivity.
  - destruct b; reflexivity.
  - apply int_repr_chars.
  - apply Forall_inv in Hf. apply (scan_once_float_chars _ _ Hf).
  - destruct l; reflexivity.
  - destruct kvs; reflexivity.
Qed.

Lemma dumps_indent_array_text (level : nat) (v : json) (l : list json) (rest : pystr) :
  json_dumps_indent level (JArr (v :: l)) ++ rest
  = ch "[" :: newline_indent (S level)
      ++ join (ch "," :: newline_indent (S level)) (map (json_dumps_indent (S level)) (v :: l))
      ++ newline_indent level ++ ch "]" :: rest.
Proof.
  cbn [json_dumps_indent]. change (u "[") with [ch "["]. change (u "]") with [ch "]"].
  change (u ",") with [ch ","]. cbn [app]. rewrite <- !app_assoc. reflexivity.
Qed.

Lemma dumps_indent_object_text (level : nat) (kv : pystr * json) (kvs : list (pystr * json))
    (rest : pystr) :
  json_dumps_indent level (JObj (kv :: kvs)) ++ rest
  = ch "{" :: newline_indent (S level)
      ++ join (ch "," :: newline_indent (S level))
           (map dump_item
              (map (fun kv => let '(k, x) := kv in (k, json_dumps_indent (S level) x))
                 (kv :: kvs)))
      ++ newline_indent level ++ ch "}" :: rest.
Proof.
  cbn [json_dumps_indent]. change (u "{") with [ch "{"]. change (u "}") with [ch "}"].
  change (u ",") with [ch ","]. cbn [app]. rewrite <- !app_assoc. reflexivity.
Qed.

(** [scan_once] reads a value back from the indented text written for it,
    at every level of nesting. *)
Lemma scan_once_dumps_indent (v : json) :
  distinct_keys v = true -> Forall float_reloads (floats_of v) ->
  forall level fuel rest,
    (length (json_dumps_indent level v) <= fuel)%nat -> delimited rest = true ->
    scan_once fuel (json_dumps_indent level v ++ rest) = Parsed _ v rest.
Proof.
  induction v as [ |b|n|x|s|l IH|kvs IH] using json_nested_ind;
    intros Hdk Hfl level fuel rest Hfuel Hrest.
  - destruct fuel as [|f]; [cbn in Hfuel; lia|]. reflexivity.
  - destruct fuel as [|f]; [destruct b; cbn in Hfuel; lia|]. destruct b; reflexivity.
  - pose proof (term_start_length _ (proj2 (int_repr_chars n))) as Hlen.
    cbn [json_dumps_indent] in *. destruct fuel as [|f]; [lia|].
    apply scan_once_int. exact Hrest.
  - apply Forall_inv in Hfl.
    pose proof (term_start_length _ (proj2 (scan_once_float_chars _ _ Hfl))) as Hlen.
    cbn [json_dumps_indent] in *. destruct fuel as [|f]; [lia|].
    apply scan_once_float_app; assumption.
  - cbn [json_dumps_indent] in *. unfold encode_basestring in *.
    destruct fuel as [|f]; [cbn in Hfuel; lia|].
    cbn [app scan_once]. rewrite N.eqb_refl, <- app_assoc. cbn [app].
    rewrite scan_string_encoded. reflexivity.
  - destruct l as [|v l'].
    { destruct fuel as [|f]; [cbn in Hfuel; lia|]. reflexivity. }
    pose proof (dumps_indent_array_text level v l' []) as Htext.
    rewrite app_nil_r in Htext. rewrite Htext in Hfuel. clear Htext.
    rewrite dumps_indent_array_text.
    cbn [length] in Hfuel. rewrite !length_app in Hfuel. cbn [length] in Hfuel.
    destruct fuel as [|f]; [lia|].
    cbn [scan_once]. change (ch "[" =? dquote) with false. change (ch "[" =? ch "{") with false.
    rewrite N.eqb_refl. cbv iota.
    apply floats_of_items in Hfl. cbn [distinct_keys] in Hdk.
    assert (Forall (fun v => distinct_keys v = true) (v :: l')) as Hdk'
      by (apply Forall_forall; intros y Hy; rewrite forallb_forall in Hdk; apply Hdk;
          apply list_elem_of_In; exact Hy).
    assert (Forall2 (fun v t =>
                       term_start t = true /\
                       forall fuel rest,
                         (length t <= fuel)%nat -> delimited rest = true ->
                         scan_once fuel (t ++ rest) = Parsed _ v rest)
                    (v :: l') (map (json_dumps_indent (S level)) (v :: l'))) as Hre.
    { clear -IH Hdk' Hfl. induction IH as [|y r Hy _ IHr]; [constructor|].
      inversion_clear Hdk'. inversion_clear Hfl. cbn [map]. constructor; [|auto].
      split; [apply dumps_indent_term_start; assumption|]. intros fuel rest. apply Hy; assumption. }
    rewrite (skip_ws_app _ _ (newline_indent_spaces (S level))).
    remember (join (ch "," :: newline_indent (S level))
                (map (json_dumps_indent (S level)) (v :: l'))
              ++ newline_indent level ++ ch "]" :: rest) as body eqn:Hbody.
    assert (term_start body = true) as Hstart.
    { rewrite Hbody. inversion Hre as [|? ? ? ? [Hv _] Hr]; subst. cbn [map].
      apply join_head_term_start. exact Hv. }
    rewrite (skip_ws_term _ Hstart). destruct body as [|c' r']; [discriminate|].
    apply term_start_head in Hstart as [-> _]. rewrite Hbody.
    apply (parse_array_texts _ _ _ _ (newline_indent_spaces _) (newline_indent_spaces _) Hre);
      [discriminate|lia].
  - destruct kvs as [|kv kvs'].
    { destruct fuel as [|f]; [cbn in Hfuel; lia|]. reflexivity. }
    pose proof (dumps_indent_object_text level kv kvs' []) as Htext.
    rewrite app_nil_r in Htext. rewrite Htext in Hfuel. clear Htext.
    rewrite dumps_indent_object_text.
    cbn [length] in Hfuel. rewrite !length_app in Hfuel. cbn [length] in Hfuel.
    destruct fuel as [|f]; [lia|].
    cbn [scan_once]. change (ch "{" =? dquote) with false. rewrite N.eqb_refl. cbv iota.
    apply floats_of_fields in Hfl. cbn [distinct_keys] in Hdk.
    apply andb_prop in Hdk as [Hnd Hdk]. apply bool_decide_eq_true in Hnd.
    assert (Forall (fun kv : pystr * json => distinct_keys kv.2 = true) (kv :: kvs')) as Hdk'.
    { apply Forall_forall. intros [k y] Hy. rewrite forallb_forall in Hdk.
      apply list_elem_of_In, Hdk in Hy. exact Hy. }
    assert (Forall2 (fun (kv : pystr * json) (item : pystr * pystr) =>
                       item.1 = kv.1 /\ term_start item.2 = true /\
                       forall fuel rest,
                         (length item.2 <= fuel)%nat -> delimited rest = true ->
                         scan_once fuel (item.2 ++ rest) = Parsed _ kv.2 rest)
                    (kv :: kvs')
                    (map (fun kv => let '(k, x) := kv in (k, json_dumps_indent (S level) x))
                       (kv :: kvs'))) as Hre.
    { clear -IH Hdk' Hfl. induction IH as [|[k y] r Hy _ IHr]; [constructor|].
      inversion_clear Hdk'. inversion_clear Hfl. cbn [map]. constructor; [|auto].
      cbn [fst snd] in *. split; [reflexivity|].
      split; [apply dumps_indent_term_start; assumption|]. intros fuel rest. apply Hy; assumption. }
    rewrite (skip_ws_app _ _ (newline_indent_spaces (S level))).
    remember (join (ch "," :: newline_indent (S level))
                (map dump_item
                   (map (fun kv => let '(k, x) := kv in (k, json_dumps_indent (S level) x))
                      (kv :: kvs')))
              ++ newline_indent level ++ ch "}" :: rest) as body eqn:Hbody.
    assert (term_start body = true) as Hstart.
    { rewrite Hbody. destruct kv as [k y]. cbn [map]. apply join_head_term_start. reflexivity. }
    rewrite (skip_ws_term _ Hstart). destruct body as [|c' r']; [discriminate|].
    apply term_start_head in Hstart as [_ ->]. rewrite Hbody.
    apply (parse_object_texts _ _ _ _ (newline_indent_spaces _) (newline_indent_spaces _) Hre);
      [discriminate|exact Hnd|lia].
Qed.

(** X6.  [json.load] reads back the checkpoint that [json.dump(...,
    indent=2, ensure_ascii=False)] wrote: the text of a checkpoint file
    parses to the [{original, processed}] it was written for, whatever the
    finding and its entries, when the keys of their objects are distinct and
    their floats are read back from their own text. *)
Theorem checkpoint_text_reloads (original : json) (processed : list json) :
  let checkpoint_data :=
    JObj [(u "original", original); (u "processed", JArr processed)] in
  distinct_keys original = true ->
  forallb distinct_keys processed = true ->
  Forall float_reloads (floats_of checkpoint_data) ->
  json_loads (json_dumps_indent 0 checkpoint_data) = Ok checkpoint_data.
Proof.
  intros data Hdo Hdp Hfl.
  assert (distinct_keys data = true) as Hdk.
  { subst data. cbn [distinct_keys forallb]. rewrite Hdo, Hdp. reflexivity. }
  rewrite json_loads_scan by (apply dumps_indent_term_start; exact Hfl).
  pose proof (scan_once_dumps_indent data Hdk Hfl 0
                (2 * length (json_dumps_indent 0 data) + 1) []) as Hscan.
  rewrite app_nil_r in Hscan. rewrite Hscan by (try reflexivity; lia). reflexivity.
Qed.

(** *** Lines that are not JSON *)

Lemma json_loads_raises (s : pystr) (e : exn) :
  json_loads s = Raise e -> e = JSONDecodeError.
Proof.
  unfold json_loads.
  assert (match scan_once (2 * length s + 1) (skip_ws s) with
          | Parsed _ v rest =>
              match skip_ws rest with [] => Ok v | _ :: _ => Raise JSONDecodeError end
          | _ => Raise JSONDecodeError
          end = Raise e -> e = JSONDecodeError) as Hscan.
  { destruct (scan_once _ _) as [v rest| |]; [destruct (skip_ws rest)|..]; congruence. }
  destruct s as [|c r]; [exact Hscan|]. destruct c as [|p]; [exact Hscan|].
  revert Hscan. generalize (scan_once (2 * length (N.pos p :: r) + 1) (skip_ws (N.pos p :: r))).
  intros sc Hscan. repeat (destruct p as [p|p|]; try exact Hscan). congruence.
Qed.

Lemma json_loads_blank (s : pystr) :
  forallb is_json_space s = true -> json_loads s = Raise JSONDecodeError.
Proof.
  intros Hs. destruct (json_loads s) as [v|e] eqn:Hv; [|apply json_loads_raises in Hv; congruence].
  exfalso. revert Hv. unfold json_loads. rewrite (skip_ws_spaces s Hs).
  destruct s as [|c r]; [discriminate|].
  destruct (N.eqb_spec c 65279) as [->|Hc]; [discriminate|].
  destruct c as [|p]; [discriminate|].
  repeat (destruct p as [p|p|]; try discriminate).
Qed.

Lemma loads_all_raises (ls : list pystr) (l : pystr) :
  In l ls -> json_loads l = Raise JSONDecodeError -> loads_all ls = Raise JSONDecodeError.
Proof.
  induction ls as [|l' r IH]; [contradiction|]. intros [->|Hin] Hl; cbn [loads_all].
  - rewrite Hl. reflexivity.
  - destruct (json_loads l') as [v|e] eqn:Hv.
    + cbn [mbind result_bind]. rewrite (IH Hin Hl). reflexivity.
    + apply json_loads_raises in Hv as ->. reflexivity.
Qed.

(** X21.  One blank line anywhere in the file, a trailing one included, makes
    the reading loop raise [JSONDecodeError], so that no finding is
    processed. *)
Theorem blank_line_halts_reading (text l : pystr) :
  In l (lines text) ->
  forallb is_json_space l = true ->
  read_findings text = Raise JSONDecodeError.
Proof.
  intros Hin Hblank. unfold read_findings.
  apply (loads_all_raises _ l Hin). apply json_loads_blank. exact Hblank.
Qed.

(** *** The records [build_database.py] writes *)

(** X22.  The record written for a finding that is an object has the six
    fields the loop reads, a missing one standing as the empty string, and
    distinct keys; a finding that is not an object raises
    [AttributeError]. *)
Theorem finding_record_has_fields (doc_id : Z) (finding : json) :
  match finding with
  | JObj kvs =>
      exists record,
        finding_record doc_id finding = Ok record /\
        has_required_fields record = true /\
        field "document_id" record = JInt doc_id /\
        (forall k, In k (tl required_fields) ->
                   getitem record (SubStr k)
                   = Ok (match dict_get kvs k with Some x => x | None => JStr [] end)) /\
        (distinct_keys finding = true -> distinct_keys record = true)
  | _ => finding_record doc_id finding = Raise AttributeError
  end.
Proof.
  destruct finding as [ |b|n|x|s|l|kvs]; try reflexivity.
  eexists. split; [reflexivity|]. split; [reflexivity|]. split; [reflexivity|]. split.
  - intros k Hk. cbn [tl required_fields In] in Hk.
    repeat (destruct Hk as [<-|Hk]; [reflexivity|]). contradiction.
  - cbn [distinct_keys]. intros [_ Hd]%andb_prop. rewrite forallb_forall in Hd.
    apply andb_true_intro. split; [reflexivity|]. cbn [forallb].
    repeat match goal with
           | |- context [match dict_get kvs ?k with _ => _ end] =>
               let E := fresh "E" in
               destruct (dict_get kvs k) as [?x|] eqn:E
           end;
      repeat match goal with
             | E : dict_get kvs _ = Some ?x |- _ =>
                 assert (distinct_keys x = true) as ->
                   by (clear -E Hd; induction kvs as [|[k' y] r IH];
                       [discriminate|];
                       cbn [dict_get] in E; case_bool_decide;
                       [injection E as <-; apply (Hd (k', y)); left; reflexivity
                       |apply IH; [intros kv Hkv; apply Hd; right; exact Hkv|exact E]]);
                 clear E
             end; reflexivity.
Qed.

(** *** The fuel of the parser is enough *)

Lemma skip_ws_length (s : pystr) : (length (skip_ws s) <= length s)%nat.
Proof.
  induction s as [|c r IH]; [reflexivity|]. cbn [skip_ws].
  destruct (is_json_space c); cbn [length]; lia.
Qed.

Lemma scan_string_consumes (n : nat) :
  forall s acc,
    (length s <= n)%nat ->
    match scan_string s acc with
    | Parsed _ _ rest => (length rest < length s)%nat
    | Malformed _ => True
    | OutOfFuel _ => False
    end.
Proof.
  induction n as [|n IH]; intros s acc Hlen.
  - destruct s; [exact I|cbn [length] in Hlen; lia].
  - destruct s as [|c r]; [exact I|]. cbn [length] in Hlen. cbn [scan_string].
    assert (forall t acc', (length t <= length r)%nat ->
              match scan_string t acc' with
              | Parsed _ _ rest => (length rest < length (c :: r))%nat
              | Malformed _ => True
              | OutOfFuel _ => False
              end) as Hrec.
    { intros t acc' Ht. specialize (IH t acc' ltac:(lia)).
      destruct (scan_string t acc'); auto. cbn [length]. lia. }
    destruct (c =? dquote); [cbn [length]; lia|].
    destruct (c =? backslash).
    + destruct r as [|e r1]; [exact I|]. destruct (e =? ch "u").
      * destruct r1 as [|h1 [|h2 [|h3 [|h4 r2]]]]; try exact I.
        destruct (hex4 h1 h2 h3 h4) as [c1|]; [|exact I].
        destruct (is_high_surrogate c1).
        -- destruct r2 as [|b [|e2 [|g1 [|g2 [|g3 [|g4 r3]]]]]];
             try (apply Hrec; cbn [length]; lia).
           destruct ((b =? backslash) && (e2 =? ch "u")).
           ++ destruct (hex4 g1 g2 g3 g4) as [c2|]; [|exact I].
              destruct (is_low_surrogate c2); apply Hrec; cbn [length]; lia.
           ++ apply Hrec; cbn [length]; lia.
        -- apply Hrec; cbn [length]; lia.
      * destruct (unescape e); [|exact I]. apply Hrec; cbn [length]; lia.
    + destruct (c <? 32); [exact I|]. apply Hrec. lia.
Qed.

Lemma match_number_consumes (s : pystr) :
  match match_number s with
  | Parsed _ _ rest => (length rest < length s)%nat
  | Malformed _ => True
  | OutOfFuel _ => False
  end.
Proof.
  rewrite match_number_eq. destruct (number_sign_split s) as [Hs _].
  destruct (number_sign s) as [sign s1]. cbn [fst snd] in Hs.
  destruct s1 as [|d r]; [exact I|]. destruct (is_digit d) eqn:Hd; [|exact I]. cbn [negb].
  destruct (number_int_split d r Hd) as [H1 _].
  assert (length (number_int d r).2 <= length r)%nat as Hint.
  { apply (f_equal (@length N)) in H1. rewrite length_app in H1. cbn [length] in H1.
    unfold number_int in *. destruct (d =? 48); [cbn [fst snd length] in *; lia|].
    destruct (span_digits r). cbn [fst snd length] in *. lia. }
  destruct (number_int d r) as [int_digits s2].
  destruct (number_frac_split s2) as [H2 _]. destruct (number_frac s2) as [frac s3].
  destruct (number_expo_split s3) as [H3 _]. destruct (number_expo s3) as [expo s4].
  cbn [fst snd] in *. rewrite number_result_eq.
  apply (f_equal (@length N)) in Hs, H2, H3. rewrite length_app in Hs, H2, H3.
  cbn [length] in Hs. lia.
Qed.

Lemma strip_prefix_consumes (p s rest : pystr) :
  p <> [] -> strip_prefix p s = Some rest -> (length rest < length s)%nat.
Proof.
  intros Hp Hs. apply strip_prefix_some in Hs. subst s. rewrite length_app.
  destruct p; [contradiction|]. cbn [length]. lia.
Qed.

(** A term that is read leaves less text than it was given, and the fuel
    runs out only when there was less of it than twice the text. *)
Lemma parser_consumes (fuel : nat) :
  (forall s,
     match scan_once fuel s with
     | Parsed _ _ rest => (length rest < length s)%nat
     | Malformed _ => True
     | OutOfFuel _ => (fuel < 2 * length s + 1)%nat
     end) /\
  (forall acc s,
     match parse_array fuel acc s with
     | Parsed _ _ rest => (length rest < length s)%nat
     | Malformed _ => True
     | OutOfFuel _ => (fuel < 2 * length s + 2)%nat
     end) /\
  (forall acc s,
     match parse_object fuel acc s with
     | Parsed _ _ rest => (length rest < length s)%nat
     | Malformed _ => True
     | OutOfFuel _ => (fuel < 2 * length s + 2)%nat
     end).
Proof.
  induction fuel as [|f (IHs & IHa & IHo)]; [repeat split; intros; cbn; lia|].
  repeat split.
  - intros s. cbn [scan_once]. destruct s as [|c r]; [exact I|].
    destruct (c =? dquote).
    { pose proof (scan_string_consumes _ r [] (le_n _)) as Hr.
      destruct (scan_string r []); cbn [parsed_map length]; [lia|exact I|contradiction]. }
    destruct (c =? ch "{").
    { pose proof (skip_ws_length r) as Hr. destruct (skip_ws r) as [|c' r']; [exact I|].
      cbn [length] in *. destruct (c' =? ch "}"); [lia|].
      specialize (IHo [] (c' :: r')). destruct (parse_object f [] (c' :: r'));
        cbn [length] in *; auto; lia. }
    destruct (c =? ch "[").
    { pose proof (skip_ws_length r) as Hr. destruct (skip_ws r) as [|c' r']; [exact I|].
      cbn [length] in *. destruct (c' =? ch "]"); [lia|].
      specialize (IHa [] (c' :: r')). destruct (parse_array f [] (c' :: r'));
        cbn [length] in *; auto; lia. }
    repeat match goal with
           | |- context [match strip_prefix ?p ?t with _ => _ end] =>
               let E := fresh "E" in
               destruct (strip_prefix p t) eqn:E;
               [apply strip_prefix_consumes in E; [exact E|discriminate]|]
           end.
    pose proof (match_number_consumes (c :: r)) as Hn.
    destruct (match_number (c :: r)); auto; contradiction.
  - intros acc s. cbn [parse_array]. specialize (IHs s).
    destruct (scan_once f s) as [v rest| |]; [|exact I|lia].
    pose proof (skip_ws_length rest) as Hr. destruct (skip_ws rest) as [|c r]; [exact I|].
    cbn [length] in Hr. destruct (c =? ch "]"); [lia|]. destruct (c =? ch ","); [|exact I].
    pose proof (skip_ws_length r) as Hr'. specialize (IHa (v :: acc) (skip_ws r)).
    destruct (parse_array f (v :: acc) (skip_ws r)); auto; lia.
  - intros acc s. cbn [parse_object]. destruct s as [|q r]; [exact I|].
    destruct (q =? dquote); [|exact I].
    pose proof (scan_string_consumes _ r [] (le_n _)) as Hkey.
    destruct (scan_string r []) as [key rest1| |]; [|exact I|contradiction].
    pose proof (skip_ws_length rest1) as H1. destruct (skip_ws rest1) as [|colon r1]; [exact I|].
    cbn [length] in H1 |- *. destruct (colon =? ch ":"); [|exact I].
    pose proof (skip_ws_length r1) as H2. specialize (IHs (skip_ws r1)).
    destruct (scan_once f (skip_ws r1)) as [v rest'| |]; [|exact I|lia].
    pose proof (skip_ws_length rest') as H3. destruct (skip_ws rest') as [|c r2]; [exact I|].
    cbn [length] in H3. destruct (c =? ch "}"); [lia|]. destruct (c =? ch ","); [|exact I].
    pose proof (skip_ws_length r2) as H4. specialize (IHo (dict_set acc key v) (skip_ws r2)).
    destruct (parse_object f (dict_set acc key v) (skip_ws r2)); auto; lia.
Qed.

(** [json_loads] gives the parser enough fuel: it raises only on a text that
    is not JSON. *)
Lemma json_loads_fuel (s : pystr) :
  scan_once (2 * length s + 1) (skip_ws s) <> OutOfFuel _.
Proof.
  intros Hout. pose proof (proj1 (parser_consumes (2 * length s + 1)) (skip_ws s)) as Hs.
  rewrite Hout in Hs. pose proof (skip_ws_length s). lia.
Qed.

(** *** Which values can be written *)

Lemma join_sep_encodable (sep : pystr) (parts : list pystr) :
  forallb encodable_char sep = true ->
  forallb encodable_char (join sep parts) = forallb (forallb encodable_char) parts.
Proof.
  intros Hsep. induction parts as [|p r IH]; [reflexivity|]. destruct r as [|q r].
  - cbn [join forallb]. rewrite andb_true_r. reflexivity.
  - change (join sep (p :: q :: r)) with (p ++ sep ++ join sep (q :: r)).
    rewrite !forallb_app, IH, Hsep. reflexivity.
Qed.

Lemma json_dumps_plain_encodable (v : json) :
  forallb encodable_char (json_dumps_plain v) = encodable v.
Proof.
  induction v as [ |b|n|x|s|l IH|kvs IH] using json_nested_ind;
    cbn [json_dumps_plain encodable].
  - reflexivity.
  - destruct b; reflexivity.
  - apply u_encodable.
  - reflexivity.
  - apply encode_basestring_encodable.
  - rewrite !forallb_app, !u_encodable, join_encodable. cbn [andb]. rewrite andb_true_r.
    induction IH as [|v r Hv _ IHr]; [reflexivity|]. cbn [map forallb]. rewrite Hv, IHr. reflexivity.
  - rewrite !forallb_app, !u_encodable, join_encodable. cbn [andb]. rewrite andb_true_r.
    induction IH as [|[k x] r Hx _ IHr]; [reflexivity|]. cbn [map forallb].
    rewrite IHr. f_equal. unfold dump_item. cbn [fst snd] in *.
    rewrite !forallb_app, encode_basestring_encodable, u_encodable, Hx. reflexivity.
Qed.

Lemma newline_indent_encodable (level : nat) :
  forallb encodable_char (newline_indent level) = true.
Proof.
  unfold newline_indent. cbn [forallb]. change (encodable_char 10) with true. cbn [andb].
  induction (2 * level)%nat as [|k IH]; [reflexivity|]. cbn [repeat forallb].
  rewrite IH. reflexivity.
Qed.

Lemma json_dumps_indent_encodable (v : json) (level : nat) :
  forallb encodable_char (json_dumps_indent level v) = encodable v.
Proof.
  revert level.
  induction v as [ |b|n|x|s|l IH|kvs IH] using json_nested_ind; intros level;
    cbn [json_dumps_indent encodable].
  - reflexivity.
  - destruct b; reflexivity.
  - apply u_encodable.
  - reflexivity.
  - apply encode_basestring_encodable.
  - destruct l as [|v l']; [reflexivity|].
    rewrite !forallb_app, !u_encodable, !newline_indent_encodable.
    rewrite join_sep_encodable
      by (rewrite forallb_app, u_encodable, newline_indent_encodable; reflexivity).
    cbn [andb]. rewrite andb_true_r.
    induction IH as [|y r Hy _ IHr]; [reflexivity|]. cbn [map forallb]. rewrite Hy, IHr. reflexivity.
  - destruct kvs as [|kv kvs']; [reflexivity|].
    rewrite !forallb_app, !u_encodable, !newline_indent_encodable.
    rewrite join_sep_encodable
      by (rewrite forallb_app, u_encodable, newline_indent_encodable; reflexivity).
    cbn [andb]. rewrite andb_true_r.
    induction IH as [|[k x] r Hx _ IHr]; [reflexivity|]. cbn [map forallb].
    rewrite IHr. f_equal. unfold dump_item. cbn [fst snd] in *.
    rewrite !forallb_app, encode_basestring_encodable, u_encodable, Hx. reflexivity.
Qed.

(** X23.  The line [f.write] is given for an entry, and the text [json.dump]
    produces for a checkpoint, can be encoded in UTF-8 exactly when the value
    holds no character that cannot be. *)
Theorem written_text_encodable (v : json) :
  (is_Some (utf8_encode (json_dumps_plain v ++ [10])) <-> encodable v = true) /\
  (is_Some (utf8_encode (json_dumps_indent 0 v)) <-> encodable v = true).
Proof.
  rewrite !utf8_encode_some, forallb_app, json_dumps_plain_encodable,
    json_dumps_indent_encodable.
  cbn [forallb]. change (encodable_char 10) with true. cbn [andb]. rewrite andb_true_r.
  split; reflexivity.
Qed.

(** *** The records of an expansion can be written *)

Lemma seq_index_in {A} (l : list A) (i : Z) (a : A) : seq_index l i = Ok a -> In a l.
Proof.
  unfold seq_index. destruct (_ && _)%bool; [|discriminate].
  destruct (l !! _) as [x|] eqn:Hx; [|discriminate]. intros [= <-].
  apply list_elem_of_In. eapply list_elem_of_lookup_2. exact Hx.
Qed.

Lemma dict_get_in (kvs : list (pystr * json)) (k : pystr) (x : json) :
  dict_get kvs k = Some x -> exists k', In (k', x) kvs.
Proof.
  induction kvs as [|[k' y] r IH]; [discriminate|]. cbn [dict_get].
  case_bool_decide.
  - intros [= <-]. exists k'. left. reflexivity.
  - intros Hx. destruct (IH Hx) as [k'' Hin]. exists k''. right. exact Hin.
Qed.

Lemma getitem_encodable (v : json) (s : subscript) (x : json) :
  encodable v = true -> getitem v s = Ok x -> encodable x = true.
Proof.
  destruct v as [ |b|n|y|t|l|kvs], s as [k|i]; cbn [getitem encodable]; try discriminate;
    intros Hv.
  - unfold mbind, result_bind. destruct (seq_index t i) as [c|] eqn:Hc; [|discriminate].
    intros [= <-]. cbn [encodable forallb]. rewrite forallb_forall in Hv.
    rewrite (Hv c (seq_index_in _ _ _ Hc)). reflexivity.
  - intros Hx. apply seq_index_in in Hx. rewrite forallb_forall in Hv. auto.
  - destruct (dict_get kvs k) as [y|] eqn:Hy; [|discriminate]. intros [= <-].
    destruct (dict_get_in _ _ _ Hy) as [k' Hin]. rewrite forallb_forall in Hv.
    apply Hv in Hin. apply andb_prop in Hin as [_ Hin]. exact Hin.
Qed.

Lemma field_encodable (k : string) (v : json) :
  encodable v = true -> encodable (field k v) = true.
Proof.
  intros Hv. unfold field. destruct (getitem v (SubStr (u k))) as [x|] eqn:Hx; [|reflexivity].
  exact (getitem_encodable _ _ _ Hv Hx).
Qed.

Lemma re_split_keeps (P : N -> Prop) (s : pystr) :
  Forall P s -> Forall (Forall P) (re_split s).
Proof.
  induction 1 as [|c s Hc Hs IH]; cbn [re_split]; [repeat constructor|].
  destruct (is_separator c); [constructor; [constructor|exact IH]|].
  destruct (re_split s) as [|p ps]; [repeat constructor; exact Hc|].
  inversion_clear IH. constructor; [constructor|]; assumption.
Qed.

Lemma atomic_hosts_encodable (host_species : json) (hosts : list json) :
  encodable host_species = true -> atomic_hosts host_species = Ok hosts ->
  forallb encodable hosts = true.
Proof.
  intros Henc. unfold atomic_hosts, split_species.
  destruct (negb (truthy host_species)).
  { intros [= <-]. cbn [forallb]. rewrite Henc. reflexivity. }
  destruct host_species as [| | | |s| |]; try discriminate. cbn [mbind result_bind].
  assert (forallb encodable (stripped_atoms (re_split s)) = true) as Hatoms.
  { cbn [encodable] in Henc. apply forallb_forall. intros a Ha.
    unfold stripped_atoms in Ha. apply in_map_iff in Ha as (piece & <- & Hin).
    apply list_elem_of_In, list_elem_of_filter in Hin as [_ Hin]. cbn [encodable].
    assert (Forall (fun c => encodable_char c = true) s) as Hs
      by (apply Forall_forall; intros c Hc; rewrite forallb_forall in Henc;
          apply Henc, list_elem_of_In, Hc).
    pose proof (re_split_keeps _ _ Hs) as Hall. rewrite Forall_forall in Hall.
    apply Hall in Hin. apply (strip_keeps _ piece) in Hin.
    apply forallb_forall. intros c Hc. rewrite Forall_forall in Hin.
    apply Hin, list_elem_of_In, Hc. }
  destruct (stripped_atoms (re_split s)) as [|a l]; intros [= <-]; [|exact Hatoms].
  cbn [forallb]. rewrite Henc. reflexivity.
Qed.

Lemma enriched_encodable (finding : json) (pair : json * json) (reply : http_reply) :
  encodable finding = true -> encodable pair.1 = true -> encodable pair.2 = true ->
  encodable (coordinates_of reply) = true ->
  encodable (enriched finding pair reply) = true.
Proof.
  intros Hf Hhost Hfr Hco. unfold enriched, assemble, processed_finding.
  cbn [encodable forallb]. rewrite !u_encodable.
  rewrite !field_encodable by assumption. rewrite Hhost. reflexivity.
Qed.

(** X24.  What an expansion builds can be written: when the finding has a
    digest and the fragments and the coordinates found hold no character
    that cannot be encoded, neither does any record, nor the checkpoint made
    of the finding and its records. *)
Theorem expansion_records_encodable (finding : json) (h : pystr)
    (hosts frags : list json) (replies : list http_reply) :
  get_finding_hash finding = Ok h ->
  atomic_hosts (field "host_species" finding) = Ok hosts ->
  forallb encodable frags = true ->
  forallb encodable (map coordinates_of replies) = true ->
  forallb encodable (zip_with (enriched finding) (list_prod hosts frags) replies) = true /\
  encodable (JObj [(u "original", finding);
                   (u "processed",
                    JArr (zip_with (enriched finding) (list_prod hosts frags) replies))])
  = true.
Proof.
  intros Hh Hhosts Hfrags Hco.
  pose proof (get_finding_hash_encodable _ _ Hh) as Hf.
  pose proof (atomic_hosts_encodable _ _ (field_encodable "host_species" _ Hf) Hhosts) as Hho.
  assert (forallb encodable (zip_with (enriched finding) (list_prod hosts frags) replies) = true)
    as Hrec.
  { apply forallb_forall. intros r Hr. apply list_elem_of_In, elem_of_lookup_zip_with in Hr
      as (i & pair & reply & -> & Hp & Hreply).
    apply list_elem_of_lookup_2, list_elem_of_In in Hp, Hreply.
    destruct pair as [host fr]. apply in_prod_iff in Hp as [Hhost Hfr].
    rewrite forallb_forall in Hho, Hfrags, Hco.
    apply enriched_encodable; cbn [fst snd]; auto.
    apply Hco, in_map, Hreply. }
  split; [exact Hrec|]. cbn [encodable forallb]. rewrite !u_encodable, Hf, Hrec. reflexivity.
Qed.

End Further.

(** * The script on concrete inputs *)

Import Demo.

Lemma ended_with {A B} (x : A * B) (b : B) : x.2 = b -> x = (x.1, b).
Proof. destruct x. simpl. intros ->. reflexivity. Qed.

Example md5_of_abc :
  option_map MD5.hexdigest (utf8_encode (u "abc")) = Some (u "900150983cd24fb0d6963f7d28e17f72").
Proof. vm_compute. reflexivity. Qed.

Example digest_of_bonamia : get_finding_hash bonamia = Ok bonamia_digest.
Proof. reflexivity. Qed.

Example split_species_example :
  split_species (str " A, B/ C ,, ") = Ok [str "A"; str "B"; str "C"].
Proof. reflexivity. Qed.

Example json_loads_trailing_comma : json_loads (u "[1, 2,]") = Raise JSONDecodeError.
Proof. reflexivity. Qed.

(** The checkpoint of a finding without entries, as [json.dump] with
    [indent=2] lays it out. *)
Example checkpoint_text_example :
  json_dumps_indent 0 (JObj [(u "original", JObj [(u "document_id", JInt 7)]);
                             (u "processed", JArr [])])
  = u "{" ++ [10]
    ++ u "  " ++ quoted (u "original") ++ u ": {" ++ [10]
    ++ u "    " ++ quoted (u "document_id") ++ u ": 7" ++ [10]
    ++ u "  }," ++ [10]
    ++ u "  " ++ quoted (u "processed") ++ u ": []" ++ [10]
    ++ u "}".
Proof. vm_compute. reflexivity. Qed.

(** The scenario of the specification: two rows, same document, parasite
    and host, one per area. *)
Example scenario_two_rows :
  output_file (process_finding (SV := scripted) bonamia bonamia_state).1
  = [processed_finding (JInt 7) (str "Bonamia ostreae") (str "Crassostrea gigas")
       (str "France") (str "Arcachon Bay") (JFloat (u "44.66")) (JFloat (u "-1.17")) (str "High");
     processed_finding (JInt 7) (str "Bonamia ostreae") (str "Crassostrea gigas")
       (str "France") (JStr oleron) (JFloat (u "45.9")) (JFloat (u "-1.2")) (str "High")].
Proof. reflexivity. Qed.

Lemma second_pass_replays_checkpoint_witness :
  let st1 := (process_finding (SV := scripted) bonamia bonamia_state).1 in
  exists entries,
    output_file st1 = output_file bonamia_state ++ entries /\
    process_finding (SV := scripted) bonamia st1
    = (State (world st1) (checkpoint_dir st1) (output_file st1 ++ entries)
             (log st1 ++ map EvAppend entries), Ok ()) /\
    Forall (fun e => is_call e = false) (map EvAppend entries).
Proof.
  intros st1.
  exact (second_pass_replays_checkpoint (SV := scripted) bonamia bonamia_state st1 eq_refl).
Defined.

Lemma get_finding_hash_order_independent_witness :
  get_finding_hash (JObj bonamia_fields) = get_finding_hash (JObj (rev bonamia_fields)).
Proof.
  apply get_finding_hash_order_independent.
  - apply (bool_decide_unpack _). vm_compute. exact I.
  - apply Permutation_rev.
Defined.

Lemma atomic_hosts_nonempty_witness :
  exists hosts, atomic_hosts (str " , / ") = Ok hosts /\ hosts = [str " , / "].
Proof.
  destruct (atomic_hosts_nonempty (u " , / ")) as (hosts & Hok & _ & Hfallback & _).
  exists hosts. split; [exact Hok|]. apply Hfallback. right. reflexivity.
Defined.

Lemma cross_product_complete_witness :
  exists st' records,
    process_finding (SV := scripted) perkinsus perkinsus_state = (st', Ok ()) /\
    output_file st' = output_file perkinsus_state ++ records /\
    length records = 4%nat.
Proof.
  destruct (cross_product_complete (SV := scripted) perkinsus perkinsus_digest
              perkinsus_state [str "A"; str "B"] perkinsus_fragments
              eq_refl eq_refl eq_refl eq_refl eq_refl eq_refl eq_refl)
    as (st' & records & Hrun & Hout & Hlen & _).
  exists st', records. auto.
Defined.

Lemma geocoding_failure_is_isolated_witness :
  exists st',
    process_finding (SV := scripted) perkinsus perkinsus_state = (st', Ok ()) /\
    (field "latitude" <$> output_file st' !! 0%nat) = Some (JFloat (u "37.5")) /\
    (field "latitude" <$> output_file st' !! 1%nat) = Some JNull /\
    (field "latitude" <$> output_file st' !! 2%nat) = Some (JFloat (u "37.5")) /\
    (field "latitude" <$> output_file st' !! 3%nat) = Some JNull.
Proof.
  destruct (proj2 (geocoding_failure_is_isolated (SV := scripted)) perkinsus perkinsus_digest
              perkinsus_state [str "A"; str "B"] perkinsus_fragments
              eq_refl eq_refl eq_refl eq_refl eq_refl eq_refl eq_refl)
    as (st' & Hrun & Hrecords).
  exists st'. split; [exact Hrun|].
  repeat split.
  - destruct (Hrecords 0%nat _ eq_refl) as (reply & [= <-] & Hrec & _).
    cbn [length output_file perkinsus_state start Nat.add] in Hrec. rewrite Hrec. reflexivity.
  - destruct (Hrecords 1%nat _ eq_refl) as (reply & [= <-] & Hrec & _).
    cbn [length output_file perkinsus_state start Nat.add] in Hrec. rewrite Hrec. reflexivity.
  - destruct (Hrecords 2%nat _ eq_refl) as (reply & [= <-] & Hrec & _).
    cbn [length output_file perkinsus_state start Nat.add] in Hrec. rewrite Hrec. reflexivity.
  - destruct (Hrecords 3%nat _ eq_refl) as (reply & [= <-] & Hrec & _).
    cbn [length output_file perkinsus_state start Nat.add] in Hrec. rewrite Hrec. reflexivity.
Defined.

Lemma missing_field_halts_run_witness :
  let st_mid := (run (SV := scripted) [bonamia] bonamia_state).1 in
  exists k,
    In k required_fields /\ dict_get no_area k = None /\
    run (SV := scripted) ([bonamia] ++ JObj no_area :: [perkinsus]) bonamia_state
    = (st_mid, Raise (KeyError (SubStr k))).
Proof.
  intros st_mid.
  assert (In (u "area") required_fields) as Hin by (simpl; auto 10).
  destruct (missing_field_halts_run (SV := scripted) no_area no_area_digest (u "area")
              [bonamia] [perkinsus] bonamia_state st_mid eq_refl eq_refl eq_refl Hin eq_refl)
    as (k & Hk & Hnone & _ & Hrun).
  exists k. auto.
Defined.

Lemma checkpoint_saved_before_output_witness :
  let st1 := (process_finding (SV := scripted) bonamia bonamia_state).1 in
  exists evs,
    log st1 = log bonamia_state ++ evs /\
    disk st1 = replay evs (disk bonamia_state) /\
    forall n,
      (replay (take n evs) (disk bonamia_state)).2 <> output_file bonamia_state ->
      exists records k,
        (replay (take n evs) (disk bonamia_state)).1 !! bonamia_digest
        = Some (checkpoint_of bonamia records) /\
        (replay (take n evs) (disk bonamia_state)).2 = output_file bonamia_state ++ take k records.
Proof.
  intros st1.
  destruct (checkpoint_saved_before_output (SV := scripted) bonamia bonamia_digest
              bonamia_state st1 (Ok ()) eq_refl eq_refl eq_refl)
    as (evs & Hlog & Hdisk & _ & _ & Hcut).
  exists evs. auto.
Defined.

Lemma keyless_fragment_aborts_run_witness :
  exists st' k,
    (k = u "country" \/ k = u "area") /\
    run (SV := scripted) (bonamia :: [perkinsus]) keyless_state
    = (st', Raise (KeyError (SubStr k))) /\
    checkpoint_dir st' = checkpoint_dir keyless_state /\
    output_file st' = output_file keyless_state.
Proof.
  destruct (keyless_fragment_aborts_run (SV := scripted) bonamia bonamia_digest keyless_state
              [str "Crassostrea gigas"] keyless_text keyless_text
              [(u "area", str "Arcachon Bay")] [] [perkinsus]
              eq_refl eq_refl eq_refl eq_refl eq_refl eq_refl eq_refl (or_introl eq_refl))
    as (st' & k & _ & Hk & Hnone & Hrun & Hdir & Hout).
  exists st', k. auto.
Defined.

(** C4: the code at the failing input.  The service answers with an empty
    array: the decomposer returns no fragment, and the finding is
    checkpointed with no record and contributes nothing to the output. *)
Theorem empty_array_reply_yields_no_fragment :
  (extract_areas_with_llm (SV := scripted) (str "France") (JStr (u "Arcachon Bay and " ++ oleron))
     empty_array_state).2 = Ok (JArr []) /\
  let st' := (process_finding (SV := scripted) bonamia empty_array_state).1 in
  (process_finding (SV := scripted) bonamia empty_array_state).2 = Ok () /\
  output_file st' = [] /\
  checkpoint_dir st' !! bonamia_digest = Some (checkpoint_of bonamia []).
Proof. repeat split; reflexivity. Qed.

(** Two findings, the run terminated once the first is checkpointed and
    written ([N = 1] of [M = 2]): the fresh run makes [M - N = 1]
    decomposition request, and the output file then holds the first
    finding's entries twice, so that it has the entries of the output of an
    uninterrupted run without being a permutation of it. *)
Example restart_output_repeats_entries :
  (run (SV := same_place) restart_findings restart_start).2 = Ok () /\
  saves (take 6 (log restart_full)) = 1%nat /\
  (run (SV := same_place) restart_findings restart_crash).2 = Ok () /\
  decompositions (log restart_fresh) = 1%nat /\
  ~ (output_file restart_fresh ≡ₚ output_file restart_full).
Proof.
  repeat split; try reflexivity.
  intros Hperm. apply Permutation_length in Hperm. vm_compute in Hperm. discriminate.
Qed.


(** ** The further properties on concrete inputs *)

Lemma split_species_atoms_witness :
  exists s,
    str "B" = JStr s /\ s <> [] /\ strip s = s /\
    Forall (fun c => is_separator c = false) s /\
    (forall c r, s = c :: r -> is_whitespace c = false) /\
    (forall c r, s = r ++ [c] -> is_whitespace c = false).
Proof.
  exact (split_species_atoms (str " A, B/ C ,, ") [str "A"; str "B"; str "C"] (str "B")
           eq_refl (or_intror (or_introl eq_refl))).
Defined.

Lemma extract_areas_fallback_witness :
  (extract_areas_with_llm (SV := scripted) (str "France") (str "Arcachon Bay")
     (start scripted ([LlmContent (Some (u "no array here"))], []))).2
  = Ok (JArr [JObj [(u "country", str "France"); (u "area", str "Arcachon Bay")]]).
Proof.
  apply (extract_areas_fallback (SV := scripted)).
  right. right. exists (u "no array here"). split; [reflexivity|]. left. reflexivity.
Defined.

Lemma get_coordinates_reads_first_candidate_witness :
  (get_coordinates (SV := scripted) (str "Arcachon Bay") (str "France")
     (start scripted ([], [found "44.66" "-1.17"]))).2
  = Ok (JObj [(u "latitude", JFloat (u "44.66")); (u "longitude", JFloat (u "-1.17"))]).
Proof.
  exact (proj1 (get_coordinates_reads_first_candidate (SV := scripted) (str "Arcachon Bay")
                  (str "France") (start scripted ([], [found "44.66" "-1.17"])))
           [(u "lat", str "44.66"); (u "lon", str "-1.17")] [] (str "44.66") (str "-1.17")
           (u "44.66") (u "-1.17") eq_refl eq_refl eq_refl eq_refl eq_refl).
Defined.

Lemma unusable_checkpoint_is_replaced_witness :
  exists records,
    checkpoint_dir (process_finding (SV := scripted) bonamia unreadable_state).1 !! bonamia_digest
    = Some (checkpoint_of bonamia records) /\
    output_file (process_finding (SV := scripted) bonamia unreadable_state).1
    = output_file unreadable_state ++ records.
Proof.
  exact (unusable_checkpoint_is_replaced (SV := scripted) bonamia bonamia_digest unreadable_state
           (process_finding (SV := scripted) bonamia unreadable_state).1
           eq_refl (or_introl eq_refl)
           (ended_with (process_finding (SV := scripted) bonamia unreadable_state) (Ok ()) eq_refl)).
Defined.


Lemma checkpoint_without_processed_halts_witness :
  run (SV := scripted) (bonamia :: [perkinsus]) headless_state
  = (headless_state, Raise (KeyError (SubStr (u "processed")))).
Proof.
  apply (checkpoint_without_processed_halts (SV := scripted) bonamia bonamia_digest
           headless_state [(u "original", bonamia)] [perkinsus] eq_refl eq_refl);
    [discriminate|reflexivity].
Defined.

Lemma one_geocoding_per_record_witness :
  exists st' evs,
    process_finding (SV := scripted) perkinsus perkinsus_state = (st', Ok ()) /\
    log st' = log perkinsus_state ++ evs /\
    decompositions evs = 1%nat /\
    geocodings evs = 4%nat /\
    saves evs = 1%nat /\
    length (appended evs) = 4%nat.
Proof.
  exact (one_geocoding_per_record (SV := scripted) perkinsus perkinsus_digest
           perkinsus_state [str "A"; str "B"] perkinsus_fragments
           eq_refl eq_refl eq_refl eq_refl eq_refl eq_refl eq_refl).
Defined.

Lemma host_species_of_other_type_witness :
  run (SV := scripted) (numbered_host :: [bonamia]) bonamia_state
  = (bonamia_state, Raise TypeError).
Proof.
  apply (proj2 (host_species_of_other_type (SV := scripted) numbered_host numbered_host_digest
                  bonamia_state [bonamia])); try reflexivity.
  intros s. discriminate.
Defined.

Lemma get_finding_hash_nested_order_witness :
  get_finding_hash nested_finding = get_finding_hash nested_finding_reordered.
Proof.
  apply get_finding_hash_nested_order; [reflexivity|].
  apply (reordered_object _
           [(u "place", JObj [(u "area", str "Arcachon Bay"); (u "country", str "France")]);
            (u "document_id", JInt 7)]).
  - apply reordered_fields_cons.
    + apply (reordered_object _ [(u "country", str "France"); (u "area", str "Arcachon Bay")]).
      * repeat (apply reordered_fields_cons; [apply reordered_same|]). apply reordered_fields_nil.
      * apply perm_swap.
    + apply reordered_fields_cons; [apply reordered_same|apply reordered_fields_nil].
  - apply perm_swap.
Defined.

Lemma json_loads_distinct_keys_witness :
  distinct_keys (JObj [(u "area", str "Thau")]) = true.
Proof.
  exact (json_loads_distinct_keys repeated_key_text (JObj [(u "area", str "Thau")]) eq_refl).
Defined.

Lemma scenario_rows_reload :
  Forall (fun entry => Forall float_reloads (floats_of entry)) scenario_rows.
Proof. repeat constructor. Qed.

Lemma scenario_rows_distinct :
  Forall (fun entry => distinct_keys entry = true) scenario_rows.
Proof. repeat constructor. Qed.

Lemma json_loads_dumps_witness :
  json_loads (json_dumps_plain (JObj [(u "area", JStr oleron); (u "latitude", JFloat (u "45.9"));
                                       (u "longitude", JNull); (u "document_id", JInt 7)])
              ++ u " " ++ [10])
  = Ok (JObj [(u "area", JStr oleron); (u "latitude", JFloat (u "45.9"));
              (u "longitude", JNull); (u "document_id", JInt 7)]).
Proof.
  apply json_loads_dumps; [reflexivity| |reflexivity]. repeat constructor.
Defined.

Lemma output_text_lines_witness :
  lines (output_text scenario_rows)
  = map (fun entry => json_dumps_plain entry ++ [10]) scenario_rows.
Proof. exact (output_text_lines scenario_rows scenario_rows_reload). Defined.

Lemma read_findings_output_witness :
  read_findings (output_text scenario_rows) = Ok scenario_rows.
Proof.
  exact (read_findings_output scenario_rows scenario_rows_distinct scenario_rows_reload).
Defined.

Lemma blank_line_halts_reading_witness :
  read_findings (json_dumps_plain bonamia ++ [10; 10]) = Raise JSONDecodeError.
Proof.
  apply (blank_line_halts_reading _ [10]); [|reflexivity].
  change (json_dumps_plain bonamia ++ [10; 10])
    with (json_dumps_plain bonamia ++ 10 :: [10]).
  rewrite lines_line by reflexivity. right. left. reflexivity.
Defined.

Lemma checkpoint_text_reloads_witness :
  json_loads (json_dumps_indent 0
                (JObj [(u "original", bonamia); (u "processed", JArr scenario_rows)]))
  = Ok (JObj [(u "original", bonamia); (u "processed", JArr scenario_rows)]).
Proof.
  apply (checkpoint_text_reloads bonamia scenario_rows); [reflexivity|reflexivity|].
  repeat constructor.
Defined.

Example lone_surrogate_line_not_encodable :
  is_Some (utf8_encode (json_dumps_plain bonamia ++ [10])) /\
  utf8_encode (json_dumps_plain (JStr [55357]) ++ [10]) = None.
Proof. split; [apply utf8_encode_some|]; reflexivity. Qed.

Lemma expansion_records_encodable_witness :
  forallb encodable
    (zip_with (enriched perkinsus) (list_prod [str "A"; str "B"] perkinsus_fragments)
       [found "37.5" "-76.1"; GetRaises; found "37.5" "-76.1"; Response false None]) = true.
Proof.
  exact (proj1 (expansion_records_encodable perkinsus perkinsus_digest
                  [str "A"; str "B"] perkinsus_fragments
                  [found "37.5" "-76.1"; GetRaises; found "37.5" "-76.1"; Response false None]
                  eq_refl eq_refl eq_refl eq_refl)).
Defined.
